(** * E-ComerceRiwi: the CSV seed pipeline

    A shallow embedding of the seeders of [app/src/seeders] and of the DAO
    functions they call, with the properties of the seed runner stated and
    proved over it.

    - JavaScript strings are the UTF-8 text of the data files, as sequences
      of bytes ([string]).
    - JavaScript numbers are IEEE 754 binary64 values ([spec_float] at
      precision 53, maximal exponent 1024).
    - A plain object used as a record is a finite map from property names
      to values ([gmap string value]); the object that groups order details
      keeps its keys in order, as [Object.entries] enumerates them.
    - An asynchronous function is a function of the state of the database
      that either resolves or rejects and leaves behind the new state, the
      ORM calls it made and the lines it wrote to the console. *)

From Stdlib Require Import ZArith String Ascii List Floats.SpecFloat Lia.
From stdpp Require Import base option list gmap strings pretty.

Open Scope string_scope.
Open Scope list_scope.

(** ** JavaScript values and the built-ins the seeders use *)

Module Js.

Definition number := spec_float.

Definition prec : Z := 53.
Definition emax : Z := 1024.

Definition NaN : number := S754_nan.

Definition is_finite (x : number) : bool :=
  match x with
  | S754_zero _ | S754_finite _ _ _ => true
  | S754_infinity _ | S754_nan => false
  end.

Definition is_zero (x : number) : bool :=
  match x with
  | S754_zero _ => true
  | _ => false
  end.

Definition of_Z (z : Z) : number := binary_normalize prec emax z 0 false.

(** [x / y] and [x * y] on numbers. *)
Definition div (x y : number) : number := SFdiv prec emax x y.
Definition mul (x y : number) : number := SFmul prec emax x y.

Inductive value :=
| VUndefined
| VNull
| VBool (b : bool)
| VNum (x : number)
| VStr (s : string).

#[global] Instance number_eq_dec : EqDecision number.
Proof. solve_decision. Defined.

#[global] Instance value_eq_dec : EqDecision value.
Proof. solve_decision. Defined.

(** [v === s] for a string literal [s]. *)
Definition strict_eq_str (v : value) (s : string) : bool :=
  match v with
  | VStr s' => String.eqb s' s
  | _ => false
  end.

(** [v ?? d]. *)
Definition nullish (v d : value) : value :=
  match v with
  | VUndefined | VNull => d
  | _ => v
  end.

(** *** Strings *)

(** [s.split(sep)] for a one-character separator: a cut at every
    occurrence, so a string without separator gives one piece and the empty
    string gives one empty piece. *)
Fixpoint split (sep : ascii) (s : string) : list string :=
  match s with
  | EmptyString => [EmptyString]
  | String c rest =>
      if Ascii.eqb c sep then EmptyString :: split sep rest
      else match split sep rest with
           | [] => [String c EmptyString]
           | piece :: pieces => String c piece :: pieces
           end
  end.

Definition comma : ascii := ","%char.
Definition newline : ascii := Ascii.ascii_of_nat 10.

(** The white space and line terminators that [trim] removes, in UTF-8:
    TAB, LF, VT, FF, CR, SP, U+00A0, U+1680, U+2000 to U+200A, U+2028,
    U+2029, U+202F, U+205F, U+3000 and U+FEFF. *)
Definition bytes (l : list nat) : string :=
  string_of_list_ascii (List.map Ascii.ascii_of_nat l).

Definition white_space : list string :=
  List.map bytes
    ([ [9]; [10]; [11]; [12]; [13]; [32]; [194; 160]; [225; 154; 128] ]
     ++ List.map (fun b => [226; 128; b]) (seq 128 11)
     ++ [ [226; 128; 168]; [226; 128; 169]; [226; 128; 175];
          [226; 129; 159]; [227; 128; 128]; [239; 187; 191] ]).

Fixpoint strip_prefix (p s : string) : option string :=
  match p, s with
  | EmptyString, _ => Some s
  | String a p', String b s' => if Ascii.eqb a b then strip_prefix p' s' else None
  | String _ _, EmptyString => None
  end.

Fixpoint strip_any (ps : list string) (s : string) : option string :=
  match ps with
  | [] => None
  | p :: ps' =>
      match strip_prefix p s with
      | Some rest => Some rest
      | None => strip_any ps' s
      end
  end.

Fixpoint trim_fuel (ws : list string) (fuel : nat) (s : string) : string :=
  match fuel with
  | O => s
  | S fuel' =>
      match strip_any ws s with
      | Some rest => trim_fuel ws fuel' rest
      | None => s
      end
  end.

Definition rev_string (s : string) : string :=
  string_of_list_ascii (List.rev (list_ascii_of_string s)).

Definition trimStart (s : string) : string :=
  trim_fuel white_space (String.length s) s.

Definition trimEnd (s : string) : string :=
  rev_string (trim_fuel (List.map rev_string white_space)
                        (String.length s) (rev_string s)).

Definition trim (s : string) : string := trimEnd (trimStart s).

(** *** Arrays *)

(** [values[index]]: reading past the end gives [undefined]. *)
Definition at_index (values : list string) (index : nat) : value :=
  match values !! index with
  | Some s => VStr s
  | None => VUndefined
  end.

(** [xs.forEach((x, index) => ...)] threading the state the callback
    mutates. *)
Fixpoint forEach_from {A St : Type} (f : St -> A -> nat -> St)
    (xs : list A) (index : nat) (st : St) : St :=
  match xs with
  | [] => st
  | x :: xs' => forEach_from f xs' (S index) (f st x index)
  end.

Definition forEach {A St : Type} (f : St -> A -> nat -> St) (xs : list A) (st : St) : St :=
  forEach_from f xs 0 st.

(** *** Objects *)

Abbreviation obj := (gmap string value).

(** [o.k]: an absent property reads as [undefined]. (The seeders read no
    name that [Object.prototype] defines.) *)
Definition get (o : obj) (k : string) : value := default VUndefined (o !! k).

(** [o[k] = v] on an object created with [{}]. The name [__proto__] is the
    accessor inherited from [Object.prototype]: assigning a primitive to it
    stores nothing. The seeders only ever assign primitives. *)
Definition set (o : obj) (k : string) (v : value) : obj :=
  if String.eqb k "__proto__" then o else <[k := v]> o.

(** [delete o.k]. *)
Definition remove (o : obj) (k : string) : obj := delete k o.

End Js.

Import Js.

(** ** The storage layer, the file system and the console *)

(** The Sequelize model classes the seeders write through. The last three
    are the classes that [complete.seeder.ts] declares inline. *)
Inductive Model :=
| Role | Gender | Category | PaymentMethod | Bank | OrderStatus
| Country | Department | City | Access | User | Product
| Order | Address | OrderItem
| InlinePaymentMethod | InlineOrderStatus | InlineReference.

#[global] Instance Model_eq_dec : EqDecision Model.
Proof. solve_decision. Defined.

(** What a rejected promise or a [throw] carries. *)
Inductive Err :=
| TypeError (msg : string)
| FileError (path : string)
| NotNullViolation (field : string)
| UniqueViolation (m : Model)
| ForeignKeyViolation (m : Model)
| OtherError (msg : string).

#[global] Instance Err_eq_dec : EqDecision Err.
Proof. solve_decision. Defined.

(** [sequelize.sync({ force: true })] and [sequelize.sync({ alter: true })]. *)
Inductive SyncMode := Force | Alter.

(** The rows of every table, in insertion order, as they were handed to
    the ORM. *)
Definition DB := Model -> list obj.

Definition empty_db : DB := fun _ => [].

Definition db_append (d : DB) (m : Model) (rows : list obj) : DB :=
  fun m' => if decide (m' = m) then d m' ++ rows else d m'.

(** One call into the ORM with its result ([None]: fulfilled). *)
Inductive Event :=
| EvSync (mode : SyncMode) (result : option Err)
| EvInsert (m : Model) (rows : list obj) (result : option Err).

(** One line on the console. [LogCount n what] is the template literal
    made of the check mark, the number [n] and the text [what]; the
    pictographs that open the other messages are left out of their
    texts. *)
Inductive Msg :=
| Log (text : string)
| LogCount (n : nat) (what : string)
| LogData (text : string) (data : obj)
| LogError (text : string) (e : Err).

(** Everything outside the repository that a run depends on: the number
    conversions of the JavaScript engine, the data files, the [csv-parser]
    stream (the rows it emits before [end], or the error it reports) and
    the decisions of the database (which inserts and which schema
    synchronisations it accepts, given its current rows). An error of the
    file stream under the parser has no handler in the seeders and ends
    the process; such runs are not described here. *)
Record Env := {
  parseInt_str : string -> number;
  parseFloat_str : string -> number;
  number_to_string : number -> string;
  string_to_number : string -> number;
  readFileSync : string -> Err + string;
  csv_stream : string -> Err + list obj;
  insert_check : DB -> Model -> list obj -> option Err;
  sync_check : SyncMode -> DB -> option Err
}.

(** What awaiting an asynchronous function leaves behind: whether it
    resolved or rejected, the database, the ORM calls it made and the lines
    it wrote to the console. *)
Inductive Outcome (A : Type) :=
| Resolved (a : A)
| Rejected (e : Err).
Arguments Resolved {A} a.
Arguments Rejected {A} e.

Record Run (A : Type) := {
  outcome : Outcome A;
  db : DB;
  calls : list Event;
  console : list Msg
}.
Arguments outcome {A} r.
Arguments db {A} r.
Arguments calls {A} r.
Arguments console {A} r.

(** An asynchronous function, awaited from a given state of the database. *)
Definition Task (A : Type) : Type := DB -> Run A.

#[global] Instance Task_ret : MRet Task := fun A a d =>
  {| outcome := Resolved a; db := d; calls := []; console := [] |}.

(** [await m] followed by [f]: a rejection of [m] skips [f]. *)
#[global] Instance Task_bind : MBind Task := fun A B f m d =>
  let r := m d in
  match outcome r with
  | Resolved a =>
      let r' := f a (db r) in
      {| outcome := outcome r'; db := db r';
         calls := calls r ++ calls r'; console := console r ++ console r' |}
  | Rejected e =>
      {| outcome := Rejected e; db := db r;
         calls := calls r; console := console r |}
  end.

Definition throw {A : Type} (e : Err) : Task A := fun d =>
  {| outcome := Rejected e; db := d; calls := []; console := [] |}.

(** [try { body } catch (error) { handler }]. *)
Definition try_catch {A : Type} (body : Task A) (handler : Err -> Task A) : Task A :=
  fun d =>
    let r := body d in
    match outcome r with
    | Resolved a => r
    | Rejected e =>
        let r' := handler e (db r) in
        {| outcome := outcome r'; db := db r';
           calls := calls r ++ calls r'; console := console r ++ console r' |}
    end.

(** [for (const x of xs) { await f(x); }]. *)
Fixpoint for_of {A : Type} (xs : list A) (f : A -> Task unit) : Task unit :=
  match xs with
  | [] => mret tt
  | x :: xs' => f x;; for_of xs' f
  end.

Definition console_log (msg : Msg) : Task unit := fun d =>
  {| outcome := Resolved tt; db := d; calls := []; console := [msg] |}.

Section Program.

Variable env : Env.

(** [parseInt(v)], [parseFloat(v)]: the argument is first converted to a
    string. *)
Definition to_string (v : value) : string :=
  match v with
  | VUndefined => "undefined"
  | VNull => "null"
  | VBool true => "true"
  | VBool false => "false"
  | VNum x => number_to_string env x
  | VStr s => s
  end.

Definition parseInt (v : value) : value := VNum (parseInt_str env (to_string v)).
Definition parseFloat (v : value) : value := VNum (parseFloat_str env (to_string v)).

(** The operands of [/] and [*] are first converted to numbers. *)
Definition to_number (v : value) : number :=
  match v with
  | VUndefined => NaN
  | VNull => S754_zero false
  | VBool true => of_Z 1
  | VBool false => S754_zero false
  | VNum x => x
  | VStr s => string_to_number env s
  end.

Definition js_div (a b : value) : value := VNum (div (to_number a) (to_number b)).
Definition js_mul (a b : value) : value := VNum (mul (to_number a) (to_number b)).

(** *** ORM calls *)

(** [sequelize.sync(options)]: with [force] every table is dropped and
    created again, empty; with [alter] the tables are altered in place and
    keep their rows. *)
Definition sequelize_sync (mode : SyncMode) : Task unit := fun d =>
  match sync_check env mode d with
  | None =>
      {| outcome := Resolved tt;
         db := match mode with Force => empty_db | Alter => d end;
         calls := [EvSync mode None]; console := [] |}
  | Some e =>
      {| outcome := Rejected e; db := d;
         calls := [EvSync mode (Some e)]; console := [] |}
  end.

(** [Model.bulkCreate(rows)]: one statement, every row or none. *)
Definition bulkCreate (m : Model) (rows : list obj) : Task unit := fun d =>
  match insert_check env d m rows with
  | None =>
      {| outcome := Resolved tt; db := db_append d m rows;
         calls := [EvInsert m rows None]; console := [] |}
  | Some e =>
      {| outcome := Rejected e; db := d;
         calls := [EvInsert m rows (Some e)]; console := [] |}
  end.

(** [Model.create(data)]: an insert of one row. *)
Definition create (m : Model) (data : obj) : Task unit := bulkCreate m [data].

(** *** Fallible steps *)

Definition lift {A : Type} (r : Err + A) : Task A :=
  match r with
  | inl e => throw e
  | inr a => mret a
  end.

(** [lines[0].split(",")]: reading [split] off a missing first line would
    raise a [TypeError]. *)
Definition first_line_cells (lines : list string) : Err + list string :=
  match lines !! 0%nat with
  | Some line => inr (split comma line)
  | None => inl (TypeError "Cannot read properties of undefined (reading 'split')")
  end.

(** The promise every stream-based seeder builds around
    [fs.createReadStream(csvPath).pipe(csv())]: [onData] runs on each row
    and collects it, [onEnd] runs on the collected rows, and an error of
    the parser stream rejects. *)
Definition from_csv_stream (csvPath : string) (onData : obj -> obj)
    (onEnd : list obj -> Task unit) : Task unit :=
  match csv_stream env csvPath with
  | inl e => throw e
  | inr rows => onEnd (List.map onData rows)
  end.

(** [row.is_active = row.is_active === 'true']. *)
Definition coerce_is_active (row : obj) : obj :=
  set row "is_active" (VBool (strict_eq_str (get row "is_active") "true")).

(** ** The DAO functions the seeders call (their results are not used) *)

Definition name_and_active (data : obj) : obj :=
  <["name" := get data "name"]>
    (<["is_active" := nullish (get data "is_active") (VBool true)]> ∅).

Definition createRole (data : obj) : Task unit := create Role (name_and_active data).
Definition createGender (data : obj) : Task unit := create Gender data.
Definition createCategory (data : obj) : Task unit := create Category data.
Definition createPaymentMethod (data : obj) : Task unit := create PaymentMethod data.
Definition createBank (data : obj) : Task unit := create Bank (name_and_active data).
Definition createOrderStatus (data : obj) : Task unit := create OrderStatus data.
Definition createCountry (data : obj) : Task unit := create Country (name_and_active data).
Definition createDepartment (data : obj) : Task unit := create Department (name_and_active data).
Definition createCity (data : obj) : Task unit := create City (name_and_active data).
Definition createAccess (data : obj) : Task unit := create Access data.
Definition createUser (userData : obj) : Task unit := create User userData.

Definition product_fields (data : obj) : obj :=
  <["category_id" := get data "category_id"]>
    (<["name" := get data "name"]>
       (<["price" := get data "price"]>
          (<["description" := get data "description"]>
             (<["stock" := get data "stock"]>
                (<["is_active" := nullish (get data "is_active") (VBool true)]> ∅))))).

Definition createProduct (data : obj) : Task unit := create Product (product_fields data).

Definition createOrder (data : obj) : Task unit := create Order data.
Definition createAddress (data : obj) : Task unit := create Address data.

(** [createShoppingCart(userId, products)]: one order item per product of
    the cart, all inserted by a single [bulkCreate]. The order-details
    seeder imports it from [dao/order_items.dao]; the definition read here
    is the one of [dao/payment.dao.ts]. *)
Definition order_item (orderId : value) (product : obj) : obj :=
  <["order_id" := orderId]>
    (<["price" := get product "price"]>
       (<["quantity" := get product "quantity"]>
          (<["subtotal" := js_mul (get product "price") (get product "quantity")]>
             (<["is_active" := VBool true]> ∅)))).

Definition createShoppingCart (userId : value) (products : list obj) : Task unit :=
  let orderId := userId in
  bulkCreate OrderItem (List.map (order_item orderId) products).

(** ** The seeders *)

Definition seedRoles : Task unit :=
  from_csv_stream "src/docs/data/roles.csv" coerce_is_active
    (fun roles =>
       for_of roles createRole;;
       console_log (LogCount (length roles) "roles created from CSV")).

Definition seedGenders : Task unit :=
  from_csv_stream "src/docs/data/genders.csv" coerce_is_active
    (fun genders =>
       for_of genders createGender;;
       console_log (LogCount (length genders) "genders created from CSV")).

Definition seedCategories : Task unit :=
  from_csv_stream "src/docs/data/categories.csv" coerce_is_active
    (fun categories =>
       for_of categories createCategory;;
       console_log (LogCount (length categories) "categories created from CSV")).

Definition seedPaymentMethods : Task unit :=
  from_csv_stream "src/docs/data/payment-methods.csv" coerce_is_active
    (fun paymentMethods =>
       for_of paymentMethods createPaymentMethod;;
       console_log (LogCount (length paymentMethods) "payment methods created from CSV")).

Definition seedBanks : Task unit :=
  from_csv_stream "src/docs/data/banks.csv" coerce_is_active
    (fun banks =>
       for_of banks createBank;;
       console_log (LogCount (length banks) "banks created from CSV")).

Definition seedOrderStatus : Task unit :=
  from_csv_stream "src/docs/data/order-status.csv" (fun row => row)
    (fun orderStatuses =>
       for_of orderStatuses createOrderStatus;;
       console_log (LogCount (length orderStatuses) "order statuses created from CSV")).

Definition seedCountries : Task unit :=
  from_csv_stream "src/docs/data/countries.csv" (fun row => row)
    (fun countries =>
       for_of countries createCountry;;
       console_log (LogCount (length countries) "countries created from CSV")).

Definition seedDepartments : Task unit :=
  from_csv_stream "src/docs/data/departaments.csv" (fun row => row)
    (fun departments =>
       for_of departments createDepartment;;
       console_log (LogCount (length departments) "departments created from CSV")).

Definition seedCities : Task unit :=
  from_csv_stream "src/docs/data/cities.csv" (fun row => row)
    (fun cities =>
       for_of cities createCity;;
       console_log (LogCount (length cities) "cities created from CSV")).

Definition access_row (row : obj) : obj :=
  let row := coerce_is_active row in
  set row "role_id" (parseInt (get row "role_id")).

Definition seedAccesses : Task unit :=
  from_csv_stream "src/docs/data/accesses.csv" access_row
    (fun accesses =>
       for_of accesses createAccess;;
       console_log (LogCount (length accesses) "accesses created from CSV")).

Definition seedUsers : Task unit :=
  from_csv_stream "src/docs/data/users.csv" (fun row => row)
    (fun users =>
       for_of users createUser;;
       console_log (LogCount (length users) "users created from CSV")).

Definition product_row (row : obj) : obj :=
  let row := set row "price" (parseInt (get row "price")) in
  let row := set row "stock" (parseInt (get row "stock")) in
  let row := set row "category_id" (parseInt (get row "categoryId")) in
  remove row "categoryId".

Definition seedProducts : Task unit :=
  from_csv_stream "src/docs/data/products.csv" product_row
    (fun products =>
       for_of products createProduct;;
       console_log (LogCount (length products) "products created from CSV")).

Definition sample_orders : list obj :=
  [ <["customer_id" := VNum (of_Z 2)]>
      (<["bank_id" := VNum (of_Z 1)]>
         (<["order_status_id" := VNum (of_Z 1)]>
            (<["total" := VNum (of_Z 365000)]>
               (<["is_active" := VBool true]> ∅)))) ].

Definition seedOrders : Task unit :=
  let orders := sample_orders in
  for_of orders createOrder;;
  console_log (LogCount (length orders) "orders created").

(** *** Addresses ([address.seeder.ts]) *)

Definition is_one_of (names : list string) (header : string) : bool :=
  existsb (String.eqb header) names.

(** The record built from one line: the column [departament_id] is stored
    under [department_id], and the key columns are parsed as integers. *)
Definition address_field (values : list string) (address : obj)
    (header : string) (index : nat) : obj :=
  let value := at_index values index in
  let fieldName :=
    if String.eqb header "departament_id" then "department_id" else header in
  if is_one_of ["city_id"; "departament_id"; "department_id"; "country_id"; "user_id"] header
  then set address fieldName (parseInt value)
  else set address fieldName value.

Definition address_of_line (headers : list string) (line : string) : obj :=
  let values := split comma line in
  forEach (address_field values) headers ∅.

Definition parse_addresses (csvData : string) : Err + list obj :=
  let lines := split newline (trim csvData) in
  match first_line_cells lines with
  | inl e => inl e
  | inr headers => inr (List.map (address_of_line headers) (drop 1 lines))
  end.

Definition seedAddresses : Task unit :=
  try_catch
    (console_log (Log "Seeding addresses...");;
     csvData ← lift (readFileSync env "src/docs/data/addresses.csv");
     addresses ← lift (parse_addresses csvData);
     for_of addresses (fun addressData =>
       console_log (LogData "Creating address with data:" addressData);;
       createAddress addressData);;
     console_log (Log "Addresses seeded successfully"))
    (fun error =>
       console_log (LogError "Error seeding addresses:" error);;
       throw error).

(** The earlier version of the same seeder, which keeps every column under
    the name of the file's header. *)
Definition address_field_unrenamed (values : list string) (address : obj)
    (header : string) (index : nat) : obj :=
  let value := at_index values index in
  if is_one_of ["city_id"; "department_id"; "country_id"; "info_user_id"] header
  then set address header (parseInt value)
  else set address header value.

Definition address_of_line_unrenamed (headers : list string) (line : string) : obj :=
  let values := split comma line in
  forEach (address_field_unrenamed values) headers ∅.

Definition parse_addresses_unrenamed (csvData : string) : Err + list obj :=
  let lines := split newline (trim csvData) in
  match first_line_cells lines with
  | inl e => inl e
  | inr headers => inr (List.map (address_of_line_unrenamed headers) (drop 1 lines))
  end.

Definition seedAddresses_unrenamed : Task unit :=
  try_catch
    (console_log (Log "Seeding addresses...");;
     csvData ← lift (readFileSync env "src/docs/data/addresses.csv");
     addresses ← lift (parse_addresses_unrenamed csvData);
     for_of addresses createAddress;;
     console_log (Log "Addresses seeded successfully"))
    (fun error =>
       console_log (LogError "Error seeding addresses:" error);;
       throw error).

(** *** Order details ([order-detail.seeder.ts]) *)

Definition orderDetail_field (values : list string) (orderDetail : obj)
    (header : string) (index : nat) : obj :=
  let value := at_index values index in
  if is_one_of ["order_id"; "product_id"; "amount"] header
  then set orderDetail header (parseInt value)
  else if String.eqb header "subtotal"
  then set orderDetail header (parseFloat value)
  else if String.eqb header "is_active"
  then set orderDetail header (VBool (strict_eq_str value "true"))
  else set orderDetail header value.

Definition orderDetail_of_line (headers : list string) (line : string) : obj :=
  let values := split comma line in
  forEach (orderDetail_field values) headers ∅.

Definition parse_orderDetails (csvData : string) : Err + list obj :=
  let lines := split newline (trim csvData) in
  match first_line_cells lines with
  | inl e => inl e
  | inr headers => inr (List.map (orderDetail_of_line headers) (drop 1 lines))
  end.

(** The object [orderGroups]: its keys, in the order they were created,
    each with the array pushed to so far. *)
Definition Groups := list (string * list obj).

(** [if (!groups[key]) groups[key] = []; groups[key].push(item)]. *)
Fixpoint group_push (groups : Groups) (key : string) (item : obj) : Groups :=
  match groups with
  | [] => [(key, [item])]
  | (k, items) :: rest =>
      if String.eqb k key then (k, items ++ [item]) :: rest
      else (k, items) :: group_push rest key item
  end.

Definition cart_item (detail : obj) : obj :=
  <["price" := js_div (get detail "subtotal") (get detail "amount")]>
    (<["quantity" := get detail "amount"]> ∅).

Definition group_key (detail : obj) : string := to_string (get detail "order_id").

Definition group_by_order (orderDetails : list obj) : Groups :=
  fold_left
    (fun groups detail => group_push groups (group_key detail) (cart_item detail))
    orderDetails [].

(** A property name is an array index when it is the decimal numeral,
    without leading zero, of an integer below [2^32 - 1]. *)
Definition digit_of (c : ascii) : option N :=
  let n := N_of_ascii c in
  if (48 <=? n)%N && (n <=? 57)%N then Some (n - 48)%N else None.

Fixpoint digits_value (s : string) (acc : N) : option N :=
  match s with
  | EmptyString => Some acc
  | String c rest =>
      match digit_of c with
      | Some d => digits_value rest (10 * acc + d)%N
      | None => None
      end
  end.

Definition array_index (s : string) : option N :=
  match s with
  | EmptyString => None
  | String "0" (String _ _) => None
  | _ =>
      match digits_value s 0%N with
      | Some n => if (n <? 4294967295)%N then Some n else None
      | None => None
      end
  end.

Definition is_index {A : Type} (entry : string * A) : bool :=
  match array_index (fst entry) with Some _ => true | None => false end.

Definition index_or_zero (s : string) : N := default 0%N (array_index s).

Fixpoint insert_by_index {A : Type} (entry : string * A) (sorted : list (string * A))
    : list (string * A) :=
  match sorted with
  | [] => [entry]
  | e :: rest =>
      if (index_or_zero (fst entry) <? index_or_zero (fst e))%N
      then entry :: e :: rest
      else e :: insert_by_index entry rest
  end.

Definition sort_by_index {A : Type} (entries : list (string * A)) : list (string * A) :=
  fold_right insert_by_index [] entries.

(** [Object.entries(o)]: the array-index keys in ascending order, then the
    other keys in the order they were created. *)
Definition object_entries {A : Type} (o : list (string * A)) : list (string * A) :=
  sort_by_index (List.filter is_index o)
    ++ List.filter (fun entry => negb (is_index entry)) o.

Definition seedOrderDetails : Task unit :=
  try_catch
    (console_log (Log "Seeding order details...");;
     csvData ← lift (readFileSync env "src/docs/data/order-details.csv");
     orderDetails ← lift (parse_orderDetails csvData);
     let orderGroups := group_by_order orderDetails in
     for_of (object_entries orderGroups) (fun '(orderId, products) =>
       createShoppingCart (parseInt (VStr orderId)) products);;
     console_log (Log "Order details seeded successfully"))
    (fun error =>
       console_log (LogError "Error seeding order details:" error);;
       throw error).

(** ** The runner ([seeders/index.ts]) *)

Definition runSeeders : Task unit :=
  try_catch
    (console_log (Log "Starting seeders...");;
     sequelize_sync Force;;
     console_log (Log "Database synchronized - all tables recreated");;
     seedRoles;;
     seedGenders;;
     seedCategories;;
     seedPaymentMethods;;
     seedBanks;;
     seedOrderStatus;;
     seedCountries;;
     seedDepartments;;
     seedCities;;
     seedAccesses;;
     seedUsers;;
     seedProducts;;
     seedOrders;;
     seedAddresses;;
     seedOrderDetails;;
     console_log (Log "Seeders completed successfully"))
    (fun error =>
       console_log (LogError "Error running seeders:" error);;
       throw error).

(** The script run on its own:
    [run().then(() => process.exit(0)).catch(error => { console.error(...); process.exit(1) })].
    The result is the exit code of the process. *)
Definition standalone (run : Task unit) (text : string) (d : DB) : Z * Run unit :=
  let r := run d in
  match outcome r with
  | Resolved _ => (0%Z, r)
  | Rejected error =>
      (1%Z, {| outcome := outcome r; db := db r; calls := calls r;
               console := console r ++ [LogError text error] |})
  end.

Definition runSeeders_main : DB -> Z * Run unit :=
  standalone runSeeders "Error running seeders:".

End Program.

(** ** [final.seeder.ts] *)

Module FinalSeeder.
Section Final.

Variable env : Env.

Definition record_of_line (headers : list string) (line : string) : obj :=
  let values := split comma line in
  forEach (fun record header index => set record header (at_index values index))
          headers ∅.

(** The parsing part of [seedFromCSV]: from the text of the file to the
    records handed to [bulkCreate]. *)
Definition parse_records (transform : option (obj -> obj)) (csvData : string)
    : Err + list obj :=
  let lines := split newline (trim csvData) in
  match first_line_cells lines with
  | inl e => inl e
  | inr headers =>
      inr (List.map
             (fun line =>
                let record := record_of_line headers line in
                match transform with
                | Some f => f record
                | None => record
                end)
             (drop 1 lines))
  end.

Definition model_name (m : Model) : string :=
  match m with
  | Role => "Role" | Gender => "Gender" | Category => "Category"
  | PaymentMethod | InlinePaymentMethod => "PaymentMethod"
  | Bank => "Bank"
  | OrderStatus | InlineOrderStatus => "OrderStatus"
  | Country => "Country" | Department => "Department" | City => "City"
  | Access => "Access" | User => "User" | Product => "Product"
  | Order => "Order" | Address => "Address" | OrderItem => "OrderItem"
  | InlineReference => "Reference"
  end.

Definition seedFromCSV (model : Model) (filename : string)
    (transform : option (obj -> obj)) : Task unit :=
  csvData ← lift (readFileSync env ("src/docs/data/" +:+ filename));
  records ← lift (parse_records transform csvData);
  bulkCreate env model records;;
  console_log (LogCount (length records) (model_name model +:+ " records created")).

End Final.
End FinalSeeder.

(** ** [complete.seeder.ts] *)

Module CompleteSeeder.
Section Complete.

Variable env : Env.

(** The same helper as in [final.seeder.ts], reading from [../data]. *)
Definition seedFromCSV (model : Model) (filename : string)
    (transform : option (obj -> obj)) : Task unit :=
  csvData ← lift (readFileSync env ("src/data/" +:+ filename));
  records ← lift (FinalSeeder.parse_records transform csvData);
  bulkCreate env model records;;
  console_log
    (LogCount (length records) (FinalSeeder.model_name model +:+ " records created")).

(** [(row) => ({ ...row, is_active: row.is_active === 'true' })]. *)
Definition with_boolean_is_active (row : obj) : obj :=
  <["is_active" := VBool (strict_eq_str (get row "is_active") "true")]> row.

Definition runCompleteSeeder : Task unit :=
  try_catch
    (console_log (Log "Starting complete database seeder...");;
     sequelize_sync env Alter;;
     console_log (Log "Database synchronized");;
     seedFromCSV Country "countries.csv" None;;
     seedFromCSV Department "departments.csv" None;;
     seedFromCSV City "cities.csv" None;;
     seedFromCSV Bank "banks.csv" (Some with_boolean_is_active);;
     seedFromCSV InlinePaymentMethod "payment-methods.csv" (Some with_boolean_is_active);;
     seedFromCSV InlineOrderStatus "order-status.csv" None;;
     seedFromCSV InlineReference "references.csv" (Some with_boolean_is_active);;
     console_log (Log "All tables seeded successfully!"))
    (fun error =>
       console_log (LogError "Error running complete seeder:" error);;
       throw error).

Definition runCompleteSeeder_main : DB -> Z * Run unit :=
  standalone runCompleteSeeder "Error:".

End Complete.
End CompleteSeeder.

(** ** A sample environment

    One concrete runtime, file system and database, used to run the
    seeders on small inputs. The conversions below follow the language
    definition on the ASCII inputs of the examples (decimal and hexadecimal
    integers, decimal literals); [sample_number_to_string] prints integers
    of magnitude below [2^53], [NaN], the zeros and the infinities as the
    engine does, and the integer part of any other number. *)

Module Sample.

Definition hex_digit_of (c : ascii) : option N :=
  let n := N_of_ascii c in
  if (48 <=? n)%N && (n <=? 57)%N then Some (n - 48)%N
  else if (97 <=? n)%N && (n <=? 102)%N then Some (n - 87)%N
  else if (65 <=? n)%N && (n <=? 70)%N then Some (n - 55)%N
  else None.

(** The longest prefix of digits: its value, its length and the rest. *)
Fixpoint read_digits (digit : ascii -> option N) (radix : N) (s : string)
    (acc : N) (count : nat) : N * nat * string :=
  match s with
  | EmptyString => (acc, count, s)
  | String c rest =>
      match digit c with
      | Some d => read_digits digit radix rest (radix * acc + d)%N (S count)
      | None => (acc, count, s)
      end
  end.

Definition read_sign (s : string) : bool * string :=
  match s with
  | String "-" rest => (true, rest)
  | String "+" rest => (false, rest)
  | _ => (false, s)
  end.

Definition signed (negative : bool) (n : N) : number :=
  binary_normalize prec emax (if negative then - Z.of_N n else Z.of_N n) 0 negative.

Definition sample_parseInt (s : string) : number :=
  let '(negative, s1) := read_sign (trimStart s) in
  let '(digit, radix, s2) :=
    match s1 with
    | String "0" (String "x" rest) | String "0" (String "X" rest) =>
        (hex_digit_of, 16%N, rest)
    | _ => (digit_of, 10%N, s1)
    end in
  let '(n, count, _) := read_digits digit radix s2 0%N 0 in
  match count with
  | O => NaN
  | S _ => signed negative n
  end.

(** [m * 10^e10], rounded to the nearest number. *)
Definition decimal (negative : bool) (m : N) (e10 : Z) : number :=
  match m with
  | N0 => S754_zero negative
  | Npos p =>
      match e10 with
      | Zneg k =>
          let '(mz, ez, lz) :=
            SFdiv_core_binary prec emax (Zpos p) 0 (Z.pow 10 (Zpos k)) 0 in
          binary_round_aux prec emax negative mz ez lz
      | _ => signed negative (m * N.pow 10 (Z.to_N e10))%N
      end
  end.

Definition read_exponent (s : string) : Z :=
  match s with
  | String "e" rest | String "E" rest =>
      let '(negative, s1) := read_sign rest in
      let '(n, count, _) := read_digits digit_of 10%N s1 0%N 0 in
      match count with
      | O => 0%Z
      | S _ => if negative then (- Z.of_N n)%Z else Z.of_N n
      end
  | _ => 0%Z
  end.

Definition sample_parseFloat (s : string) : number :=
  let '(negative, s1) := read_sign (trimStart s) in
  match strip_prefix "Infinity" s1 with
  | Some _ => S754_infinity negative
  | None =>
      let '(int_part, int_count, s2) := read_digits digit_of 10%N s1 0%N 0 in
      let '(mantissa, frac_count, s3) :=
        match s2 with
        | String "." rest => read_digits digit_of 10%N rest int_part 0
        | _ => (int_part, 0%nat, s2)
        end in
      match (int_count + frac_count)%nat with
      | O => NaN
      | S _ => decimal negative mantissa (read_exponent s3 - Z.of_nat frac_count)
      end
  end.

(** The integer part of a finite number, with its sign. *)
Definition integer_part (x : number) : option (bool * N) :=
  match x with
  | S754_zero s => Some (s, 0%N)
  | S754_finite s m e => Some (s, Z.to_N (Z.shiftl (Zpos m) e))
  | _ => None
  end.

Definition sample_number_to_string (x : number) : string :=
  match x with
  | S754_nan => "NaN"
  | S754_infinity false => "Infinity"
  | S754_infinity true => "-Infinity"
  | S754_zero _ => "0"
  | S754_finite s m e =>
      (if s then "-" else "") +:+ pretty (Z.to_N (Z.shiftl (Zpos m) e))
  end.

Definition sample_string_to_number (s : string) : number :=
  match trim s with
  | EmptyString => S754_zero false
  | t => sample_parseFloat t
  end.

(** A file system given by its files. *)
Fixpoint read_from (files : list (string * string)) (path : string) : Err + string :=
  match files with
  | [] => inl (FileError path)
  | (p, text) :: rest => if String.eqb p path then inr text else read_from rest path
  end.

(** The [csv-parser] stream on a file without quotes: the first line names
    the columns and every later line gives one row of strings. *)
Definition stream_from (files : list (string * string)) (path : string) : Err + list obj :=
  match read_from files path with
  | inl e => inl e
  | inr text => FinalSeeder.parse_records None text
  end.

(** A database that accepts every call. *)
Definition accept_all : DB -> Model -> list obj -> option Err := fun _ _ _ => None.

(** The two constraints the troubleshooting guide reports: an address
    needs a [department_id], and the [order_id] of an order item must be
    the identifier of an order (the orders of a fresh table are numbered
    from 1). *)
Definition is_null (v : value) : bool :=
  match v with
  | VUndefined | VNull => true
  | _ => false
  end.

Definition is_order_id (d : DB) (v : value) : bool :=
  match v with
  | VNum x =>
      match integer_part x with
      | Some (false, n) =>
          bool_decide (x = of_Z (Z.of_N n))
          && (1 <=? n)%N && (n <=? N.of_nat (length (d Order)))%N
      | _ => false
      end
  | _ => false
  end.

Definition guide_check (d : DB) (m : Model) (rows : list obj) : option Err :=
  match m with
  | Address =>
      if forallb (fun row => negb (is_null (get row "department_id"))) rows
      then None else Some (NotNullViolation "Address.department_id")
  | OrderItem =>
      if forallb (fun row => is_order_id d (get row "order_id")) rows
      then None else Some (ForeignKeyViolation OrderItem)
  | _ => None
  end.

Definition sample_env (files : list (string * string))
    (check : DB -> Model -> list obj -> option Err) : Env :=
  {| parseInt_str := sample_parseInt;
     parseFloat_str := sample_parseFloat;
     number_to_string := sample_number_to_string;
     string_to_number := sample_string_to_number;
     readFileSync := read_from files;
     csv_stream := stream_from files;
     insert_check := check;
     sync_check := fun _ _ => None |}.

Definition lines (l : list string) : string :=
  fold_right (fun line rest =>
                match rest with
                | EmptyString => line
                | _ => line +:+ String newline rest
                end) EmptyString l.

Definition sample_files : list (string * string) :=
  [ ("src/docs/data/roles.csv", lines ["name,is_active"; "Admin,true"; "User,false"; "Guest,"]);
    ("src/docs/data/genders.csv", lines ["name,is_active"; "Female,true"; "Male,true"]);
    ("src/docs/data/categories.csv", lines ["name,is_active"; "Football,true"]);
    ("src/docs/data/payment-methods.csv", lines ["name,is_active"; "Cash,true"]);
    ("src/docs/data/banks.csv", lines ["name,is_active"; "Bancolombia,true"]);
    ("src/docs/data/order-status.csv", lines ["name,is_active"; "Pending,true"]);
    ("src/docs/data/countries.csv", lines ["name"; "Colombia"]);
    ("src/docs/data/departaments.csv", lines ["name"; "Antioquia"]);
    ("src/docs/data/cities.csv", lines ["name"; "Medellin"]);
    ("src/docs/data/accesses.csv",
     lines ["role_id,username,password,is_active"; "1,admin,admin123,true"; "2,user1,user123,true"]);
    ("src/docs/data/users.csv",
     lines ["access_id,gender_id,full_name,email"; "1,1,Admin User,admin@test.com";
            "2,2,Regular User,user@test.com"]);
    ("src/docs/data/products.csv",
     lines ["name,description,price,stock,categoryId"; "Ball,Match ball,120000,10,1"]);
    ("src/docs/data/addresses.csv",
     lines ["user_id,city_id,departament_id,country_id,street,number,postal_code,is_active";
            "1,1,1,1,Calle 10,42,050001,true"]);
    ("src/docs/data/order-details.csv",
     lines ["order_id,product_id,amount,subtotal,is_active"; "1,1,2,240000,true";
            "2,1,1,120000,true"; "1,1,1,125000.5,true"]) ].

(** The files of [src/data] that [runCompleteSeeder] reads. *)
Definition complete_files : list (string * string) :=
  [ ("src/data/countries.csv", lines ["name"; "Colombia"; "Mexico"]);
    ("src/data/departments.csv", lines ["name"; "Antioquia"]);
    ("src/data/cities.csv", lines ["name"; "Medellin"]);
    ("src/data/banks.csv", lines ["name,is_active"; "Bancolombia,true"]);
    ("src/data/payment-methods.csv", lines ["name,is_active"; "Cash,true"]);
    ("src/data/order-status.csv", lines ["name"; "Pending"]);
    ("src/data/references.csv", lines ["name,is_active"; "Invoice,false"]) ].


(** A header that names the field [a] twice. *)
Definition repeated_name_text : string := lines ["a,a"; "1,2"].

(** A file whose last line has no value for [is_active]. *)
Definition short_line_text : string := lines ["name,is_active"; "Admin,true"; "Guest"].

(** An order detail with amount 0. *)
Definition free_item : obj :=
  <["order_id" := VNum (of_Z 2)]>
    (<["amount" := VNum (of_Z 0)]> (<["subtotal" := VNum (of_Z 7)]> ∅)).

(** The sample files behind a database that enforces the two constraints
    of the guide, and behind one that accepts everything. *)
Definition guide_env : Env := sample_env sample_files guide_check.

Definition open_env : Env := sample_env (sample_files ++ complete_files) accept_all.

End Sample.

(** ** What a run amounts to

    The part of a run the database sees: the error it ended with, if any,
    the final state and the ORM calls made. For each seeder this is
    determined by the batches of records it hands to the ORM, one batch per
    call. *)

Definition error_of {A : Type} (o : Outcome A) : option Err :=
  match o with
  | Resolved _ => None
  | Rejected e => Some e
  end.

Definition summary {A : Type} (r : Run A) : option Err * DB * list Event :=
  (error_of (outcome r), db r, calls r).

(** A first part of a run followed by a second one, which is skipped when
    the first fails. *)
Definition and_then (first : option Err * DB * list Event)
    (next : DB -> option Err * DB * list Event) : option Err * DB * list Event :=
  match first with
  | (None, d1, evs1) => let '(r, d2, evs2) := next d1 in (r, d2, evs1 ++ evs2)
  | failed => failed
  end.

(** The batches of a seeder, or the error that stops it before it reaches
    the database. *)
Definition Plan : Type := Err + list (list obj).

Section Semantics.

Variable env : Env.

(** The calls of a loop of inserts: it stops at the first rejected batch. *)
Fixpoint insert_all (d : DB) (m : Model) (batches : list (list obj))
    : option Err * DB * list Event :=
  match batches with
  | [] => (None, d, [])
  | rows :: rest =>
      match insert_check env d m rows with
      | None =>
          let '(r, d', evs) := insert_all (db_append d m rows) m rest in
          (r, d', EvInsert m rows None :: evs)
      | Some e => (Some e, d, [EvInsert m rows (Some e)])
      end
  end.

Definition exec_plan (d : DB) (m : Model) (p : Plan) : option Err * DB * list Event :=
  match p with
  | inl e => (Some e, d, [])
  | inr batches => insert_all d m batches
  end.

(** One plan after the other, until one fails. *)
Fixpoint exec_plans (plans : list (Model * Plan)) (d : DB)
    : option Err * DB * list Event :=
  match plans with
  | [] => (None, d, [])
  | (m, p) :: rest =>
      match exec_plan d m p with
      | (None, d1, evs1) =>
          let '(r, d2, evs2) := exec_plans rest d1 in (r, d2, evs1 ++ evs2)
      | failed => failed
      end
  end.

Definition singletons (records : list obj) : list (list obj) :=
  List.map (fun record => [record]) records.

Definition stream_plan (csvPath : string) (prepare : obj -> obj) : Plan :=
  match csv_stream env csvPath with
  | inl e => inl e
  | inr rows => inr (singletons (List.map prepare rows))
  end.

Definition file_plan {A : Type} (csvPath : string) (parse : string -> Err + A)
    (batches : A -> list (list obj)) : Plan :=
  match readFileSync env csvPath with
  | inl e => inl e
  | inr csvData =>
      match parse csvData with
      | inl e => inl e
      | inr parsed => inr (batches parsed)
      end
  end.

(** The carts [seedOrderDetails] creates from the parsed rows: one batch
    of order items per entry of the grouping object. *)
Definition cart_batches (orderDetails : list obj) : list (list obj) :=
  List.map
    (fun '(orderId, products) =>
       List.map (order_item env (parseInt env (VStr orderId))) products)
    (object_entries (group_by_order env orderDetails)).

(** The batches each seeder of [runSeeders] hands to the ORM. *)
Definition plan_of (m : Model) : Plan :=
  match m with
  | Role => stream_plan "src/docs/data/roles.csv"
              (fun row => name_and_active (coerce_is_active row))
  | Gender => stream_plan "src/docs/data/genders.csv" coerce_is_active
  | Category => stream_plan "src/docs/data/categories.csv" coerce_is_active
  | PaymentMethod => stream_plan "src/docs/data/payment-methods.csv" coerce_is_active
  | Bank => stream_plan "src/docs/data/banks.csv"
              (fun row => name_and_active (coerce_is_active row))
  | OrderStatus => stream_plan "src/docs/data/order-status.csv" (fun row => row)
  | Country => stream_plan "src/docs/data/countries.csv" name_and_active
  | Department => stream_plan "src/docs/data/departaments.csv" name_and_active
  | City => stream_plan "src/docs/data/cities.csv" name_and_active
  | Access => stream_plan "src/docs/data/accesses.csv" (access_row env)
  | User => stream_plan "src/docs/data/users.csv" (fun row => row)
  | Product => stream_plan "src/docs/data/products.csv"
                 (fun row => product_fields (product_row env row))
  | Order => inr (singletons sample_orders)
  | Address => file_plan "src/docs/data/addresses.csv" (parse_addresses env) singletons
  | OrderItem => file_plan "src/docs/data/order-details.csv" (parse_orderDetails env)
                   cart_batches
  | InlinePaymentMethod | InlineOrderStatus | InlineReference => inr []
  end.

(** The seeders in the order [runSeeders] awaits them, each with the model
    it writes through. *)
Definition seeders : list (Model * Task unit) :=
  [ (Role, seedRoles env); (Gender, seedGenders env);
    (Category, seedCategories env); (PaymentMethod, seedPaymentMethods env);
    (Bank, seedBanks env); (OrderStatus, seedOrderStatus env);
    (Country, seedCountries env); (Department, seedDepartments env);
    (City, seedCities env); (Access, seedAccesses env);
    (User, seedUsers env); (Product, seedProducts env);
    (Order, seedOrders env); (Address, seedAddresses env);
    (OrderItem, seedOrderDetails env) ].

Definition seed_order : list Model := List.map fst seeders.

Definition plans : list (Model * Plan) :=
  List.map (fun m => (m, plan_of m)) seed_order.

(** [await s1; await s2; ...; rest]. *)
Definition run_then (tasks : list (Task unit)) (rest : Task unit) : Task unit :=
  fold_right (fun task after => task;; after) rest tasks.

Definition run_in_order (tasks : list (Task unit)) : Task unit :=
  run_then tasks (mret tt).

End Semantics.

(** What each entity references by foreign key, as [runSeeders] notes next
    to each call. *)
Definition dependsOn (m : Model) : list Model :=
  match m with
  | Access => [Role]
  | User => [Access; Gender]
  | Product => [Category]
  | Order => [User; PaymentMethod; Bank; OrderStatus]
  | Address => [City; Department; Country; User]
  | OrderItem => [Order; Product]
  | _ => []
  end.

(** The single batch each [seedFromCSV] call of [runCompleteSeeder] hands
    to [bulkCreate]. *)
Definition bulk_plan (env : Env) (path : string) (transform : option (obj -> obj)) : Plan :=
  file_plan env path (FinalSeeder.parse_records transform) (fun records => [records]).

Definition complete_plan_of (env : Env) (m : Model) : Plan :=
  match m with
  | Country => bulk_plan env "src/data/countries.csv" None
  | Department => bulk_plan env "src/data/departments.csv" None
  | City => bulk_plan env "src/data/cities.csv" None
  | Bank => bulk_plan env "src/data/banks.csv" (Some CompleteSeeder.with_boolean_is_active)
  | InlinePaymentMethod =>
      bulk_plan env "src/data/payment-methods.csv" (Some CompleteSeeder.with_boolean_is_active)
  | InlineOrderStatus => bulk_plan env "src/data/order-status.csv" None
  | InlineReference =>
      bulk_plan env "src/data/references.csv" (Some CompleteSeeder.with_boolean_is_active)
  | _ => inr []
  end.

Definition complete_seeders (env : Env) : list (Model * Task unit) :=
  [ (Country, CompleteSeeder.seedFromCSV env Country "countries.csv" None);
    (Department, CompleteSeeder.seedFromCSV env Department "departments.csv" None);
    (City, CompleteSeeder.seedFromCSV env City "cities.csv" None);
    (Bank, CompleteSeeder.seedFromCSV env Bank "banks.csv"
             (Some CompleteSeeder.with_boolean_is_active));
    (InlinePaymentMethod,
     CompleteSeeder.seedFromCSV env InlinePaymentMethod "payment-methods.csv"
       (Some CompleteSeeder.with_boolean_is_active));
    (InlineOrderStatus,
     CompleteSeeder.seedFromCSV env InlineOrderStatus "order-status.csv" None);
    (InlineReference,
     CompleteSeeder.seedFromCSV env InlineReference "references.csv"
       (Some CompleteSeeder.with_boolean_is_active)) ].

Definition complete_plans (env : Env) : list (Model * Plan) :=
  List.map (fun mt => (fst mt, complete_plan_of env (fst mt))) (complete_seeders env).


(** The calls that insert every batch of a plan, all fulfilled. *)
Definition fulfilled (m : Model) (batches : list (list obj)) : list Event :=
  List.map (fun rows => EvInsert m rows None) batches.

(** Entity [D] is complete before position [i] of a log of calls: its
    seeder got as far as the database, and every one of its batches was
    inserted, fulfilled, by calls that all come before position [i]. *)
Definition completed_before (env : Env) (D : Model) (i : nat) (log : list Event) : Prop :=
  exists batches j,
    plan_of env D = inr batches
    /\ j + length batches <= i
    /\ take (length batches) (drop j log) = fulfilled D batches.

Definition is_insert (ev : Event) : bool :=
  match ev with
  | EvInsert _ _ _ => true
  | EvSync _ _ => false
  end.

Definition is_sync (ev : Event) : bool := negb (is_insert ev).

(** An order of entities respects the dependencies when everything an
    entity references comes earlier. *)
Fixpoint respects_dependencies (seen order : list Model) : bool :=
  match order with
  | [] => true
  | E :: rest =>
      forallb (fun D => bool_decide (D ∈ seen)) (dependsOn E)
      && respects_dependencies (E :: seen) rest
  end.

(** Seeder number [k] (from 0) is the one that fails, with error [e]: run
    in order from the reset database, the seeders before it resolve and it
    rejects. *)
Definition fails_at (env : Env) (k : nat) (e : Err) : Prop :=
  exists task,
    List.map snd (seeders env) !! k = Some task
    /\ let before := run_in_order (take k (List.map snd (seeders env))) empty_db in
       outcome before = Resolved tt /\ outcome (task (db before)) = Rejected e.





(** The text that follows the count in the success line of a seeder;
    [seedAddresses] and [seedOrderDetails] have no such line. *)
Definition count_label (m : Model) : option string :=
  match m with
  | Role => Some "roles created from CSV"
  | Gender => Some "genders created from CSV"
  | Category => Some "categories created from CSV"
  | PaymentMethod => Some "payment methods created from CSV"
  | Bank => Some "banks created from CSV"
  | OrderStatus => Some "order statuses created from CSV"
  | Country => Some "countries created from CSV"
  | Department => Some "departments created from CSV"
  | City => Some "cities created from CSV"
  | Access => Some "accesses created from CSV"
  | User => Some "users created from CSV"
  | Product => Some "products created from CSV"
  | Order => Some "orders created"
  | _ => None
  end.

(** The line a seeder writes once all its records are inserted. *)
Definition success_line (env : Env) (m : Model) : option Msg :=
  match m, plan_of env m with
  | Address, _ => Some (Log "Addresses seeded successfully")
  | OrderItem, _ => Some (Log "Order details seeded successfully")
  | _, inr batches =>
      match count_label m with
      | Some what => Some (LogCount (length batches) what)
      | None => None
      end
  | _, inl _ => None
  end.

(** The statement "a seeder that succeeds writes a line with a count". *)
Definition every_seeder_reports_a_count (env : Env) : Prop :=
  forall m task d,
    (m, task) ∈ seeders env ->
    outcome (task d) = Resolved tt ->
    exists n what, LogCount n what ∈ console (task d).

(** ** The reference reading of a CSV text

    In the words of the specification: trim the text, split it into lines,
    take the comma-split first line as the field names, and give one record
    per later line, which maps the i-th field name to the i-th comma-split
    value of that line ([undefined] when the line has no such value). *)

Definition field_names (text : string) : list string :=
  split comma (hd EmptyString (split newline (trim text))).

Definition data_lines (text : string) : list string :=
  tail (split newline (trim text)).

Definition maps_fields_to_values (names values : list string) (record : obj) : Prop :=
  (forall i name, names !! i = Some name -> record !! name = Some (at_index values i))
  /\ (forall name, name ∉ names -> record !! name = None).

Definition reads_as_specified (text : string) (records : list obj) : Prop :=
  Forall2
    (fun line record => maps_fields_to_values (field_names text) (split comma line) record)
    (data_lines text) records.

(** The statement "the parse of [seedFromCSV] equals the reference reading
    and never raises". *)
Definition parse_matches_reference (text : string) : Prop :=
  exists records,
    FinalSeeder.parse_records None text = inr records
    /\ reads_as_specified text records.

(** The last header that satisfies [p], with its position. *)
Fixpoint last_where (p : string -> bool) (names : list string) (index : nat)
    : option (nat * string) :=
  match names with
  | [] => None
  | header :: rest =>
      match last_where p rest (S index) with
      | Some found => Some found
      | None => if p header then Some (index, header) else None
      end
  end.

(** The position at which [name] occurs last among the field names. *)
Definition last_position (name : string) (names : list string) : option nat :=
  fst <$> last_where (fun header => String.eqb header name) names 0.

(** Modelled from the spec: the declaration of the [Address] model
    ([models/address.model.ts] is not among the sources). The specification
    and the troubleshooting guide document its column [department_id] as
    not-null: creating an address without it is refused with
    "notNull Violation: Address.department_id cannot be null". *)
Definition address_not_null (data : obj) : option Err :=
  match get data "department_id" with
  | VUndefined | VNull => Some (NotNullViolation "Address.department_id")
  | _ => None
  end.

(** The rows of the file with header [name,is_active] and the lines
    [Admin,true], [User,false] and [Guest,] (the last value missing), as
    the stream delivers them. *)
Definition raw_role (name is_active : string) : obj :=
  <["name" := VStr name]> (<["is_active" := VStr is_active]> ∅).

Definition three_role_rows : list obj :=
  [ raw_role "Admin" "true"; raw_role "User" "false"; raw_role "Guest" "" ].

Definition role_record (name : string) (is_active : bool) : obj :=
  <["name" := VStr name]> (<["is_active" := VBool is_active]> ∅).

(** The statement "the first two rows give the booleans true and false,
    and on the third the seeding fails or [is_active] becomes null". *)
Definition missing_flag_fails_or_is_null (env : Env) (d : DB) : Prop :=
  csv_stream env "src/docs/data/roles.csv" = inr three_role_rows ->
  exists admin user guest,
    plan_of env Role = inr [[admin]; [user]; [guest]]
    /\ get admin "is_active" = VBool true
    /\ get user "is_active" = VBool false
    /\ (outcome (seedRoles env d) <> Resolved tt \/ get guest "is_active" = VNull).

(** [groups[key]], when the key is there. *)
Fixpoint group_get (groups : Groups) (key : string) : option (list obj) :=
  match groups with
  | [] => None
  | (k, items) :: rest => if String.eqb k key then Some items else group_get rest key
  end.

(** The rows of one order: those whose [order_id] gives the property name
    [key]. *)
Definition rows_of_order (env : Env) (key : string) (orderDetails : list obj) : list obj :=
  List.filter (fun detail => String.eqb (group_key env detail) key) orderDetails.

(** ** The runners of [final.seeder.ts] and [simple.seeder.ts] *)

Section Other_runners.

Variable env : Env.

(** [{ name: ..., is_active: true }]. *)
Definition active_named (name : string) : obj :=
  <["name" := VStr name]> (<["is_active" := VBool true]> ∅).

Definition final_genders : list obj :=
  [ active_named "Male"; active_named "Female"; active_named "Other" ].

Definition final_access (role_id : Z) (username password : string) : obj :=
  <["role_id" := VNum (of_Z role_id)]>
    (<["username" := VStr username]>
       (<["password" := VStr password]>
          (<["is_active" := VBool true]> ∅))).

Definition final_accesses : list obj :=
  [ final_access 1 "admin" "admin123"; final_access 2 "user1" "user123" ].

(** A [Date] object is held as its time value, the milliseconds since the
    epoch: [new Date('1990-01-01')] is [631152000000] and
    [new Date('1995-05-15')] is [800496000000]. *)
Definition final_user (access_id gender_id : Z) (full_name email : string)
    (birth_date : Z) (phone : string) : obj :=
  <["access_id" := VNum (of_Z access_id)]>
    (<["gender_id" := VNum (of_Z gender_id)]>
       (<["full_name" := VStr full_name]>
          (<["email" := VStr email]>
             (<["birth_date" := VNum (of_Z birth_date)]>
                (<["phone" := VStr phone]>
                   (<["is_active" := VBool true]> ∅)))))).

Definition usersData : list obj :=
  [ final_user 1 1 "Admin User" "admin@test.com" 631152000000 "3001234567";
    final_user 2 2 "Regular User" "user@test.com" 800496000000 "3007654321" ].

(** [(row) => ({ ...row, price: parseFloat(row.price), stock: parseInt(row.stock),
    category_id: parseInt(row.categoryId) })]. *)
Definition final_product_row (row : obj) : obj :=
  <["category_id" := parseInt env (get row "categoryId")]>
    (<["stock" := parseInt env (get row "stock")]>
       (<["price" := parseFloat env (get row "price")]> row)).

(** [(row) => ({ ...row, user_id: parseInt(row.user_id), city_id: parseInt(row.city_id),
    departament_id: parseInt(row.departament_id), country_id: parseInt(row.country_id),
    is_active: row.is_active === 'true' })]. *)
Definition final_address_row (row : obj) : obj :=
  <["is_active" := VBool (strict_eq_str (get row "is_active") "true")]>
    (<["country_id" := parseInt env (get row "country_id")]>
       (<["departament_id" := parseInt env (get row "departament_id")]>
          (<["city_id" := parseInt env (get row "city_id")]>
             (<["user_id" := parseInt env (get row "user_id")]> row)))).

(** [(row) => ({ ...row, customer_id: parseInt(row.customer_id),
    bank_id: parseInt(row.bank_id), order_status_id: parseInt(row.order_status_id),
    total: parseFloat(row.total), is_active: row.is_active === 'true' })]. *)
Definition final_order_row (row : obj) : obj :=
  <["is_active" := VBool (strict_eq_str (get row "is_active") "true")]>
    (<["total" := parseFloat env (get row "total")]>
       (<["order_status_id" := parseInt env (get row "order_status_id")]>
          (<["bank_id" := parseInt env (get row "bank_id")]>
             (<["customer_id" := parseInt env (get row "customer_id")]> row)))).

(** [UserDAO.create(userData)]. *)
Definition UserDAO_create (userData : obj) : Task unit := create env User userData.

(** The function for the roles, categories, banks and payment methods,
    [(row) => ({ ...row, is_active: row.is_active === 'true' })], is the one
    of [complete.seeder.ts]. Loading [../dao/user.dao] before the users are
    created is taken to succeed. *)
Definition runFinalSeeder : Task unit :=
  try_catch
    (console_log (Log "Starting final database seeder...");;
     sequelize_sync env Force;;
     console_log (Log "Database synchronized");;
     FinalSeeder.seedFromCSV env Role "roles.csv"
       (Some CompleteSeeder.with_boolean_is_active);;
     FinalSeeder.seedFromCSV env Category "categories.csv"
       (Some CompleteSeeder.with_boolean_is_active);;
     FinalSeeder.seedFromCSV env Country "countries.csv" None;;
     FinalSeeder.seedFromCSV env Department "departaments.csv" None;;
     FinalSeeder.seedFromCSV env City "cities.csv" None;;
     FinalSeeder.seedFromCSV env Bank "banks.csv"
       (Some CompleteSeeder.with_boolean_is_active);;
     FinalSeeder.seedFromCSV env PaymentMethod "payment-methods.csv"
       (Some CompleteSeeder.with_boolean_is_active);;
     FinalSeeder.seedFromCSV env OrderStatus "order-status.csv" None;;
     bulkCreate env Gender final_genders;;
     console_log (Log "Genders created");;
     bulkCreate env Access final_accesses;;
     console_log (Log "Accesses created");;
     for_of usersData UserDAO_create;;
     console_log (Log "Users created using DAO");;
     FinalSeeder.seedFromCSV env Product "products.csv" (Some final_product_row);;
     FinalSeeder.seedFromCSV env Address "addresses.csv" (Some final_address_row);;
     FinalSeeder.seedFromCSV env Order "orders.csv" (Some final_order_row);;
     console_log (Log "All tables seeded successfully!"))
    (fun error =>
       console_log (LogError "Error running final seeder:" error);;
       throw error).

Definition runFinalSeeder_main : DB -> Z * Run unit :=
  standalone runFinalSeeder "Error:".

(** *** [simple.seeder.ts] *)

Definition simple_roles : list obj := [ active_named "admin"; active_named "user" ].

Definition simple_categories : list obj :=
  [ active_named "Football"; active_named "Basketball"; active_named "Tennis" ].

Definition simple_user (name email : string) : obj :=
  <["name" := VStr name]> (<["email" := VStr email]> ∅).

Definition simple_users : list obj :=
  [ simple_user "Admin User" "admin@test.com";
    simple_user "Regular User" "user@test.com" ].

Definition runSimpleSeeders : Task unit :=
  try_catch
    (console_log (Log "Starting simple seeders...");;
     sequelize_sync env Force;;
     console_log (Log "Database synchronized");;
     bulkCreate env Role simple_roles;;
     console_log (Log "Roles created");;
     bulkCreate env Category simple_categories;;
     console_log (Log "Categories created");;
     bulkCreate env User simple_users;;
     console_log (Log "Users created");;
     console_log (Log "Simple seeders completed successfully"))
    (fun error =>
       console_log (LogError "Error running simple seeders:" error);;
       throw error).

Definition runSimpleSeeders_main : DB -> Z * Run unit :=
  standalone runSimpleSeeders "Error running simple seeders:".

(** The batches each step of [runFinalSeeder] hands to the ORM. *)
Definition final_plan_of (m : Model) : Plan :=
  match m with
  | Role => bulk_plan env "src/docs/data/roles.csv"
              (Some CompleteSeeder.with_boolean_is_active)
  | Category => bulk_plan env "src/docs/data/categories.csv"
                  (Some CompleteSeeder.with_boolean_is_active)
  | Country => bulk_plan env "src/docs/data/countries.csv" None
  | Department => bulk_plan env "src/docs/data/departaments.csv" None
  | City => bulk_plan env "src/docs/data/cities.csv" None
  | Bank => bulk_plan env "src/docs/data/banks.csv"
              (Some CompleteSeeder.with_boolean_is_active)
  | PaymentMethod => bulk_plan env "src/docs/data/payment-methods.csv"
                       (Some CompleteSeeder.with_boolean_is_active)
  | OrderStatus => bulk_plan env "src/docs/data/order-status.csv" None
  | Gender => inr [final_genders]
  | Access => inr [final_accesses]
  | User => inr (singletons usersData)
  | Product => bulk_plan env "src/docs/data/products.csv" (Some final_product_row)
  | Address => bulk_plan env "src/docs/data/addresses.csv" (Some final_address_row)
  | Order => bulk_plan env "src/docs/data/orders.csv" (Some final_order_row)
  | _ => inr []
  end.

(** The models in the order [runFinalSeeder] writes to them. *)
Definition final_order : list Model :=
  [ Role; Category; Country; Department; City; Bank; PaymentMethod; OrderStatus;
    Gender; Access; User; Product; Address; Order ].

Definition final_plans : list (Model * Plan) :=
  List.map (fun m => (m, final_plan_of m)) final_order.

Definition simple_plans : list (Model * Plan) :=
  [ (Role, inr [simple_roles]); (Category, inr [simple_categories]);
    (User, inr [simple_users]) ].

End Other_runners.

(** ** The associations ([models/associations.ts]) *)

(** The model classes of the application: the ones the seeders write
    through, and [OrderPayment], which no seeder touches. *)
Inductive ModelClass :=
| Seeded (m : Model)
| OrderPayment.

Inductive AssociationKind := HasMany | HasOne | BelongsTo.

(** [source.kind(target, { foreignKey, as })]. *)
Record Association := {
  source : ModelClass;
  kind : AssociationKind;
  target : ModelClass;
  foreignKey : string;
  alias : string
}.

Definition associate (source : Model) (kind : AssociationKind) (target : Model)
    (foreignKey alias : string) : Association :=
  {| source := Seeded source; kind := kind; target := Seeded target;
     foreignKey := foreignKey; alias := alias |}.

(** The associations [applyAssociations] declares, in the order of its
    calls. *)
Definition applyAssociations : list Association :=
  [ associate Role HasMany Access "role_id" "accesses";
    associate Access BelongsTo Role "role_id" "role";
    associate Access HasOne User "access_id" "user";
    associate User BelongsTo Access "access_id" "access";
    associate Gender HasMany User "gender_id" "users";
    associate User BelongsTo Gender "gender_id" "gender";
    associate User HasMany Address "user_id" "addresses";
    associate Address BelongsTo User "user_id" "user";
    associate City HasMany Address "city_id" "addresses";
    associate Address BelongsTo City "city_id" "city";
    associate Department HasMany Address "department_id" "addresses";
    associate Address BelongsTo Department "department_id" "department";
    associate Country HasMany Address "country_id" "addresses";
    associate Address BelongsTo Country "country_id" "country";
    associate Category HasMany Product "category_id" "products";
    associate Product BelongsTo Category "category_id" "category";
    associate Access HasMany Order "customer_id" "orders";
    associate Order BelongsTo Access "customer_id" "customer";
    associate Bank HasMany Order "bank_id" "orders";
    associate Order BelongsTo Bank "bank_id" "bank";
    associate OrderStatus HasMany Order "order_status_id" "orders";
    associate Order BelongsTo OrderStatus "order_status_id" "status";
    {| source := Seeded Order; kind := HasMany; target := OrderPayment;
       foreignKey := "order_id"; alias := "payments" |};
    {| source := OrderPayment; kind := BelongsTo; target := Seeded Order;
       foreignKey := "order_id"; alias := "order" |};
    {| source := Seeded PaymentMethod; kind := HasMany; target := OrderPayment;
       foreignKey := "payment_method_id"; alias := "payments" |};
    {| source := OrderPayment; kind := BelongsTo; target := Seeded PaymentMethod;
       foreignKey := "payment_method_id"; alias := "paymentMethod" |};
    associate Order HasMany OrderItem "order_id" "items";
    associate OrderItem BelongsTo Order "order_id" "order";
    associate Product HasMany OrderItem "product_id" "orderItems";
    associate OrderItem BelongsTo Product "product_id" "product" ].

(** The model whose key [a] puts into the rows of [E], when [a] is a
    [belongsTo] of [E]. *)
Definition key_holder (E : Model) (a : Association) : option Model :=
  match kind a, source a, target a with
  | BelongsTo, Seeded s, Seeded t => if decide (s = E) then Some t else None
  | _, _, _ => None
  end.

(** The models whose keys the rows of [E] hold. *)
Definition references (E : Model) : list Model :=
  omap (key_holder E) applyAssociations.

(** Everything an entity of [order] depends on comes earlier in it (or is
    in [seen]). *)
Fixpoint comes_after (deps : Model -> list Model) (seen order : list Model) : bool :=
  match order with
  | [] => true
  | E :: rest =>
      forallb (fun D => bool_decide (D ∈ seen)) (deps E)
      && comes_after deps (E :: seen) rest
  end.

(** The batches of plan [p] were all inserted into [D], fulfilled, by calls
    before position [i] of the log. *)
Definition completed_in (p : Plan) (D : Model) (i : nat) (log : list Event) : Prop :=
  exists batches j,
    p = inr batches
    /\ j + length batches <= i
    /\ take (length batches) (drop j log) = fulfilled D batches.

(** The body of the loop of [seedAddresses], as a function of its own. *)
Definition log_and_create (env : Env) (addressData : obj) : Task unit :=
  console_log (LogData "Creating address with data:" addressData);;
  createAddress env addressData.

(** ** Notions for the text of a file and the order of the carts *)

(** The number of occurrences of a character in a string. *)
Fixpoint count_char (c : ascii) (s : string) : nat :=
  match s with
  | EmptyString => 0
  | String a rest => (if Ascii.eqb a c then 1 else 0) + count_char c rest
  end.


(** Entries in ascending order of the integers their keys stand for. *)
Fixpoint ascending {A : Type} (entries : list (string * A)) : Prop :=
  match entries with
  | [] => True
  | entry :: rest =>
      Forall (fun later => (index_or_zero (fst entry) <= index_or_zero (fst later))%N) rest
      /\ ascending rest
  end.


(** A line feed on its own. *)
Definition line_feed : string := String newline EmptyString.

(** * Properties *)

(** ** The built-ins on small inputs *)

Example split_at_every_comma : split comma "a,,b," = ["a"; ""; "b"; ""].
Proof. reflexivity. Qed.

Example split_of_empty : split comma "" = [""].
Proof. reflexivity. Qed.

Example trim_both_ends :
  trim (String newline "  name,is_active  " +:+ String newline "") = "name,is_active".
Proof. vm_compute. reflexivity. Qed.

Example trim_byte_order_mark : trim (bytes [239; 187; 191; 97; 44; 98; 13; 10]) = "a,b".
Proof. vm_compute. reflexivity. Qed.

Example set_proto_stores_nothing : set ∅ "__proto__" (VStr "x") = ∅.
Proof. reflexivity. Qed.

Example array_index_examples :
  array_index "10" = Some 10%N /\ array_index "0" = Some 0%N
  /\ array_index "01" = None /\ array_index "-1" = None
  /\ array_index "NaN" = None /\ array_index "4294967295" = None.
Proof. repeat split; reflexivity. Qed.

Example object_entries_order :
  List.map fst (object_entries [("10", 1); ("NaN", 2); ("2", 3); ("-1", 4)])
  = ["2"; "10"; "NaN"; "-1"].
Proof. reflexivity. Qed.

Example division_by_zero :
  div (of_Z 7) (of_Z 0) = S754_infinity false /\ div (of_Z 0) (of_Z 0) = NaN
  /\ div (of_Z 7) (of_Z 2) = Sample.sample_parseFloat "3.5".
Proof. repeat split; vm_compute; reflexivity. Qed.

Example sample_parseInt_examples :
  Sample.sample_parseInt "42" = of_Z 42
  /\ Sample.sample_parseInt "  -17px" = of_Z (-17)
  /\ Sample.sample_parseInt "0x1F" = of_Z 31
  /\ Sample.sample_parseInt "" = NaN
  /\ Sample.sample_parseInt "undefined" = NaN
  /\ Sample.sample_parseInt "12.7" = of_Z 12.
Proof. repeat split; vm_compute; reflexivity. Qed.

Example sample_parseFloat_examples :
  Sample.sample_parseFloat "125000.5" = div (of_Z 250001) (of_Z 2)
  /\ Sample.sample_parseFloat "1e3" = of_Z 1000
  /\ Sample.sample_parseFloat ".5" = div (of_Z 1) (of_Z 2)
  /\ Sample.sample_parseFloat "abc" = NaN.
Proof. repeat split; vm_compute; reflexivity. Qed.

Example parse_records_example :
  FinalSeeder.parse_records None (Sample.lines ["name,is_active"; "Admin,true"; "Guest"])
  = inr [ <["name" := VStr "Admin"]> (<["is_active" := VStr "true"]> ∅);
          <["name" := VStr "Guest"]> (<["is_active" := VUndefined]> ∅) ].
Proof. vm_compute. reflexivity. Qed.

(** ** How the summary of a run is composed *)

Lemma and_then_ext (first : option Err * DB * list Event)
    (next next' : DB -> option Err * DB * list Event) :
  (forall d, next d = next' d) -> and_then first next = and_then first next'.
Proof.
  intros Hext. destruct first as [[[e|] d1] evs]; simpl; [reflexivity|].
  by rewrite Hext.
Qed.

Lemma summary_bind (first : Task unit) (next : Task unit) (d : DB) :
  summary ((first;; next) d) = and_then (summary (first d)) (fun d1 => summary (next d1)).
Proof.
  unfold summary, and_then, mbind, Task_bind.
  destruct (outcome (first d)) as [[]|e]; reflexivity.
Qed.

Lemma summary_log (msg : Msg) (d : DB) : summary (console_log msg d) = (None, d, []).
Proof. reflexivity. Qed.

Lemma summary_log_then (msg : Msg) (next : Task unit) (d : DB) :
  summary ((console_log msg;; next) d) = summary (next d).
Proof.
  rewrite summary_bind, summary_log. unfold and_then.
  destruct (summary (next d)) as [[r d2] evs]. reflexivity.
Qed.

Lemma and_then_done (first : option Err * DB * list Event) :
  and_then first (fun d1 => (None, d1, [])) = first.
Proof.
  destruct first as [[[e|] d1] evs]; simpl; [reflexivity|].
  by rewrite app_nil_r.
Qed.

Lemma summary_then_log (first : Task unit) (msg : Msg) (d : DB) :
  summary ((first;; console_log msg) d) = summary (first d).
Proof. rewrite summary_bind. apply and_then_done. Qed.

Lemma summary_lift_bind {A : Type} (r : Err + A) (next : A -> Task unit) (d : DB) :
  summary ((a ← lift r; next a) d)
  = match r with
    | inl e => (Some e, d, [])
    | inr a => summary (next a d)
    end.
Proof.
  destruct r as [e|a]; unfold summary, mbind, Task_bind; simpl; [reflexivity|].
  reflexivity.
Qed.

(** A handler that logs the error and throws it again changes nothing the
    database sees. *)
Lemma summary_rethrow (body : Task unit) (text : string) (d : DB) :
  summary (try_catch body (fun error => console_log (LogError text error);; throw error) d)
  = summary (body d).
Proof.
  unfold summary, try_catch.
  destruct (outcome (body d)) as [[]|e] eqn:Hout; simpl.
  - by rewrite Hout.
  - by rewrite app_nil_r.
Qed.

Lemma and_then_assoc (first : option Err * DB * list Event)
    (next after : DB -> option Err * DB * list Event) :
  and_then (and_then first next) after
  = and_then first (fun d => and_then (next d) after).
Proof.
  destruct first as [[[e|] d1] evs1]; simpl; [reflexivity|].
  destruct (next d1) as [[[e|] d2] evs2]; simpl; [reflexivity|].
  destruct (after d2) as [[r d3] evs3]. by rewrite app_assoc.
Qed.

Lemma summary_eq {A : Type} (r : Run A) x d' evs :
  summary r = (x, d', evs) -> error_of (outcome r) = x /\ db r = d' /\ calls r = evs.
Proof. unfold summary. intros Heq. by injection Heq. Qed.

Section Closed_forms.

Variable env : Env.

Lemma summary_bulkCreate (m : Model) (rows : list obj) (d : DB) :
  summary (bulkCreate env m rows d) = insert_all env d m [rows].
Proof.
  unfold summary, bulkCreate. simpl.
  destruct (insert_check env d m rows); reflexivity.
Qed.

Lemma insert_all_cons (d : DB) (m : Model) (rows : list obj) (rest : list (list obj)) :
  insert_all env d m (rows :: rest)
  = and_then (insert_all env d m [rows]) (fun d1 => insert_all env d1 m rest).
Proof.
  simpl. destruct (insert_check env d m rows); simpl; [reflexivity|].
  destruct (insert_all env (db_append d m rows) m rest) as [[r d2] evs]. reflexivity.
Qed.

(** A loop whose body amounts to one [bulkCreate] per element. *)
Lemma summary_for_of {A : Type} (m : Model) (batch : A -> list obj) (body : A -> Task unit)
    (items : list A) :
  (forall x d, summary (body x d) = summary (bulkCreate env m (batch x) d)) ->
  forall d, summary (for_of items body d) = insert_all env d m (List.map batch items).
Proof.
  intros Hbody. induction items as [|x items IH]; intros d.
  - reflexivity.
  - cbn [for_of List.map]. rewrite summary_bind, insert_all_cons.
    rewrite Hbody, summary_bulkCreate. apply and_then_ext, IH.
Qed.

Lemma summary_for_of_create (m : Model) (shape : obj -> obj) (items : list obj) (d : DB) :
  summary (for_of items (fun x => create env m (shape x)) d)
  = insert_all env d m (singletons (List.map shape items)).
Proof.
  unfold singletons. rewrite List.map_map.
  apply (summary_for_of m (fun x => [shape x])). reflexivity.
Qed.

(** The stream-based seeders all have the same shape. *)
Lemma summary_stream_seeder (csvPath : string) (onData : obj -> obj) (m : Model)
    (shape : obj -> obj) (what : string) (d : DB) :
  summary (from_csv_stream env csvPath onData
             (fun items =>
                for_of items (fun x => create env m (shape x));;
                console_log (LogCount (length items) what)) d)
  = exec_plan env d m (stream_plan env csvPath (fun row => shape (onData row))).
Proof.
  unfold from_csv_stream, stream_plan.
  destruct (csv_stream env csvPath) as [e|rows]; [reflexivity|].
  rewrite summary_then_log, summary_for_of_create. simpl.
  by rewrite List.map_map.
Qed.

Lemma summary_seedOrders (d : DB) :
  summary (seedOrders env d) = exec_plan env d Order (plan_of env Order).
Proof.
  unfold seedOrders. rewrite summary_then_log.
  apply (summary_for_of_create Order (fun x => x)).
Qed.

Lemma summary_seedAddresses (d : DB) :
  summary (seedAddresses env d) = exec_plan env d Address (plan_of env Address).
Proof.
  unfold seedAddresses. rewrite summary_rethrow, summary_log_then, summary_lift_bind.
  cbn [plan_of]. unfold file_plan.
  destruct (readFileSync env _) as [e|csvData]; [reflexivity|].
  rewrite summary_lift_bind.
  destruct (parse_addresses env csvData) as [e|addresses]; [reflexivity|].
  rewrite summary_then_log. cbn [exec_plan]. unfold singletons.
  apply (summary_for_of Address (fun x => [x])).
  intros x d'. by rewrite summary_log_then.
Qed.

Lemma summary_seedOrderDetails (d : DB) :
  summary (seedOrderDetails env d) = exec_plan env d OrderItem (plan_of env OrderItem).
Proof.
  unfold seedOrderDetails. rewrite summary_rethrow, summary_log_then, summary_lift_bind.
  cbn [plan_of]. unfold file_plan.
  destruct (readFileSync env _) as [e|csvData]; [reflexivity|].
  rewrite summary_lift_bind.
  destruct (parse_orderDetails env csvData) as [e|orderDetails]; [reflexivity|].
  rewrite summary_then_log. cbn [exec_plan]. unfold cart_batches.
  apply (summary_for_of OrderItem
           (fun '(orderId, products) =>
              List.map (order_item env (parseInt env (VStr orderId))) products)).
  intros [orderId products] d'. reflexivity.
Qed.

(** Every seeder of the runner does what its plan says. *)
Lemma seeders_follow_plans :
  Forall (fun '(m, task) => forall d, summary (task d) = exec_plan env d m (plan_of env m))
         (seeders env).
Proof.
  unfold seeders.
  repeat (apply Forall_cons; split;
          [ first [ exact (summary_seedOrders) | exact (summary_seedAddresses)
                  | exact (summary_seedOrderDetails)
                  | intros d; apply (summary_stream_seeder _ _ _ (fun x => x))
                  | intros d; apply summary_stream_seeder ] | ]).
  constructor.
Qed.

Lemma exec_plans_cons (m : Model) (p : Plan) (rest : list (Model * Plan)) (d : DB) :
  exec_plans env ((m, p) :: rest) d
  = and_then (exec_plan env d m p) (exec_plans env rest).
Proof.
  cbn [exec_plans]. unfold and_then.
  destruct (exec_plan env d m p) as [[[e|] d1] evs1]; reflexivity.
Qed.

Lemma summary_run_then (plan : Model -> Plan) (tasks : list (Model * Task unit))
    (rest : Task unit) :
  Forall (fun '(m, task) => forall d, summary (task d) = exec_plan env d m (plan m)) tasks ->
  forall d,
    summary (run_then (List.map snd tasks) rest d)
    = and_then (exec_plans env (List.map (fun mt => (fst mt, plan (fst mt))) tasks) d)
               (fun d1 => summary (rest d1)).
Proof.
  induction 1 as [|[m task] tasks Htask _ IH]; intros d.
  - reflexivity.
  - cbn [List.map run_then fold_right fst snd].
    rewrite summary_bind, exec_plans_cons, and_then_assoc, Htask.
    apply and_then_ext. intros d1. apply IH.
Qed.

(** The runner resets the schema and then follows the plans in order. *)
Lemma summary_runSeeders (d : DB) :
  summary (runSeeders env d)
  = and_then (summary (sequelize_sync env Force d)) (exec_plans env (plans env)).
Proof.
  unfold runSeeders.
  rewrite summary_rethrow, summary_log_then, summary_bind.
  apply and_then_ext. intros d1. rewrite summary_log_then.
  change (summary (run_then (List.map snd (seeders env))
                            (console_log (Log "Seeders completed successfully")) d1)
          = exec_plans env (plans env) d1).
  rewrite (summary_run_then (plan_of env) _ _ seeders_follow_plans).
  apply and_then_done.
Qed.

Lemma summary_seedFromCSV (model : Model) (filename : string)
    (transform : option (obj -> obj)) (d : DB) :
  summary (CompleteSeeder.seedFromCSV env model filename transform d)
  = exec_plan env d model (bulk_plan env ("src/data/" +:+ filename) transform).
Proof.
  unfold CompleteSeeder.seedFromCSV, bulk_plan, file_plan.
  rewrite summary_lift_bind.
  destruct (readFileSync env _) as [e|csvData]; [reflexivity|].
  rewrite summary_lift_bind.
  destruct (FinalSeeder.parse_records transform csvData) as [e|records]; [reflexivity|].
  rewrite summary_then_log. apply summary_bulkCreate.
Qed.

Lemma summary_final_seedFromCSV (model : Model) (filename : string)
    (transform : option (obj -> obj)) (d : DB) :
  summary (FinalSeeder.seedFromCSV env model filename transform d)
  = exec_plan env d model (bulk_plan env ("src/docs/data/" +:+ filename) transform).
Proof.
  unfold FinalSeeder.seedFromCSV, bulk_plan, file_plan.
  rewrite summary_lift_bind.
  destruct (readFileSync env _) as [e|csvData]; [reflexivity|].
  rewrite summary_lift_bind.
  destruct (FinalSeeder.parse_records transform csvData) as [e|records]; [reflexivity|].
  rewrite summary_then_log. apply summary_bulkCreate.
Qed.

Lemma complete_seeders_follow_plans :
  Forall (fun '(m, task) =>
            forall d, summary (task d) = exec_plan env d m (complete_plan_of env m))
         (complete_seeders env).
Proof.
  unfold complete_seeders.
  repeat (apply Forall_cons; split; [intros d; apply summary_seedFromCSV|]).
  constructor.
Qed.

(** [runCompleteSeeder] alters the schema in place and then follows its
    plans in order. *)
Lemma summary_runCompleteSeeder (d : DB) :
  summary (CompleteSeeder.runCompleteSeeder env d)
  = and_then (summary (sequelize_sync env Alter d)) (exec_plans env (complete_plans env)).
Proof.
  unfold CompleteSeeder.runCompleteSeeder.
  rewrite summary_rethrow, summary_log_then, summary_bind.
  apply and_then_ext. intros d1. rewrite summary_log_then.
  change (summary (run_then (List.map snd (complete_seeders env))
                            (console_log (Log "All tables seeded successfully!")) d1)
          = exec_plans env (complete_plans env) d1).
  rewrite (summary_run_then (complete_plan_of env) _ _ complete_seeders_follow_plans).
  apply and_then_done.
Qed.

End Closed_forms.

(** ** The calls of a plan *)

Section Plans.

Variable env : Env.

Lemma insert_all_others (m : Model) (batches : list (list obj)) :
  forall d r d' evs,
    insert_all env d m batches = (r, d', evs) ->
    forall m', m' <> m -> d' m' = d m'.
Proof.
  induction batches as [|rows rest IH]; intros d r d' evs Hrun m' Hne.
  - by inversion Hrun.
  - cbn [insert_all] in Hrun.
    destruct (insert_check env d m rows) as [e|].
    + by inversion Hrun.
    + destruct (insert_all env (db_append d m rows) m rest) as [[r1 d1] evs1] eqn:Hrest.
      inversion Hrun; subst. rewrite (IH _ _ _ _ Hrest m' Hne).
      unfold db_append. by case_decide.
Qed.

Lemma insert_all_ok (m : Model) (batches : list (list obj)) :
  forall d d' evs,
    insert_all env d m batches = (None, d', evs) ->
    d' m = d m ++ concat batches /\ evs = fulfilled m batches.
Proof.
  induction batches as [|rows rest IH]; intros d d' evs Hrun.
  - inversion Hrun. by rewrite app_nil_r.
  - cbn [insert_all] in Hrun.
    destruct (insert_check env d m rows) as [e|]; [by inversion Hrun|].
    destruct (insert_all env (db_append d m rows) m rest) as [[r1 d1] evs1] eqn:Hrest.
    inversion Hrun; subst. destruct (IH _ _ _ Hrest) as [Hdb Hevs].
    split.
    + rewrite Hdb. unfold db_append. rewrite decide_True by done.
      cbn [concat]. by rewrite app_assoc.
    + by rewrite Hevs.
Qed.

Lemma insert_all_failed (m : Model) (batches : list (list obj)) :
  forall d e d' evs,
    insert_all env d m batches = (Some e, d', evs) ->
    exists n rows,
      batches !! n = Some rows
      /\ d' m = d m ++ concat (take n batches)
      /\ evs = fulfilled m (take n batches) ++ [EvInsert m rows (Some e)].
Proof.
  induction batches as [|rows rest IH]; intros d e d' evs Hrun.
  - inversion Hrun.
  - cbn [insert_all] in Hrun.
    destruct (insert_check env d m rows) as [e'|].
    + inversion Hrun; subst. exists 0, rows. cbn. by rewrite app_nil_r.
    + destruct (insert_all env (db_append d m rows) m rest) as [[r1 d1] evs1] eqn:Hrest.
      inversion Hrun; subst. destruct (IH _ _ _ _ Hrest) as (n & rows' & Hn & Hdb & Hevs).
      exists (S n), rows'. split; [done|]. split.
      * rewrite Hdb. unfold db_append. rewrite decide_True by done.
        cbn [take concat]. by rewrite app_assoc.
      * by rewrite Hevs.
Qed.

Lemma insert_all_inserts (m : Model) (batches : list (list obj)) :
  forall d r d' evs,
    insert_all env d m batches = (r, d', evs) ->
    Forall (fun ev => exists rows result, ev = EvInsert m rows result) evs.
Proof.
  intros d [e|] d' evs Hrun.
  - destruct (insert_all_failed _ _ _ _ _ _ Hrun) as (n & rows & _ & _ & ->).
    apply Forall_app. split.
    + unfold fulfilled. apply Forall_forall. intros ev Hev.
      apply list_elem_of_fmap in Hev as (rows' & -> & _). eauto.
    + repeat constructor. eauto.
  - destruct (insert_all_ok _ _ _ _ _ Hrun) as [_ ->].
    unfold fulfilled. apply Forall_forall. intros ev Hev.
    apply list_elem_of_fmap in Hev as (rows' & -> & _). eauto.
Qed.

Lemma exec_plan_others (m : Model) (p : Plan) (d : DB) r d' evs :
  exec_plan env d m p = (r, d', evs) -> forall m', m' <> m -> d' m' = d m'.
Proof.
  destruct p as [e|batches]; cbn [exec_plan]; intros Hrun.
  - by inversion Hrun.
  - intros m' Hne. by eapply insert_all_others.
Qed.

Lemma exec_plan_ok (m : Model) (p : Plan) (d : DB) d' evs :
  exec_plan env d m p = (None, d', evs) ->
  exists batches,
    p = inr batches /\ d' m = d m ++ concat batches /\ evs = fulfilled m batches.
Proof.
  destruct p as [e|batches]; cbn [exec_plan]; intros Hrun; [by inversion Hrun|].
  exists batches. split; [done|]. by apply insert_all_ok.
Qed.

Lemma exec_plan_inserts (m : Model) (p : Plan) (d : DB) r d' evs :
  exec_plan env d m p = (r, d', evs) ->
  Forall (fun ev => exists rows result, ev = EvInsert m rows result) evs.
Proof.
  destruct p as [e|batches]; cbn [exec_plan]; intros Hrun.
  - inversion Hrun. constructor.
  - by apply insert_all_inserts in Hrun.
Qed.

Lemma exec_plans_inserts (ps : list (Model * Plan)) :
  forall d r d' evs,
    exec_plans env ps d = (r, d', evs) -> Forall (fun ev => is_insert ev = true) evs.
Proof.
  induction ps as [|[m p] ps IH]; intros d r d' evs Hrun.
  - inversion Hrun. constructor.
  - rewrite exec_plans_cons in Hrun. unfold and_then in Hrun.
    destruct (exec_plan env d m p) as [[r1 d1] evs1] eqn:Hfirst.
    assert (Forall (fun ev => is_insert ev = true) evs1) as Hevs1.
    { eapply Forall_impl; [by eapply exec_plan_inserts|].
      by intros ev (rows & result & ->). }
    destruct r1 as [e|].
    + by inversion Hrun; subst.
    + destruct (exec_plans env ps d1) as [[r2 d2] evs2] eqn:Hrest.
      inversion Hrun; subst. apply Forall_app. split; [done|]. by eapply IH.
Qed.

(** Where a call for [E] appears in the log of a sequence of plans, the
    plans listed before [E]'s have all been carried out in full, by calls
    that come earlier in the log. *)
Lemma exec_plans_blocks (ps : list (Model * Plan)) :
  forall d r d' evs,
    exec_plans env ps d = (r, d', evs) ->
    forall i E rows result,
      evs !! i = Some (EvInsert E rows result) ->
      exists n p,
        ps !! n = Some (E, p)
        /\ forall k D pD,
             k < n -> ps !! k = Some (D, pD) ->
             exists batches j,
               pD = inr batches
               /\ j + length batches <= i
               /\ take (length batches) (drop j evs) = fulfilled D batches.
Proof.
  induction ps as [|[m p] ps IH]; intros d r d' evs Hrun i E rows result Hi.
  - inversion Hrun; subst. by rewrite lookup_nil in Hi.
  - rewrite exec_plans_cons in Hrun. unfold and_then in Hrun.
    destruct (exec_plan env d m p) as [[r1 d1] evs1] eqn:Hfirst.
    pose proof (exec_plan_inserts _ _ _ _ _ _ Hfirst) as Hmine.
    assert (forall i', evs1 !! i' = Some (EvInsert E rows result) ->
            exists n p0, ((m, p) :: ps) !! n = Some (E, p0)
              /\ forall k D pD, k < n -> ((m, p) :: ps) !! k = Some (D, pD) ->
                   exists batches j, pD = inr batches /\ j + length batches <= i
                     /\ take (length batches) (drop j evs) = fulfilled D batches)
      as Hin_first.
    { intros i' Hi'. apply list_elem_of_lookup_2 in Hi'.
      rewrite Forall_forall in Hmine.
      destruct (Hmine _ Hi') as (rows' & result' & Heq). inversion Heq; subst.
      exists 0, p. split; [done|]. intros k D pD Hk. lia. }
    destruct r1 as [e|].
    + inversion Hrun; subst. by eapply Hin_first.
    + destruct (exec_plans env ps d1) as [[r2 d2] evs2] eqn:Hrest.
      inversion Hrun; subst.
      destruct (exec_plan_ok _ _ _ _ _ Hfirst) as (batches & -> & _ & Hevs1).
      destruct (decide (i < length evs1)) as [Hlt|Hge].
      * rewrite lookup_app_l in Hi by done. by eapply Hin_first.
      * rewrite lookup_app_r in Hi by lia.
        destruct (IH _ _ _ _ Hrest _ _ _ _ Hi) as (n & p0 & Hn & Hbefore).
        exists (S n), p0. split; [done|].
        intros [|k] D pD Hk HD.
        -- cbn in HD. injection HD as <- <-. exists batches, 0.
           assert (length batches = length evs1) as Hlen.
           { rewrite Hevs1. unfold fulfilled. by rewrite List.length_map. }
           split; [done|]. split; [lia|].
           by rewrite drop_0, Hlen, take_app_length.
        -- destruct (Hbefore k D pD ltac:(lia) HD) as (bs & j & -> & Hj & Hblock).
           exists bs, (length evs1 + j). split; [done|]. split; [lia|].
           by rewrite drop_app_add.
Qed.

End Plans.

(** ** The runner, in closed form *)

Section Runner.

Variable env : Env.

Lemma respects_dependencies_sound (order : list Model) :
  forall seen,
    respects_dependencies seen order = true ->
    forall n E, order !! n = Some E ->
    forall D, D ∈ dependsOn E ->
      D ∈ seen \/ exists k, k < n /\ order !! k = Some D.
Proof.
  induction order as [|E0 order IH]; intros seen Hok n E Hn D HD.
  - by rewrite lookup_nil in Hn.
  - cbn [respects_dependencies] in Hok. apply andb_prop in Hok as [Hhere Hrest].
    destruct n as [|n].
    + cbn in Hn. injection Hn as ->. left.
      rewrite forallb_forall in Hhere.
      apply list_elem_of_In in HD. apply Hhere in HD. by apply bool_decide_eq_true in HD.
    + cbn in Hn. destruct (IH _ Hrest n E Hn D HD) as [Hseen|(k & Hk & HkD)].
      * apply elem_of_cons in Hseen as [->|Hseen].
        -- right. exists 0. split; [lia|done].
        -- by left.
      * right. exists (S k). split; [lia|done].
Qed.

(** Everything an entity references is seeded by an earlier call of
    [runSeeders]. *)
Lemma seed_order_respects_dependencies (n : nat) (E D : Model) :
  seed_order env !! n = Some E -> D ∈ dependsOn E ->
  exists k, k < n /\ seed_order env !! k = Some D.
Proof.
  intros Hn HD.
  destruct (respects_dependencies_sound (seed_order env) [] eq_refl n E Hn D HD)
    as [Hnil|Hk]; [|done].
  by apply elem_of_nil in Hnil.
Qed.

Lemma plans_lookup (n : nat) (m : Model) (p : Plan) :
  plans env !! n = Some (m, p) -> seed_order env !! n = Some m /\ p = plan_of env m.
Proof.
  unfold plans. rewrite list_lookup_fmap.
  destruct (seed_order env !! n) as [m'|]; cbn; [|done].
  intros Heq. by injection Heq as -> ->.
Qed.

Lemma plans_lookup_order (n : nat) (m : Model) :
  seed_order env !! n = Some m -> plans env !! n = Some (m, plan_of env m).
Proof. intros Hn. unfold plans. by rewrite list_lookup_fmap, Hn. Qed.

(** The calls of the runner: the schema reset, then the calls of the
    plans. *)
Lemma runSeeders_summary (d : DB) :
  summary (runSeeders env d)
  = match sync_check env Force d with
    | Some e => (Some e, d, [EvSync Force (Some e)])
    | None =>
        let '(r, d', evs) := exec_plans env (plans env) empty_db in
        (r, d', EvSync Force None :: evs)
    end.
Proof.
  rewrite summary_runSeeders. unfold summary at 1, sequelize_sync.
  destruct (sync_check env Force d); reflexivity.
Qed.

End Runner.

Section Database.

Variable env : Env.

Lemma exec_plans_app (ps1 ps2 : list (Model * Plan)) (d : DB) :
  exec_plans env (ps1 ++ ps2) d = and_then (exec_plans env ps1 d) (exec_plans env ps2).
Proof.
  revert d. induction ps1 as [|[m p] ps1 IH]; intros d.
  - cbn. destruct (exec_plans env ps2 d) as [[r d2] evs]. reflexivity.
  - cbn [app]. rewrite !exec_plans_cons, and_then_assoc.
    apply and_then_ext. intros d1. apply IH.
Qed.

(** After a sequence of plans that all went through, each table holds what
    it held before followed by the batches of its plan. *)
Lemma exec_plans_ok_db (ps : list (Model * Plan)) :
  forall d d' evs,
    exec_plans env ps d = (None, d', evs) ->
    NoDup (List.map fst ps) ->
    (forall m p, (m, p) ∈ ps ->
       exists batches, p = inr batches /\ d' m = d m ++ concat batches)
    /\ (forall m, m ∉ List.map fst ps -> d' m = d m).
Proof.
  induction ps as [|[m0 p0] ps IH]; intros d d' evs Hrun Hnodup.
  - inversion Hrun; subst. split; [|done]. intros m p Hin. by apply elem_of_nil in Hin.
  - rewrite exec_plans_cons in Hrun. unfold and_then in Hrun.
    destruct (exec_plan env d m0 p0) as [[[e|] d1] evs1] eqn:Hfirst; [by inversion Hrun|].
    destruct (exec_plans env ps d1) as [[r2 d2] evs2] eqn:Hrest.
    inversion Hrun; subst.
    cbn [List.map fst] in Hnodup. apply NoDup_cons in Hnodup as [Hfresh Hnodup].
    destruct (IH _ _ _ Hrest Hnodup) as [Hin Hout].
    destruct (exec_plan_ok env _ _ _ _ _ Hfirst) as (batches & -> & Hdb & _).
    pose proof (exec_plan_others env _ _ _ _ _ _ Hfirst) as Hsame.
    split.
    + intros m p Hmp. apply elem_of_cons in Hmp as [Heq|Hmp].
      * injection Heq as -> ->. exists batches. split; [done|].
        by rewrite (Hout _ Hfresh).
      * destruct (Hin _ _ Hmp) as (bs & -> & Hm). exists bs. split; [done|].
        rewrite Hm, Hsame; [done|]. intros ->. apply Hfresh.
        apply list_elem_of_fmap. by exists (m0, inr bs).
    + intros m Hm. cbn [List.map fst] in Hm. apply not_elem_of_cons in Hm as [Hne Hm].
      by rewrite (Hout _ Hm), Hsame.
Qed.

Lemma seed_order_NoDup : NoDup (seed_order env).
Proof. refine (bool_decide_unpack _ _). by vm_compute. Qed.

Lemma plans_fst : List.map fst (plans env) = seed_order env.
Proof. reflexivity. Qed.


Lemma error_of_Rejected (r : Run unit) (e : Err) :
  error_of (outcome r) = Some e -> outcome r = Rejected e.
Proof. destruct (outcome r); cbn; congruence. Qed.

Lemma error_of_Resolved (r : Run unit) :
  error_of (outcome r) = None -> outcome r = Resolved tt.
Proof. destruct (outcome r) as [[]|]; cbn; congruence. Qed.

(** The seeders before position [k], run in order, follow the plans
    before position [k]. *)
Lemma summary_run_prefix (k : nat) (d : DB) :
  summary (run_in_order (take k (List.map snd (seeders env))) d)
  = exec_plans env (take k (plans env)) d.
Proof.
  unfold run_in_order.
  replace (take k (List.map snd (seeders env)))
    with (List.map snd (take k (seeders env))) by apply (fmap_take snd).
  rewrite (summary_run_then env (plan_of env) (take k (seeders env)) (mret tt)).
  - replace (List.map (fun mt => (mt.1, plan_of env mt.1)) (take k (seeders env)))
      with (take k (plans env)).
    + apply and_then_done.
    + unfold plans, seed_order. rewrite List.map_map. symmetry. apply (fmap_take _).
  - apply Forall_take, seeders_follow_plans.
Qed.

End Database.

(** C1. In every run of [runSeeders], a call that inserts records of an
    entity [E] is only made once every entity [D] that [E] references
    (accesses: roles; users: accesses and genders; products: categories;
    orders: users, payment methods, banks and order statuses; addresses:
    cities, departments, countries and users; order details: orders and
    products) is complete: all the batches of [D] were inserted, each
    fulfilled, by earlier calls. *)
Theorem inserts_wait_for_dependencies (env : Env) (d : DB) (i : nat)
    (E : Model) (rows : list obj) (result : option Err) :
  calls (runSeeders env d) !! i = Some (EvInsert E rows result) ->
  forall D, D ∈ dependsOn E ->
    completed_before env D i (calls (runSeeders env d)).
Proof.
  intros Hi D HD.
  pose proof (runSeeders_summary env d) as Hsum.
  destruct (sync_check env Force d) as [e|].
  { apply (f_equal snd) in Hsum. cbn in Hsum. rewrite Hsum in Hi.
    destruct i as [|i]; [discriminate|]. by rewrite lookup_cons, lookup_nil in Hi. }
  destruct (exec_plans env (plans env) empty_db) as [[r d'] evs] eqn:Hrun.
  apply (f_equal snd) in Hsum. cbn in Hsum. rewrite Hsum in Hi |- *.
  destruct i as [|i]; [discriminate|]. cbn in Hi.
  destruct (exec_plans_blocks env _ _ _ _ _ Hrun _ _ _ _ Hi) as (n & p & Hn & Hbefore).
  apply plans_lookup in Hn as [Hn _].
  destruct (seed_order_respects_dependencies env n E D Hn HD) as (k & Hk & HkD).
  destruct (Hbefore k D _ Hk (plans_lookup_order env _ _ HkD))
    as (batches & j & Hplan & Hj & Hblock).
  exists batches, (S j). split; [done|]. split; [lia|done].
Qed.

(** C8. In every run of [runSeeders] the schema reset
    [sequelize.sync({ force: true })] is the first ORM call and the only
    synchronisation; every other call is an insert, and there is none
    unless the reset was fulfilled. *)
Theorem schema_reset_once_before_inserts (env : Env) (d : DB) :
  exists result rest,
    calls (runSeeders env d) = EvSync Force result :: rest
    /\ Forall (fun ev => is_insert ev = true) rest
    /\ length (List.filter is_sync (calls (runSeeders env d))) = 1
    /\ (result <> None -> rest = []).
Proof.
  pose proof (runSeeders_summary env d) as Hsum.
  apply (f_equal snd) in Hsum. cbn [snd summary] in Hsum.
  destruct (sync_check env Force d) as [e|].
  - exists (Some e), []. rewrite Hsum. repeat split; constructor.
  - destruct (exec_plans env (plans env) empty_db) as [[r d'] evs] eqn:Hrun.
    cbn in Hsum. exists None, evs. rewrite Hsum.
    pose proof (exec_plans_inserts env _ _ _ _ _ Hrun) as Hins.
    split; [done|]. split; [done|]. split; [|done].
    cbn. f_equal. clear -Hins. induction Hins as [|ev evs Hev _ IH]; [done|].
    cbn. unfold is_sync at 1. by rewrite Hev.
Qed.


(** ** Runs that add to what is there *)

Section Additive.

Variable env : Env.

Lemma exec_plan_extends (m : Model) (p : Plan) (d : DB) r d' evs :
  exec_plan env d m p = (r, d', evs) ->
  forall m', exists added, d' m' = d m' ++ added.
Proof.
  intros Hrun m'. destruct (decide (m' = m)) as [->|Hne].
  - destruct p as [e|batches]; cbn [exec_plan] in Hrun.
    + injection Hrun as _ <- _. exists []. by rewrite app_nil_r.
    + destruct r as [e|].
      * destruct (insert_all_failed env _ _ _ _ _ _ Hrun) as (n & rows & _ & Hdb & _).
        eauto.
      * destruct (insert_all_ok env _ _ _ _ _ Hrun) as [Hdb _]. eauto.
  - exists []. rewrite app_nil_r. by eapply exec_plan_others.
Qed.

Lemma exec_plans_extends (ps : list (Model * Plan)) :
  forall d r d' evs,
    exec_plans env ps d = (r, d', evs) ->
    forall m, exists added, d' m = d m ++ added.
Proof.
  induction ps as [|[m0 p0] ps IH]; intros d r d' evs Hrun m.
  - injection Hrun as _ <- _. exists []. by rewrite app_nil_r.
  - rewrite exec_plans_cons in Hrun. unfold and_then in Hrun.
    destruct (exec_plan env d m0 p0) as [[r1 d1] evs1] eqn:Hfirst.
    destruct (exec_plan_extends _ _ _ _ _ _ Hfirst m) as [added1 Hadded1].
    destruct r1 as [e|].
    + injection Hrun as _ <- _. eauto.
    + destruct (exec_plans env ps d1) as [[r2 d2] evs2] eqn:Hrest.
      injection Hrun as _ <- _.
      destruct (IH _ _ _ _ Hrest m) as [added2 Hadded2].
      exists (added1 ++ added2). by rewrite Hadded2, Hadded1, app_assoc.
Qed.


Lemma runCompleteSeeder_summary (d : DB) :
  summary (CompleteSeeder.runCompleteSeeder env d)
  = match sync_check env Alter d with
    | Some e => (Some e, d, [EvSync Alter (Some e)])
    | None =>
        let '(r, d', evs) := exec_plans env (complete_plans env) d in
        (r, d', EvSync Alter None :: evs)
    end.
Proof.
  rewrite summary_runCompleteSeeder. unfold summary at 1, sequelize_sync.
  destruct (sync_check env Alter d); reflexivity.
Qed.

Lemma complete_plans_NoDup : NoDup (List.map fst (complete_plans env)).
Proof. refine (bool_decide_unpack _ _). by vm_compute. Qed.


End Additive.

(** C9. [runCompleteSeeder] synchronises the schema once, with
    [{ alter: true }], and otherwise only inserts: whatever the outcome,
    every table still starts with the rows it held before the run, in the
    same order, and anything else in it was added after them. *)
Theorem complete_seeder_keeps_existing_rows (env : Env) (d : DB) :
  (exists result inserts,
      calls (CompleteSeeder.runCompleteSeeder env d) = EvSync Alter result :: inserts
      /\ Forall (fun ev => is_insert ev = true) inserts)
  /\ forall m, exists added,
       db (CompleteSeeder.runCompleteSeeder env d) m = d m ++ added.
Proof.
  pose proof (runCompleteSeeder_summary env d) as Hsum.
  destruct (sync_check env Alter d) as [e|].
  - injection Hsum as _ Hdb Hcalls. split.
    + exists (Some e), []. split; [done|constructor].
    + intros m. exists []. by rewrite Hdb, app_nil_r.
  - destruct (exec_plans env (complete_plans env) d) as [[r d'] evs] eqn:Hrun.
    injection Hsum as _ Hdb Hcalls. split.
    + exists None, evs. split; [done|]. by eapply exec_plans_inserts.
    + intros m. rewrite Hdb. by eapply exec_plans_extends.
Qed.


(** ** The console and the exit code *)

Lemma bind_resolved {A B : Type} (first : Task A) (next : A -> Task B) (d : DB) (b : B) :
  outcome ((a ← first; next a) d) = Resolved b ->
  exists a,
    outcome (first d) = Resolved a
    /\ outcome (next a (db (first d))) = Resolved b
    /\ console ((a ← first; next a) d)
       = console (first d) ++ console (next a (db (first d))).
Proof.
  unfold mbind, Task_bind. destruct (outcome (first d)) as [a|e]; cbn; [|done].
  intros Hnext. by exists a.
Qed.

Lemma rethrow_resolved (body : Task unit) (text : string) (d : DB) :
  outcome (try_catch body (fun error => console_log (LogError text error);; throw error) d)
  = Resolved tt ->
  outcome (body d) = Resolved tt
  /\ console (try_catch body
                (fun error => console_log (LogError text error);; throw error) d)
     = console (body d).
Proof.
  unfold try_catch. destruct (outcome (body d)) as [[]|e] eqn:Hbody; cbn; [|done].
  by rewrite Hbody.
Qed.

Lemma then_log_resolved (first : Task unit) (msg : Msg) (d : DB) :
  outcome ((first;; console_log msg) d) = Resolved tt ->
  msg ∈ console ((first;; console_log msg) d).
Proof.
  intros Hout. apply bind_resolved in Hout as (a & _ & _ & ->).
  apply elem_of_app. right. cbn. apply list_elem_of_here.
Qed.

Lemma run_then_resolved (tasks : list (Task unit)) (rest : Task unit) :
  forall d,
    outcome (run_then tasks rest d) = Resolved tt ->
    forall i task, tasks !! i = Some task ->
      exists d',
        outcome (task d') = Resolved tt
        /\ forall msg, msg ∈ console (task d') -> msg ∈ console (run_then tasks rest d).
Proof.
  induction tasks as [|first tasks IH]; intros d Hout i task Hi.
  - by rewrite lookup_nil in Hi.
  - cbn [run_then fold_right] in Hout |- *.
    apply bind_resolved in Hout as ([] & Hfirst & Hnext & ->).
    destruct i as [|i].
    + cbn in Hi. injection Hi as <-. exists d. split; [done|].
      intros msg Hmsg. apply elem_of_app. by left.
    + cbn in Hi. destruct (IH _ Hnext i task Hi) as (d' & Htask & Hsub).
      exists d'. split; [done|]. intros msg Hmsg. apply elem_of_app. right. by apply Hsub.
Qed.

Section Console.

Variable env : Env.

Lemma stream_seeder_success (csvPath : string) (onData : obj -> obj) (m : Model)
    (shape : obj -> obj) (what : string) (d : DB) :
  outcome (from_csv_stream env csvPath onData
             (fun items =>
                for_of items (fun x => create env m (shape x));;
                console_log (LogCount (length items) what)) d) = Resolved tt ->
  exists batches,
    stream_plan env csvPath (fun row => shape (onData row)) = inr batches
    /\ LogCount (length batches) what
       ∈ console (from_csv_stream env csvPath onData
                    (fun items =>
                       for_of items (fun x => create env m (shape x));;
                       console_log (LogCount (length items) what)) d).
Proof.
  unfold from_csv_stream, stream_plan.
  destruct (csv_stream env csvPath) as [e|rows]; [done|].
  intros Hout. eexists. split; [reflexivity|].
  apply then_log_resolved in Hout.
  unfold singletons. by rewrite !List.length_map in *.
Qed.

Lemma seedAddresses_success (d : DB) :
  outcome (seedAddresses env d) = Resolved tt ->
  Log "Addresses seeded successfully" ∈ console (seedAddresses env d).
Proof.
  unfold seedAddresses. intros Hout.
  apply rethrow_resolved in Hout as [Hout ->].
  apply bind_resolved in Hout as ([] & _ & Hout & ->). apply elem_of_app. right.
  apply bind_resolved in Hout as (csvData & _ & Hout & ->). apply elem_of_app. right.
  apply bind_resolved in Hout as (addresses & _ & Hout & ->). apply elem_of_app. right.
  by apply then_log_resolved.
Qed.

Lemma seedOrderDetails_success (d : DB) :
  outcome (seedOrderDetails env d) = Resolved tt ->
  Log "Order details seeded successfully" ∈ console (seedOrderDetails env d).
Proof.
  unfold seedOrderDetails. intros Hout.
  apply rethrow_resolved in Hout as [Hout ->].
  apply bind_resolved in Hout as ([] & _ & Hout & ->). apply elem_of_app. right.
  apply bind_resolved in Hout as (csvData & _ & Hout & ->). apply elem_of_app. right.
  apply bind_resolved in Hout as (orderDetails & _ & Hout & ->). apply elem_of_app. right.
  by apply then_log_resolved.
Qed.

Lemma seedOrders_success (d : DB) :
  outcome (seedOrders env d) = Resolved tt ->
  LogCount 1 "orders created" ∈ console (seedOrders env d).
Proof. apply then_log_resolved. Qed.

(** A seeder that resolves has written its success line. *)
Lemma seeders_write_success_line :
  Forall (fun '(m, task) =>
            forall d, outcome (task d) = Resolved tt ->
                      exists msg, success_line env m = Some msg /\ msg ∈ console (task d))
         (seeders env).
Proof.
  assert (forall m what batches (msgs : list Msg),
             plan_of env m = inr batches ->
             count_label m = Some what ->
             LogCount (length batches) what ∈ msgs ->
             exists msg, success_line env m = Some msg /\ msg ∈ msgs) as Hcounted.
  { intros m what batches msgs Hplan Hlabel Hmsg. exists (LogCount (length batches) what).
    split; [|done]. unfold success_line.
    destruct m; try discriminate; rewrite Hplan; by injection Hlabel as <-. }
  unfold seeders.
  repeat (apply Forall_cons; split;
    [ intros d Hout;
      first
        [ exists (LogCount 1 "orders created"); split;
          [reflexivity | by apply seedOrders_success]
        | exists (Log "Addresses seeded successfully"); split;
          [reflexivity | by apply seedAddresses_success]
        | exists (Log "Order details seeded successfully"); split;
          [reflexivity | by apply seedOrderDetails_success]
        | destruct (stream_seeder_success _ _ _ (fun x => x) _ _ Hout)
            as (batches & Hplan & Hmsg);
          match goal with
          | |- exists msg, success_line env ?m = _ /\ _ =>
              exact (Hcounted m _ batches _ Hplan eq_refl Hmsg)
          end
        | destruct (stream_seeder_success _ _ _ _ _ _ Hout) as (batches & Hplan & Hmsg);
          match goal with
          | |- exists msg, success_line env ?m = _ /\ _ =>
              exact (Hcounted m _ batches _ Hplan eq_refl Hmsg)
          end ]
    | ]).
  constructor.
Qed.

End Console.

Section Abort.

Variable env : Env.

(** A failing plan ends the sequence: the plans after it add nothing. *)
Lemma exec_plans_stops (ps : list (Model * Plan)) (n : nat) (d : DB) e d' evs :
  exec_plans env (take n ps) d = (Some e, d', evs) ->
  exec_plans env ps d = (Some e, d', evs).
Proof.
  intros Hrun. rewrite <- (take_drop n ps) at 1. by rewrite exec_plans_app, Hrun.
Qed.

Lemma fails_at_exec (k : nat) (e : Err) :
  fails_at env k e ->
  exists d' evs,
    exec_plans env (take (S k) (plans env)) empty_db = (Some e, d', evs)
    /\ exec_plans env (plans env) empty_db = (Some e, d', evs).
Proof.
  intros (task & Htask & Hbefore & Hfail).
  set (before := run_in_order (take k (List.map snd (seeders env))) empty_db) in *.
  rewrite list_lookup_fmap in Htask.
  destruct (seeders env !! k) as [[E task']|] eqn:Hk; [|done].
  cbn in Htask. injection Htask as ->.
  assert (plans env !! k = Some (E, plan_of env E)) as Hplan.
  { apply plans_lookup_order. unfold seed_order. by rewrite list_lookup_fmap, Hk. }
  pose proof (Forall_lookup_1 _ _ _ _ (seeders_follow_plans env) Hk) as Hfollows.
  cbn beta iota in Hfollows.
  pose proof (summary_run_prefix env k empty_db) as Hpre.
  fold before in Hpre. unfold summary in Hpre. rewrite Hbefore in Hpre.
  cbn [error_of] in Hpre. symmetry in Hpre.
  pose proof (Hfollows (db before)) as Hmine.
  unfold summary in Hmine. rewrite Hfail in Hmine. cbn [error_of] in Hmine.
  symmetry in Hmine.
  assert (exec_plans env (take (S k) (plans env)) empty_db
          = (Some e, db (task (db before)), calls before ++ calls (task (db before))))
    as Hupto.
  { rewrite (take_S_r _ _ _ Hplan), exec_plans_app, Hpre. cbn [and_then].
    by rewrite exec_plans_cons, Hmine. }
  eexists _, _. split; [exact Hupto|]. by eapply exec_plans_stops.
Qed.

Lemma standalone_exit_code (run : Task unit) (text : string) (d : DB) :
  fst (standalone run text d)
  = match outcome (run d) with Resolved _ => 0%Z | Rejected _ => 1%Z end.
Proof. unfold standalone. by destruct (outcome (run d)). Qed.

End Abort.

(** C3, as the code has it. Once the schema is reset: if a seeder rejects,
    [runSeeders] rejects with the very same error, the ORM calls and the
    database are those reached when that seeder rejected (no later seeder
    runs), and the standalone script exits with code 1; if every seeder
    resolves, [runSeeders] resolves, the script exits with code 0, and each
    entity has written its success line, which carries the number of its
    records for the thirteen seeders from roles to orders and is a fixed
    text for addresses and order details. *)
Theorem first_rejection_aborts_the_run (env : Env) (d : DB) :
  sync_check env Force d = None ->
  (forall k e,
      fails_at env k e ->
      outcome (runSeeders env d) = Rejected e
      /\ calls (runSeeders env d)
         = EvSync Force None
             :: calls (run_in_order (take (S k) (List.map snd (seeders env))) empty_db)
      /\ db (runSeeders env d)
         = db (run_in_order (take (S k) (List.map snd (seeders env))) empty_db)
      /\ fst (runSeeders_main env d) = 1%Z)
  /\ (outcome (run_in_order (List.map snd (seeders env)) empty_db) = Resolved tt ->
      outcome (runSeeders env d) = Resolved tt
      /\ fst (runSeeders_main env d) = 0%Z
      /\ forall m, m ∈ seed_order env ->
           exists msg, success_line env m = Some msg
                       /\ msg ∈ console (runSeeders env d)).
Proof.
  intros Hsync. split.
  - intros k e Hfails.
    destruct (fails_at_exec env k e Hfails) as (d' & evs & Hupto & Hall).
    pose proof (runSeeders_summary env d) as Hsum. rewrite Hsync, Hall in Hsum.
    pose proof (summary_run_prefix env (S k) empty_db) as Hpre. rewrite Hupto in Hpre.
    apply summary_eq in Hsum as (Herr & Hdb & Hcalls).
    apply summary_eq in Hpre as (_ & Hdb' & Hcalls').
    apply error_of_Rejected in Herr.
    split; [done|]. split; [by rewrite Hcalls, Hcalls'|]. split; [by rewrite Hdb, Hdb'|].
    unfold runSeeders_main. by rewrite standalone_exit_code, Herr.
  - intros Hall.
    assert (outcome (runSeeders env d) = Resolved tt) as Hout.
    { pose proof (summary_run_prefix env (length (seeders env)) empty_db) as Hpre.
      rewrite !take_ge in Hpre
        by (unfold plans, seed_order; rewrite ?List.length_map; done).
      unfold summary at 1 in Hpre. rewrite Hall in Hpre. cbn [error_of] in Hpre.
      pose proof (runSeeders_summary env d) as Hsum. rewrite Hsync, <- Hpre in Hsum.
      apply summary_eq in Hsum as (Herr & _ & _). by apply error_of_Resolved. }
    split; [done|]. split.
    { unfold runSeeders_main. by rewrite standalone_exit_code, Hout. }
    intros m Hm. unfold seed_order in Hm.
    apply list_elem_of_fmap in Hm as ([m' task] & -> & Hm).
    apply list_elem_of_lookup in Hm as [i Hi].
    pose proof (Forall_lookup_1 _ _ _ _ (seeders_write_success_line env) Hi) as Hline.
    cbn beta iota in Hline.
    unfold runSeeders in Hout |- *.
    apply rethrow_resolved in Hout as [Hout ->].
    apply bind_resolved in Hout as ([] & _ & Hout & ->).
    apply bind_resolved in Hout as ([] & _ & Hout & ->).
    apply bind_resolved in Hout as ([] & _ & Hout & ->).
    change (outcome (run_then (List.map snd (seeders env))
                       (console_log (Log "Seeders completed successfully"))
                       (db (sequelize_sync env Force
                              (db (console_log (Log "Starting seeders...") d)))))
            = Resolved tt) in Hout.
    destruct (run_then_resolved _ _ _ Hout i task) as (d1 & Htask & Hsub).
    { by rewrite list_lookup_fmap, Hi. }
    destruct (Hline d1 Htask) as (msg & Hmsg & Hin).
    exists msg. split; [done|].
    apply elem_of_app. right. apply elem_of_app. right. apply elem_of_app. right.
    by apply Hsub.
Qed.

(** ** Records built from a line *)

Lemma split_not_nil (sep : ascii) (s : string) : split sep s <> [].
Proof.
  destruct s as [|c s]; cbn; [done|].
  destruct (Ascii.eqb c sep); [done|]. by destruct (split sep s).
Qed.

Lemma first_line_cells_total (text : string) :
  first_line_cells (split newline (trim text)) = inr (field_names text).
Proof.
  unfold first_line_cells, field_names.
  pose proof (split_not_nil newline (trim text)) as Hne.
  by destruct (split newline (trim text)).
Qed.

Lemma drop_1_tail {A : Type} (l : list A) : drop 1 l = tail l.
Proof. by destruct l. Qed.

(** What a [forEach] over the header leaves under a property name: the
    value given by the last header stored under that name. *)
Lemma forEach_set_lookup (key : string -> string) (val : string -> nat -> value)
    (name : string) (names : list string) :
  forall index record,
    forEach_from (fun rec header i => set rec (key header) (val header i))
                 names index record !! name
    = if String.eqb name "__proto__" then record !! name
      else match last_where (fun header => String.eqb (key header) name) names index with
           | Some (i, header) => Some (val header i)
           | None => record !! name
           end.
Proof.
  induction names as [|header names IH]; intros index record.
  - cbn. by destruct (String.eqb name "__proto__").
  - cbn [forEach_from last_where]. rewrite IH.
    destruct (String.eqb name "__proto__") eqn:Hproto.
    + unfold set. destruct (String.eqb (key header) "__proto__") eqn:Hkey; [done|].
      apply String.eqb_eq in Hproto as ->. apply String.eqb_neq in Hkey.
      by rewrite lookup_insert_ne.
    + destruct (last_where _ names (S index)) as [[i h]|]; [done|].
      unfold set. destruct (String.eqb (key header) name) eqn:Hname.
      * apply String.eqb_eq in Hname as <-. rewrite Hproto. by rewrite lookup_insert_eq.
      * apply String.eqb_neq in Hname.
        destruct (String.eqb (key header) "__proto__"); [done|].
        by rewrite lookup_insert_ne.
Qed.

Lemma last_where_None (p : string -> bool) (names : list string) :
  forall index,
    last_where p names index = None <-> forall name, name ∈ names -> p name = false.
Proof.
  induction names as [|header names IH]; intros index.
  - split; [|done]. intros _ name Hin. by apply elem_of_nil in Hin.
  - cbn [last_where]. split.
    + destruct (last_where p names (S index)) eqn:Hrest; [done|].
      destruct (p header) eqn:Hp; [done|]. intros _ name Hin.
      apply elem_of_cons in Hin as [->|Hin]; [done|]. by eapply IH.
    + intros Hall. assert (last_where p names (S index) = None) as ->.
      { apply IH. intros name Hin. apply Hall. by apply list_elem_of_further. }
      by rewrite Hall by apply list_elem_of_here.
Qed.

Lemma last_where_Some (p : string -> bool) (names : list string) :
  forall index i header,
    last_where p names index = Some (i, header) ->
    index <= i /\ names !! (i - index) = Some header /\ p header = true
    /\ forall i' h, i - index < i' -> names !! i' = Some h -> p h = false.
Proof.
  induction names as [|h0 names IH]; intros index i header Hlast; [done|].
  cbn [last_where] in Hlast.
  destruct (last_where p names (S index)) as [[i1 h1]|] eqn:Hrest.
  - injection Hlast as -> ->. destruct (IH _ _ _ Hrest) as (Hle & Hi & Hp & Hlater).
    split; [lia|]. replace (i - index) with (S (i - S index)) by lia.
    split; [done|]. split; [done|].
    intros [|i'] h Hlt Hh; [lia|]. cbn in Hh. apply (Hlater i'); [lia|done].
  - destruct (p h0) eqn:Hp; [|done]. injection Hlast as <- <-.
    split; [lia|]. rewrite Nat.sub_diag. split; [done|]. split; [done|].
    intros [|i'] h Hlt Hh; [lia|]. cbn in Hh.
    apply (proj1 (last_where_None p names (S index)) Hrest). by eapply list_elem_of_lookup_2.
Qed.

(** Where the last matching header is known, [last_where] finds it. *)
Lemma last_where_at (p : string -> bool) (names : list string) (i : nat) (header : string) :
  names !! i = Some header -> p header = true ->
  (forall i' h, i < i' -> names !! i' = Some h -> p h = false) ->
  last_where p names 0 = Some (i, header).
Proof.
  intros Hi Hp Hlater.
  destruct (last_where p names 0) as [[i1 h1]|] eqn:Hlast.
  - destruct (last_where_Some _ _ _ _ _ Hlast) as (_ & Hi1 & Hp1 & Hlater1).
    rewrite Nat.sub_0_r in Hi1, Hlater1.
    destruct (Nat.lt_trichotomy i i1) as [Hlt|[->|Hgt]].
    + rewrite (Hlater _ _ Hlt Hi1) in Hp1. done.
    + rewrite Hi in Hi1. by injection Hi1 as ->.
    + rewrite (Hlater1 _ _ Hgt Hi) in Hp. done.
  - rewrite (proj1 (last_where_None p names 0) Hlast header) in Hp; [done|].
    by eapply list_elem_of_lookup_2.
Qed.

Lemma record_of_line_lookup (names : list string) (line name : string) :
  FinalSeeder.record_of_line names line !! name
  = if String.eqb name "__proto__" then None
    else at_index (split comma line) <$> last_position name names.
Proof.
  unfold FinalSeeder.record_of_line, forEach, last_position.
  rewrite (forEach_set_lookup (fun header => header)
             (fun _ i => at_index (split comma line) i)).
  rewrite lookup_empty.
  destruct (String.eqb name "__proto__"); [done|].
  by destruct (last_where _ names 0) as [[i h]|].
Qed.

Lemma NoDup_later_differs (names : list string) (i i' : nat) (name h : string) :
  NoDup names -> names !! i = Some name -> i < i' -> names !! i' = Some h ->
  String.eqb h name = false.
Proof.
  intros Hnodup Hi Hlt Hi'. apply String.eqb_neq. intros ->.
  assert (i = i') by (by eapply NoDup_lookup). lia.
Qed.

(** C6, as the code has it. For every CSV text the parse of [seedFromCSV]
    returns without raising, with one record per line after the first of
    the trimmed text; a record maps each field name of the comma-split
    first line to the comma-split value of its line at the position where
    that name occurs last ([undefined] when the line is too short), and
    stores nothing under other names nor under [__proto__]; so it maps the
    i-th field name to the i-th value whenever the field names are
    distinct and none is [__proto__]. A transform is applied to each such
    record. *)
Theorem parse_records_reads_each_line (text : string) :
  exists records,
    FinalSeeder.parse_records None text = inr records
    /\ (forall f, FinalSeeder.parse_records (Some f) text = inr (List.map f records))
    /\ (forall env model filename d,
          readFileSync env ("src/docs/data/" +:+ filename) = inr text ->
          exists result,
            calls (FinalSeeder.seedFromCSV env model filename None d)
            = [EvInsert model records result])
    /\ length records = length (data_lines text)
    /\ forall j line record,
         data_lines text !! j = Some line ->
         records !! j = Some record ->
         (forall name,
             record !! name
             = if String.eqb name "__proto__" then None
               else at_index (split comma line) <$> last_position name (field_names text))
         /\ (NoDup (field_names text) ->
             "__proto__" ∉ field_names text ->
             maps_fields_to_values (field_names text) (split comma line) record).
Proof.
  exists (List.map (FinalSeeder.record_of_line (field_names text)) (data_lines text)).
  unfold FinalSeeder.parse_records. rewrite first_line_cells_total, drop_1_tail.
  fold (data_lines text).
  split; [done|]. split; [by intros f; rewrite List.map_map|].
  split.
  { intros env model filename d Hread.
    pose proof (summary_final_seedFromCSV env model filename None d) as Hsum.
    unfold bulk_plan, file_plan in Hsum. rewrite Hread in Hsum.
    unfold FinalSeeder.parse_records in Hsum.
    rewrite first_line_cells_total, drop_1_tail in Hsum. fold (data_lines text) in Hsum.
    cbn [exec_plan insert_all] in Hsum.
    destruct (insert_check env d model _) as [e|];
      apply summary_eq in Hsum as (_ & _ & ->); by eexists. }
  split; [by rewrite List.length_map|].
  intros j line record Hline Hrecord.
  rewrite list_lookup_fmap, Hline in Hrecord. cbn in Hrecord. injection Hrecord as <-.
  split; [intros name; apply record_of_line_lookup|].
  intros Hnodup Hproto. split.
  - intros i name Hi. rewrite record_of_line_lookup.
    assert (String.eqb name "__proto__" = false) as ->.
    { apply String.eqb_neq. intros ->. apply Hproto. by eapply list_elem_of_lookup_2. }
    unfold last_position.
    rewrite (last_where_at (fun header => String.eqb header name) _ i name Hi
               (String.eqb_refl name)); [done|].
    intros i' h Hlt Hi'. by eapply NoDup_later_differs.
  - intros name Hname. rewrite record_of_line_lookup.
    destruct (String.eqb name "__proto__"); [done|].
    unfold last_position.
    assert (last_where (fun header => String.eqb header name) (field_names text) 0 = None)
      as ->; [|done].
    apply last_where_None. intros h Hh. apply String.eqb_neq. by intros ->.
Qed.

(** ** The address seeder *)


Section Addresses.

Variable env : Env.






End Addresses.

Lemma insert_all_rows (env : Env) (m : Model) (batches : list (list obj)) d r d' evs :
  insert_all env d m batches = (r, d', evs) ->
  forall m' rows result, EvInsert m' rows result ∈ evs -> m' = m /\ rows ∈ batches.
Proof.
  intros Hrun m' rows result Hev. destruct r as [e|].
  - destruct (insert_all_failed env _ _ _ _ _ _ Hrun) as (n & rows_n & Hn & _ & ->).
    apply elem_of_app in Hev as [Hev|Hev].
    + unfold fulfilled in Hev. apply list_elem_of_fmap in Hev as (rows' & Heq & Hin).
      injection Heq as -> ->. split; [done|].
      apply elem_of_take in Hin as (i & Hi & _). by eapply list_elem_of_lookup_2.
    + apply list_elem_of_singleton in Hev. injection Hev as -> -> _.
      split; [done|]. by eapply list_elem_of_lookup_2.
  - destruct (insert_all_ok env _ _ _ _ _ Hrun) as [_ ->].
    unfold fulfilled in Hev. apply list_elem_of_fmap in Hev as (rows' & Heq & Hin).
    by injection Heq as -> ->.
Qed.


(** ** Boolean columns *)

Lemma coerce_is_active_boolean (row : obj) :
  get (coerce_is_active row) "is_active"
  = VBool (strict_eq_str (get row "is_active") "true").
Proof. unfold coerce_is_active, set, get. cbn. by rewrite lookup_insert_eq. Qed.

(** C4, as the code has it. The comparison with ['true'] turns
    [is_active] into a boolean whatever the row holds, never into null.
    For the file with the lines [Admin,true], [User,false] and [Guest,],
    the role seeder hands the ORM three records whose [is_active] is true,
    false and false; the third row does not make the seeding fail: when
    the database accepts the inserts, the seeder resolves and the three
    records are in the table. *)
Theorem missing_flag_is_coerced_to_false (env : Env) (d : DB) :
  (forall row, get (coerce_is_active row) "is_active"
               = VBool (strict_eq_str (get row "is_active") "true"))
  /\ (csv_stream env "src/docs/data/roles.csv" = inr three_role_rows ->
      plan_of env Role
      = inr [ [role_record "Admin" true]; [role_record "User" false];
              [role_record "Guest" false] ]
      /\ ((forall d' rows, insert_check env d' Role rows = None) ->
          outcome (seedRoles env d) = Resolved tt
          /\ db (seedRoles env d) Role
             = d Role ++ [ role_record "Admin" true; role_record "User" false;
                           role_record "Guest" false ])).
Proof.
  split; [apply coerce_is_active_boolean|].
  intros Hrows.
  assert (plan_of env Role
          = inr [ [role_record "Admin" true]; [role_record "User" false];
                  [role_record "Guest" false] ]) as Hplan.
  { cbn [plan_of]. unfold stream_plan. rewrite Hrows. reflexivity. }
  split; [done|]. intros Haccepts.
  pose proof (Forall_lookup_1 _ _ 0 _ (seeders_follow_plans env) eq_refl d) as Hsum.
  cbn beta iota in Hsum. rewrite Hplan in Hsum. cbn [exec_plan] in Hsum.
  destruct (insert_all env d Role _) as [[[e|] d'] evs] eqn:Hrun.
  - exfalso. cbn [insert_all] in Hrun. rewrite !Haccepts in Hrun. discriminate.
  - apply summary_eq in Hsum as (Herr & Hdb & _).
    split; [by apply error_of_Resolved|].
    rewrite Hdb. by destruct (insert_all_ok env _ _ _ _ _ Hrun) as [-> _].
Qed.

(** ** Grouping the order details *)

Lemma group_get_push_same (groups : Groups) (key : string) (item : obj) :
  group_get (group_push groups key item) key
  = Some (default [] (group_get groups key) ++ [item]).
Proof.
  induction groups as [|[k items] groups IH]; cbn.
  - by rewrite String.eqb_refl.
  - destruct (String.eqb k key) eqn:Hk; cbn; rewrite Hk; [done|apply IH].
Qed.

Lemma group_get_push_other (groups : Groups) (key key' : string) (item : obj) :
  key' <> key ->
  group_get (group_push groups key item) key' = group_get groups key'.
Proof.
  intros Hne. induction groups as [|[k items] groups IH]; cbn.
  - apply String.eqb_neq in Hne. by rewrite String.eqb_sym, Hne.
  - destruct (String.eqb k key) eqn:Hk; cbn; [|by rewrite IH].
    apply String.eqb_eq in Hk as ->.
    assert (String.eqb key key' = false) as ->; [|done].
    apply String.eqb_neq. by intros ->.
Qed.

Lemma group_push_keys (groups : Groups) (key : string) (item : obj) :
  List.map fst (group_push groups key item)
  = if bool_decide (key ∈ List.map fst groups) then List.map fst groups
    else List.map fst groups ++ [key].
Proof.
  induction groups as [|[k items] groups IH]; [done|].
  cbn [group_push]. destruct (String.eqb k key) eqn:Hk.
  - apply String.eqb_eq in Hk as ->. cbn [List.map fst].
    by rewrite bool_decide_eq_true_2 by apply list_elem_of_here.
  - apply String.eqb_neq in Hk. cbn [List.map fst]. rewrite IH.
    destruct (bool_decide (key ∈ List.map fst groups)) eqn:Hin.
    + apply bool_decide_eq_true in Hin.
      by rewrite bool_decide_eq_true_2 by (by apply list_elem_of_further).
    + apply bool_decide_eq_false in Hin.
      rewrite bool_decide_eq_false_2; [done|].
      intros Hmem. apply elem_of_cons in Hmem as [->|Hmem]; done.
Qed.

Lemma group_push_NoDup (groups : Groups) (key : string) (item : obj) :
  NoDup (List.map fst groups) -> NoDup (List.map fst (group_push groups key item)).
Proof.
  intros Hnodup. rewrite group_push_keys.
  destruct (bool_decide (key ∈ List.map fst groups)) eqn:Hin; [done|].
  apply bool_decide_eq_false in Hin.
  apply NoDup_app. split; [done|]. split; [|apply NoDup_singleton].
  intros k Hk Hk'. apply list_elem_of_singleton in Hk' as ->. done.
Qed.

Lemma group_get_Some (groups : Groups) (key : string) (items : list obj) :
  NoDup (List.map fst groups) ->
  (key, items) ∈ groups <-> group_get groups key = Some items.
Proof.
  induction groups as [|[k its] groups IH]; intros Hnodup.
  - split; [|done]. intros Hin. by apply elem_of_nil in Hin.
  - cbn [List.map fst] in Hnodup. apply NoDup_cons in Hnodup as [Hfresh Hnodup].
    cbn [group_get]. destruct (String.eqb k key) eqn:Hk.
    + apply String.eqb_eq in Hk as ->. split.
      * intros Hin. apply elem_of_cons in Hin as [Heq|Hin]; [by injection Heq as ->|].
        exfalso. apply Hfresh. apply list_elem_of_fmap. by exists (key, items).
      * intros Heq. injection Heq as ->. apply list_elem_of_here.
    + apply String.eqb_neq in Hk. rewrite <- (IH Hnodup). split.
      * intros Hin. apply elem_of_cons in Hin as [Heq|Hin]; [|done].
        by injection Heq as -> ->.
      * intros Hin. by apply list_elem_of_further.
Qed.

Lemma group_get_keys (groups : Groups) (key : string) :
  key ∈ List.map fst groups <-> is_Some (group_get groups key).
Proof.
  induction groups as [|[k its] groups IH]; cbn [List.map fst group_get].
  - split; [intros Hin; by apply elem_of_nil in Hin|by intros [? ?]].
  - destruct (String.eqb k key) eqn:Hk.
    + apply String.eqb_eq in Hk as ->. split; [by eexists|]. intros _. apply list_elem_of_here.
    + apply String.eqb_neq in Hk. rewrite <- IH. split.
      * intros Hin. apply elem_of_cons in Hin as [->|Hin]; done.
      * intros Hin. by apply list_elem_of_further.
Qed.

Section Grouping.

Variable env : Env.

Lemma group_fold_get (orderDetails : list obj) :
  forall groups key,
    group_get
      (fold_left
         (fun groups detail =>
            group_push groups (group_key env detail) (cart_item env detail))
         orderDetails groups) key
    = match rows_of_order env key orderDetails with
      | [] => group_get groups key
      | rows => Some (default [] (group_get groups key) ++ List.map (cart_item env) rows)
      end.
Proof.
  induction orderDetails as [|detail details IH]; intros groups key; [done|].
  cbn [fold_left]. rewrite IH. unfold rows_of_order. cbn [List.filter].
  fold (rows_of_order env key details).
  destruct (String.eqb (group_key env detail) key) eqn:Hkey.
  - apply String.eqb_eq in Hkey as <-. rewrite group_get_push_same.
    destruct (rows_of_order env (group_key env detail) details) as [|row rows]; [done|].
    unfold default. cbn [from_option id List.map]. by rewrite <- app_assoc.
  - apply String.eqb_neq in Hkey.
    by rewrite group_get_push_other.
Qed.

Lemma group_fold_NoDup (orderDetails : list obj) :
  forall groups,
    NoDup (List.map fst groups) ->
    NoDup (List.map fst
             (fold_left
                (fun groups detail =>
                   group_push groups (group_key env detail) (cart_item env detail))
                orderDetails groups)).
Proof.
  induction orderDetails as [|detail details IH]; intros groups Hnodup; [done|].
  cbn [fold_left]. by apply IH, group_push_NoDup.
Qed.

Lemma group_by_order_NoDup (orderDetails : list obj) :
  NoDup (List.map fst (group_by_order env orderDetails)).
Proof. apply group_fold_NoDup. constructor. Qed.

Lemma group_by_order_get (orderDetails : list obj) (key : string) :
  group_get (group_by_order env orderDetails) key
  = match rows_of_order env key orderDetails with
    | [] => None
    | rows => Some (List.map (cart_item env) rows)
    end.
Proof. unfold group_by_order. by rewrite group_fold_get. Qed.

End Grouping.

Lemma insert_by_index_Permutation {A : Type} (entry : string * A) (sorted : list (string * A)) :
  insert_by_index entry sorted ≡ₚ entry :: sorted.
Proof.
  induction sorted as [|e rest IH]; [done|]. cbn [insert_by_index].
  destruct (index_or_zero (fst entry) <? index_or_zero (fst e))%N; [done|].
  rewrite IH. apply Permutation_swap.
Qed.

Lemma sort_by_index_Permutation {A : Type} (entries : list (string * A)) :
  sort_by_index entries ≡ₚ entries.
Proof.
  induction entries as [|e rest IH]; [done|].
  cbn [sort_by_index fold_right]. fold (sort_by_index rest).
  by rewrite insert_by_index_Permutation, IH.
Qed.

Lemma filter_split_Permutation {A : Type} (p : A -> bool) (l : list A) :
  List.filter p l ++ List.filter (fun x => negb (p x)) l ≡ₚ l.
Proof.
  induction l as [|x l IH]; [done|]. cbn [List.filter].
  destruct (p x); cbn [negb app].
  - by rewrite IH.
  - by rewrite <- Permutation_middle, IH.
Qed.

(** [Object.entries] lists every key of the object once. *)
Lemma object_entries_Permutation {A : Type} (o : list (string * A)) :
  object_entries o ≡ₚ o.
Proof.
  unfold object_entries. rewrite sort_by_index_Permutation.
  apply filter_split_Permutation.
Qed.

Lemma div_by_zero_not_finite (x z : number) :
  is_zero z = true -> is_finite (div x z) = false.
Proof. destruct z; try discriminate. intros _. by destruct x. Qed.

Lemma cart_item_lookup (env : Env) (detail : obj) (name : string) :
  cart_item env detail !! name
  = if String.eqb name "price"
    then Some (js_div env (get detail "subtotal") (get detail "amount"))
    else if String.eqb name "quantity" then Some (get detail "amount")
    else None.
Proof.
  unfold cart_item.
  destruct (String.eqb name "price") eqn:Hprice.
  - apply String.eqb_eq in Hprice as ->. by rewrite lookup_insert_eq.
  - apply String.eqb_neq in Hprice. rewrite lookup_insert_ne by done.
    destruct (String.eqb name "quantity") eqn:Hquantity.
    + apply String.eqb_eq in Hquantity as ->. by rewrite lookup_insert_eq.
    + apply String.eqb_neq in Hquantity. by rewrite lookup_insert_ne.
Qed.

Lemma rows_of_order_nonempty (env : Env) (key : string) (orderDetails : list obj) :
  rows_of_order env key orderDetails <> []
  <-> exists detail, detail ∈ orderDetails /\ group_key env detail = key.
Proof.
  unfold rows_of_order. split.
  - intros Hne. destruct (List.filter _ orderDetails) as [|detail rows] eqn:Hrows; [done|].
    assert (In detail (List.filter
                         (fun detail => String.eqb (group_key env detail) key)
                         orderDetails)) as Hin by (rewrite Hrows; by left).
    apply filter_In in Hin as [Hin Hkey]. exists detail.
    split; [by apply list_elem_of_In|by apply String.eqb_eq].
  - intros (detail & Hin & Hkey) Hempty.
    assert (In detail (List.filter
                         (fun detail => String.eqb (group_key env detail) key)
                         orderDetails)) as Hmem.
    { apply filter_In. split; [by apply list_elem_of_In|by apply String.eqb_eq]. }
    by rewrite Hempty in Hmem.
Qed.

(** C10. Every order-details text is parsed without error, and
    [seedOrderDetails] does not insert the parsed rows: it groups
    them by the property name of their [order_id] and makes one
    [createShoppingCart] call per distinct one. The items of a call are,
    for the rows of that order in file order, a record with exactly the two
    fields [quantity] (the row's [amount]) and [price] (its [subtotal]
    divided by its [amount]), so the row's [product_id], [subtotal] and
    [is_active] are not passed on; the division is unguarded, and a row
    whose [amount] is zero gets a price that is not finite. *)
Theorem order_details_are_grouped_into_carts (env : Env) (orderDetails : list obj) :
  (forall csvData, exists parsed, parse_orderDetails env csvData = inr parsed)
  /\ NoDup (List.map fst (object_entries (group_by_order env orderDetails)))
  /\ (forall key,
        key ∈ List.map fst (object_entries (group_by_order env orderDetails))
        <-> exists detail, detail ∈ orderDetails /\ group_key env detail = key)
  /\ length (cart_batches env orderDetails)
     = length (object_entries (group_by_order env orderDetails))
  /\ (forall key products,
        (key, products) ∈ object_entries (group_by_order env orderDetails) ->
        products = List.map (cart_item env) (rows_of_order env key orderDetails))
  /\ (forall detail name,
        cart_item env detail !! name
        = if String.eqb name "price"
          then Some (js_div env (get detail "subtotal") (get detail "amount"))
          else if String.eqb name "quantity" then Some (get detail "amount")
          else None)
  /\ (forall detail z,
        get detail "amount" = VNum z ->
        is_zero z = true ->
        exists price,
          get (cart_item env detail) "price" = VNum price /\ is_finite price = false)
  /\ (forall d csvData,
        readFileSync env "src/docs/data/order-details.csv" = inr csvData ->
        parse_orderDetails env csvData = inr orderDetails ->
        (outcome (seedOrderDetails env d) = Resolved tt ->
         calls (seedOrderDetails env d)
         = fulfilled OrderItem (cart_batches env orderDetails))
        /\ (forall m rows result,
              EvInsert m rows result ∈ calls (seedOrderDetails env d) ->
              m = OrderItem /\ rows ∈ cart_batches env orderDetails)).
Proof.
  pose proof (object_entries_Permutation (group_by_order env orderDetails)) as Hperm.
  pose proof (group_by_order_NoDup env orderDetails) as Hnodup.
  assert (forall key,
             key ∈ List.map fst (object_entries (group_by_order env orderDetails))
             <-> key ∈ List.map fst (group_by_order env orderDetails)) as Hkeys.
  { intros key. by rewrite Hperm. }
  split; [|split; [|split; [|split; [|split; [|split; [|split]]]]]].
  - intros csvData. eexists. unfold parse_orderDetails.
    by rewrite first_line_cells_total.
  - by rewrite Hperm.
  - intros key. rewrite Hkeys, group_get_keys, group_by_order_get.
    rewrite <- rows_of_order_nonempty.
    destruct (rows_of_order env key orderDetails); split; try done.
  - unfold cart_batches. by rewrite List.length_map.
  - intros key products Hin. rewrite Hperm in Hin.
    apply (group_get_Some _ _ _ Hnodup) in Hin. rewrite group_by_order_get in Hin.
    destruct (rows_of_order env key orderDetails); [done|]. by injection Hin as <-.
  - apply cart_item_lookup.
  - intros detail z Hamount Hzero. unfold get at 1. rewrite cart_item_lookup. cbn.
    rewrite Hamount. eexists. split; [reflexivity|]. by apply div_by_zero_not_finite.
  - intros d csvData Hread Hparse.
    pose proof (summary_seedOrderDetails env d) as Hsum.
    cbn [plan_of] in Hsum. unfold file_plan in Hsum. rewrite Hread, Hparse in Hsum.
    cbn [exec_plan] in Hsum.
    destruct (insert_all env d OrderItem (cart_batches env orderDetails))
      as [[r d'] evs] eqn:Hrun.
    apply summary_eq in Hsum as (Herr & _ & Hcalls). split.
    + intros Hout. rewrite Hout in Herr. cbn in Herr. subst r.
      rewrite Hcalls. by destruct (insert_all_ok env _ _ _ _ _ Hrun) as [_ ->].
    + intros m rows result Hev. rewrite Hcalls in Hev. by eapply insert_all_rows.
Qed.

(** * The properties on the sample environment *)

Import Sample.


Lemma sample_roles_file :
  csv_stream guide_env "src/docs/data/roles.csv" = inr three_role_rows.
Proof. vm_compute. reflexivity. Qed.

(** In the sample run the call at position 13 inserts the first access;
    by then the three roles are in. *)
Lemma inserts_wait_for_dependencies_witness :
  (exists rows result,
      calls (runSeeders guide_env empty_db) !! 13 = Some (EvInsert Access rows result))
  /\ Role ∈ dependsOn Access
  /\ completed_before guide_env Role 13 (calls (runSeeders guide_env empty_db)).
Proof.
  assert (exists rows result,
             calls (runSeeders guide_env empty_db) !! 13
             = Some (EvInsert Access rows result)) as Hcall.
  { eexists _, _. vm_compute. reflexivity. }
  assert (Role ∈ dependsOn Access) as Hdep by (cbn; apply list_elem_of_here).
  split; [exact Hcall|]. split; [exact Hdep|].
  destruct Hcall as (rows & result & Hcall).
  exact (inserts_wait_for_dependencies guide_env empty_db 13 Access rows result Hcall
           Role Hdep).
Defined.




(** C3 as stated fails: the address seeder resolves in the sample run
    without writing any line that carries a count. *)
Lemma address_seeder_reports_no_count :
  ~ every_seeder_reports_a_count open_env.
Proof.
  intros Hclaim.
  destruct (Hclaim Address (seedAddresses open_env) empty_db) as (n & what & Hline).
  - unfold seeders. do 13 apply list_elem_of_further. apply list_elem_of_here.
  - vm_compute. reflexivity.
  - assert (Forall (fun msg => match msg with LogCount _ _ => False | _ => True end)
              (console (seedAddresses open_env empty_db))) as Hnone.
    { vm_compute. repeat constructor. }
    rewrite Forall_forall in Hnone. exact (Hnone _ Hline).
Qed.

Lemma first_rejection_aborts_the_run_witness :
  sync_check guide_env Force empty_db = None
  /\ fails_at guide_env 14 (ForeignKeyViolation OrderItem)
  /\ outcome (runSeeders guide_env empty_db) = Rejected (ForeignKeyViolation OrderItem)
  /\ fst (runSeeders_main guide_env empty_db) = 1%Z
  /\ sync_check open_env Force empty_db = None
  /\ outcome (run_in_order (List.map snd (seeders open_env)) empty_db) = Resolved tt
  /\ fst (runSeeders_main open_env empty_db) = 0%Z
  /\ LogCount 3 "roles created from CSV" ∈ console (runSeeders open_env empty_db).
Proof.
  assert (sync_check guide_env Force empty_db = None) as Hsync by reflexivity.
  assert (fails_at guide_env 14 (ForeignKeyViolation OrderItem)) as Hfails.
  { exists (seedOrderDetails guide_env). split; [reflexivity|].
    split; vm_compute; reflexivity. }
  assert (sync_check open_env Force empty_db = None) as Hsync' by reflexivity.
  assert (outcome (run_in_order (List.map snd (seeders open_env)) empty_db) = Resolved tt)
    as Hall by (vm_compute; reflexivity).
  destruct (first_rejection_aborts_the_run guide_env empty_db Hsync) as [Hfail _].
  destruct (Hfail 14 _ Hfails) as (Hout & _ & _ & Hexit).
  destruct (first_rejection_aborts_the_run open_env empty_db Hsync') as [_ Hok].
  destruct (Hok Hall) as (_ & Hexit' & Hlines).
  destruct (Hlines Role) as (msg & Hmsg & Hin).
  { unfold seed_order, seeders. apply list_elem_of_here. }
  assert (msg = LogCount 3 "roles created from CSV") as ->.
  { vm_compute in Hmsg. by injection Hmsg as <-. }
  repeat split; assumption.
Defined.



(** C4 as stated fails: on the sample file the third role is inserted, and
    its [is_active] is the boolean false. *)
Lemma missing_flag_neither_fails_nor_is_null :
  ~ missing_flag_fails_or_is_null guide_env empty_db.
Proof.
  intros Hclaim.
  destruct (Hclaim sample_roles_file) as (admin & user & guest & Hplan & _ & _ & Hthird).
  assert (plan_of guide_env Role
          = inr [ [role_record "Admin" true]; [role_record "User" false];
                  [role_record "Guest" false] ]) as Hplan'
    by (vm_compute; reflexivity).
  rewrite Hplan' in Hplan. injection Hplan as _ _ <-.
  destruct Hthird as [Hfails|Hnull].
  - apply Hfails. vm_compute. reflexivity.
  - vm_compute in Hnull. discriminate.
Qed.

Lemma missing_flag_is_coerced_to_false_witness :
  csv_stream guide_env "src/docs/data/roles.csv" = inr three_role_rows
  /\ (forall d' rows, insert_check guide_env d' Role rows = None)
  /\ outcome (seedRoles guide_env empty_db) = Resolved tt
  /\ db (seedRoles guide_env empty_db) Role
     = [ role_record "Admin" true; role_record "User" false; role_record "Guest" false ].
Proof.
  assert (csv_stream guide_env "src/docs/data/roles.csv" = inr three_role_rows) as Hrows
    by (vm_compute; reflexivity).
  assert (forall d' rows, insert_check guide_env d' Role rows = None) as Haccepts
    by (intros d' rows; reflexivity).
  destruct (missing_flag_is_coerced_to_false guide_env empty_db) as [_ Hfile].
  destruct (Hfile Hrows) as [_ Hrun]. destruct (Hrun Haccepts) as [Hout Hdb].
  repeat split; assumption.
Defined.

(** C6 as stated fails: with the field name [a] twice in the header, the
    record of the line [1,2] holds ["2"] under [a], not the first value. *)
Lemma repeated_field_name_keeps_last_value :
  ~ parse_matches_reference repeated_name_text.
Proof.
  intros (records & Hparse & Href).
  assert (FinalSeeder.parse_records None repeated_name_text
          = inr [ <["a" := VStr "2"]> ∅ ]) as Hparse' by (vm_compute; reflexivity).
  rewrite Hparse' in Hparse. injection Hparse as <-.
  unfold reads_as_specified in Href.
  assert (data_lines repeated_name_text = ["1,2"]) as Hlines by (vm_compute; reflexivity).
  assert (field_names repeated_name_text = ["a"; "a"]) as Hnames by (vm_compute; reflexivity).
  rewrite Hlines, Hnames in Href. apply Forall2_cons_1 in Href as [[Hfirst _] _].
  specialize (Hfirst 0 "a" eq_refl). vm_compute in Hfirst. discriminate.
Qed.

Lemma parse_records_reads_each_line_witness :
  NoDup (field_names short_line_text)
  /\ ("__proto__" ∉ field_names short_line_text)
  /\ exists admin guest,
       FinalSeeder.parse_records None short_line_text
       = inr [admin; guest]
       /\ maps_fields_to_values ["name"; "is_active"] ["Guest"] guest
       /\ guest !! "is_active" = Some VUndefined.
Proof.
  set (text := short_line_text).
  assert (field_names text = ["name"; "is_active"]) as Hnames by (vm_compute; reflexivity).
  assert (NoDup (field_names text)) as Hnodup.
  { rewrite Hnames. refine (bool_decide_unpack _ _). vm_compute. reflexivity. }
  assert ("__proto__" ∉ field_names text) as Hproto.
  { rewrite Hnames. refine (bool_decide_unpack _ _). vm_compute. reflexivity. }
  split; [exact Hnodup|]. split; [exact Hproto|].
  destruct (parse_records_reads_each_line text)
    as (records & Hparse & _ & _ & Hlen & Hrecords).
  assert (data_lines text = ["Admin,true"; "Guest"]) as Hlines by (vm_compute; reflexivity).
  rewrite Hlines in Hlen, Hrecords.
  destruct records as [|admin [|guest [|]]]; try discriminate.
  exists admin, guest. split; [exact Hparse|].
  destruct (Hrecords 1 "Guest" guest eq_refl eq_refl) as [Hlookup Hmaps].
  specialize (Hmaps Hnodup Hproto). rewrite Hnames in Hmaps.
  split; [exact Hmaps|]. destruct Hmaps as [Hfields _]. exact (Hfields 1 "is_active" eq_refl).
Defined.





Lemma schema_reset_once_before_inserts_witness :
  exists rest,
    calls (runSeeders guide_env empty_db) = EvSync Force None :: rest
    /\ length (List.filter is_sync (calls (runSeeders guide_env empty_db))) = 1.
Proof.
  destruct (schema_reset_once_before_inserts guide_env empty_db)
    as (result & rest & Hcalls & _ & Hcount & _).
  exists rest. split; [|exact Hcount].
  rewrite Hcalls. f_equal.
  assert (head (calls (runSeeders guide_env empty_db)) = Some (EvSync Force None)) as Hhead
    by (vm_compute; reflexivity).
  rewrite Hcalls in Hhead. by injection Hhead as ->.
Defined.


Lemma order_details_are_grouped_into_carts_witness :
  get free_item "amount" = VNum (S754_zero false)
  /\ is_zero (S754_zero false) = true
  /\ get (cart_item guide_env free_item) "price" = VNum (S754_infinity false)
  /\ List.map fst (object_entries (group_by_order guide_env [free_item; free_item]))
     = "2" :: nil.
Proof.
  assert (get free_item "amount" = VNum (S754_zero false)) as Hamount
    by (vm_compute; reflexivity).
  assert (is_zero (S754_zero false) = true) as Hzero by reflexivity.
  destruct (order_details_are_grouped_into_carts guide_env [free_item; free_item])
    as (_ & _ & _ & _ & _ & _ & Hdivision & _).
  destruct (Hdivision free_item _ Hamount Hzero) as (price & Hprice & Hfinite).
  split; [exact Hamount|]. split; [exact Hzero|]. split.
  - rewrite Hprice. vm_compute in Hprice. injection Hprice as <-. reflexivity.
  - vm_compute. reflexivity.
Defined.

(** * Further properties

    The other runners of the repository, the associations, and more of
    what the seeders do with their files. *)

(** Reading a field through the assignments made after it. *)
Ltac lookup_through :=
  repeat first [ rewrite lookup_insert_eq
               | rewrite lookup_insert_ne by done
               | rewrite lookup_delete_ne by done
               | rewrite lookup_delete_eq ].

(** ** The other runners, in closed form *)

Section Other_closed_forms.

Variable env : Env.

Lemma exec_plans_one (m : Model) (p : Plan) (d : DB) :
  exec_plans env [(m, p)] d = exec_plan env d m p.
Proof. rewrite exec_plans_cons. apply and_then_done. Qed.

Lemma summary_UserDAO_create (items : list obj) (d : DB) :
  summary (for_of items (UserDAO_create env) d) = insert_all env d User (singletons items).
Proof.
  rewrite <- (map_id items) at 2.
  apply (summary_for_of_create env User (fun x => x)).
Qed.

Lemma summary_runFinalSeeder (d : DB) :
  summary (runFinalSeeder env d)
  = and_then (summary (sequelize_sync env Force d)) (exec_plans env (final_plans env)).
Proof.
  unfold runFinalSeeder.
  rewrite summary_rethrow, summary_log_then, summary_bind.
  apply and_then_ext. intros d1. rewrite summary_log_then.
  unfold final_plans, final_order. cbn [List.map final_plan_of].
  do 8 (rewrite summary_bind, exec_plans_cons, summary_final_seedFromCSV;
        apply and_then_ext; intros ?).
  rewrite summary_bind, exec_plans_cons, summary_bulkCreate.
  apply and_then_ext; intros ?. rewrite summary_log_then.
  rewrite summary_bind, exec_plans_cons, summary_bulkCreate.
  apply and_then_ext; intros ?. rewrite summary_log_then.
  rewrite summary_bind, exec_plans_cons, summary_UserDAO_create.
  apply and_then_ext; intros ?. rewrite summary_log_then.
  do 2 (rewrite summary_bind, exec_plans_cons, summary_final_seedFromCSV;
        apply and_then_ext; intros ?).
  rewrite summary_then_log, exec_plans_one. apply summary_final_seedFromCSV.
Qed.

Lemma summary_runSimpleSeeders (d : DB) :
  summary (runSimpleSeeders env d)
  = and_then (summary (sequelize_sync env Force d)) (exec_plans env simple_plans).
Proof.
  unfold runSimpleSeeders.
  rewrite summary_rethrow, summary_log_then, summary_bind.
  apply and_then_ext. intros d1. rewrite summary_log_then.
  unfold simple_plans.
  do 2 (rewrite summary_bind, exec_plans_cons, summary_bulkCreate;
        apply and_then_ext; intros ?; rewrite summary_log_then).
  rewrite summary_bind, summary_bulkCreate, exec_plans_one.
  cbn [exec_plan]. rewrite <- (and_then_done (insert_all _ _ _ _)) at 2.
  apply and_then_ext. intros ?. rewrite summary_log_then. apply summary_log.
Qed.

End Other_closed_forms.

(** ** How far a run got *)

Section Progress.

Variable env : Env.

(** How far a sequence of plans got: the plans before position [k] went
    through, the one at [k] (if any) failed, the later ones were not
    started. *)
Lemma exec_plans_progress (ps : list (Model * Plan)) :
  forall d r d' evs,
    exec_plans env ps d = (r, d', evs) ->
    NoDup (List.map fst ps) ->
    exists k,
      (forall j m p, j < k -> ps !! j = Some (m, p) ->
         exists batches, p = inr batches /\ d' m = d m ++ concat batches)
      /\ (forall j m p, k < j -> ps !! j = Some (m, p) -> d' m = d m)
      /\ (forall m, m ∉ List.map fst ps -> d' m = d m)
      /\ match r with
         | None => k = length ps
         | Some e =>
             exists m p,
               ps !! k = Some (m, p)
               /\ match p with
                  | inl e' => e' = e /\ d' m = d m
                  | inr batches =>
                      exists n rows,
                        batches !! n = Some rows
                        /\ d' m = d m ++ concat (take n batches)
                  end
         end.
Proof.
  induction ps as [|[m0 p0] ps IH]; intros d r d' evs Hrun Hnodup.
  - injection Hrun as <- <- _. exists 0. split; [intros; lia|]. by repeat split.
  - cbn [List.map fst] in Hnodup. apply NoDup_cons in Hnodup as [Hm0 Hnodup].
    rewrite exec_plans_cons in Hrun. unfold and_then in Hrun.
    destruct (exec_plan env d m0 p0) as [[[e1|] d1] evs1] eqn:Hfirst.
    + injection Hrun as <- <- <-. exists 0. split; [intros; lia|]. split; [|split].
      * intros [|j] m p Hj Hlook; [lia|]. cbn in Hlook.
        eapply exec_plan_others; [exact Hfirst|]. intros ->. apply Hm0.
        apply list_elem_of_fmap. exists (m0, p). split; [done|].
        by eapply list_elem_of_lookup_2.
      * intros m Hm. eapply exec_plan_others; [exact Hfirst|]. intros ->.
        apply Hm. cbn. apply list_elem_of_here.
      * exists m0, p0. split; [done|]. destruct p0 as [e'|batches]; cbn [exec_plan] in Hfirst.
        -- by injection Hfirst as -> ->.
        -- destruct (insert_all_failed env _ _ _ _ _ _ Hfirst) as (n & rows & Hn & Hdb & _).
           eauto.
    + destruct (exec_plans env ps d1) as [[r2 d2] evs2] eqn:Hrest.
      injection Hrun as <- <- _.
      destruct (exec_plan_ok env _ _ _ _ _ Hfirst) as (batches0 & -> & Hdb0 & _).
      destruct (IH _ _ _ _ Hrest Hnodup) as (k & Hbefore & Hafter & Hout & Hat).
      assert (forall m, m <> m0 -> d1 m = d m) as Hothers.
      { intros m Hm. by eapply exec_plan_others. }
      assert (forall j m p, ps !! j = Some (m, p) -> m <> m0) as Hne.
      { intros j m p Hlook ->. apply Hm0. apply list_elem_of_fmap. exists (m0, p).
        split; [done|]. by eapply list_elem_of_lookup_2. }
      exists (S k). split; [|split; [|split]].
      * intros [|j] m p Hj Hlook; cbn in Hlook.
        -- injection Hlook as <- <-. exists batches0. split; [done|].
           by rewrite (Hout m0 Hm0).
        -- destruct (Hbefore j m p ltac:(lia) Hlook) as (batches & -> & Hdb).
           exists batches. split; [done|]. rewrite Hdb, Hothers; [done|by eapply Hne].
      * intros [|j] m p Hj Hlook; [lia|]. cbn in Hlook.
        rewrite (Hafter j m p ltac:(lia) Hlook). apply Hothers. by eapply Hne.
      * intros m Hm. rewrite Hout.
        -- apply Hothers. intros ->. apply Hm. cbn. apply list_elem_of_here.
        -- intros Hin. apply Hm. cbn. by apply list_elem_of_further.
      * destruct r2 as [e|].
        -- destruct Hat as (m & p & Hlook & Hp). exists m, p. split; [done|].
           destruct p as [e'|batches].
           ++ destruct Hp as [-> Hdb]. split; [done|]. rewrite Hdb. apply Hothers.
              by eapply Hne.
           ++ destruct Hp as (n & rows & Hn & Hdb). exists n, rows. split; [done|].
              rewrite Hdb, Hothers; [done|by eapply Hne].
        -- cbn [length]. by rewrite Hat.
Qed.

End Progress.

Section Batches.

Variable env : Env.

Lemma bulk_plan_single (path : string) (transform : option (obj -> obj))
    (batches : list (list obj)) :
  bulk_plan env path transform = inr batches -> exists records, batches = [records].
Proof.
  unfold bulk_plan, file_plan. intros Hplan.
  destruct (readFileSync env path); [done|].
  destruct (FinalSeeder.parse_records transform _) as [|records]; [done|].
  injection Hplan as <-. by exists records.
Qed.


Lemma complete_plan_single (m : Model) (batches : list (list obj)) :
  complete_plan_of env m = inr batches -> length batches <= 1.
Proof.
  intros Hplan.
  destruct m; cbn [complete_plan_of] in Hplan;
    try (apply bulk_plan_single in Hplan as [records ->]; cbn; lia);
    injection Hplan as <-; cbn; lia.
Qed.


Lemma final_plans_lookup (j : nat) (m : Model) (p : Plan) :
  final_plans env !! j = Some (m, p) <-> final_order !! j = Some m /\ p = final_plan_of env m.
Proof.
  unfold final_plans. rewrite list_lookup_fmap.
  destruct (final_order !! j) as [m'|]; cbn.
  - split; [by intros [= -> ->]|by intros [[= ->] ->]].
  - split; [done|by intros [? _]].
Qed.



(** A run that resets the schema and then follows a sequence of plans. *)
Lemma summary_after_reset (run : Task unit) (ps : list (Model * Plan)) (d : DB) :
  summary (run d) = and_then (summary (sequelize_sync env Force d)) (exec_plans env ps) ->
  match sync_check env Force d with
  | Some e =>
      outcome (run d) = Rejected e /\ db (run d) = d
      /\ calls (run d) = [EvSync Force (Some e)]
  | None =>
      exists r d' evs,
        exec_plans env ps empty_db = (r, d', evs)
        /\ error_of (outcome (run d)) = r /\ db (run d) = d'
        /\ calls (run d) = EvSync Force None :: evs
  end.
Proof.
  intros Hsum. unfold summary at 2 in Hsum. unfold sequelize_sync in Hsum.
  destruct (sync_check env Force d) as [e|]; cbn in Hsum.
  - apply summary_eq in Hsum as (Herr & Hdb & Hcalls).
    split; [by apply error_of_Rejected|done].
  - destruct (exec_plans env ps empty_db) as [[r d'] evs] eqn:Hrun.
    apply summary_eq in Hsum as (Herr & Hdb & Hcalls). by exists r, d', evs.
Qed.

End Batches.


(** X2. [runCompleteSeeder] adds whole files: it gets through the first [k]
    of its seven files, whose tables hold what they held followed by every
    record of the file, and leaves the tables from the [k]-th on, and every
    table it does not seed, exactly as they were. It resolves exactly when
    it gets through all seven. *)
Theorem complete_seeder_appends_whole_files (env : Env) (d : DB) :
  exists k,
    (k = length (complete_seeders env)
     <-> outcome (CompleteSeeder.runCompleteSeeder env d) = Resolved tt)
    /\ (forall j m,
          List.map fst (complete_seeders env) !! j = Some m ->
          (j < k ->
           exists records,
             complete_plan_of env m = inr [records]
             /\ db (CompleteSeeder.runCompleteSeeder env d) m = d m ++ records)
          /\ (k <= j -> db (CompleteSeeder.runCompleteSeeder env d) m = d m))
    /\ (forall m, m ∉ List.map fst (complete_seeders env) ->
          db (CompleteSeeder.runCompleteSeeder env d) m = d m).
Proof.
  pose proof (runCompleteSeeder_summary env d) as Hsum.
  destruct (sync_check env Alter d) as [e|].
  { apply summary_eq in Hsum as (Herr & Hdb & _). apply error_of_Rejected in Herr.
    exists 0. rewrite Herr, Hdb. split; [by split|]. split; [|done].
    intros j m _. split; [lia|done]. }
  destruct (exec_plans env (complete_plans env) d) as [[r d'] evs] eqn:Hrun.
  apply summary_eq in Hsum as (Herr & Hdb & _). rewrite Hdb.
  destruct (exec_plans_progress env _ _ _ _ _ Hrun (complete_plans_NoDup env))
    as (k & Hbefore & Hafter & Hout & Hat).
  assert (forall j m, List.map fst (complete_seeders env) !! j = Some m ->
            complete_plans env !! j = Some (m, complete_plan_of env m)) as Hlookup.
  { intros j m Hj. unfold complete_plans.
    change (List.map fst (complete_seeders env)) with (fst <$> complete_seeders env) in Hj.
    rewrite list_lookup_fmap in Hj. rewrite list_lookup_fmap.
    destruct (complete_seeders env !! j) as [[m' t]|]; [|done].
    cbn in Hj |- *. by injection Hj as ->. }
  exists k. split; [|split].
  - split.
    + intros ->. apply error_of_Resolved. rewrite Herr.
      destruct r as [e|]; [|done]. destruct Hat as (m & p & Hlook & _).
      apply lookup_lt_Some in Hlook. unfold complete_plans in Hlook.
      rewrite length_map in Hlook. lia.
    + intros Hres. rewrite Hres in Herr. cbn in Herr. subst r.
      rewrite Hat. unfold complete_plans. by rewrite length_map.
  - intros j m Hj. pose proof (Hlookup j m Hj) as Hlook. split.
    + intros Hlt. destruct (Hbefore _ _ _ Hlt Hlook) as (batches & Hplan & Hm).
      assert (exists records, batches = [records]) as [records ->].
      { apply list_elem_of_lookup_2 in Hj.
        destruct m; cbn [complete_plan_of] in Hplan;
          try (by eapply bulk_plan_single);
          exfalso; apply list_elem_of_In in Hj; cbn in Hj; clear -Hj;
          intuition discriminate. }
      exists records. split; [done|]. rewrite Hm. cbn. by rewrite app_nil_r.
    + intros Hle. destruct (decide (k = j)) as [->|Hne].
      * destruct r as [e|]; [|apply lookup_lt_Some in Hlook; lia].
        destruct Hat as (m' & p & Hlook' & Hp).
        pose proof (eq_trans (eq_sym Hlook') Hlook) as Heq. injection Heq as -> ->.
        destruct (complete_plan_of env m) as [e'|batches] eqn:Hplan; [by destruct Hp|].
        destruct Hp as (n & rows & Hn & ->).
        pose proof (complete_plan_single env m batches Hplan).
        apply lookup_lt_Some in Hn. replace n with 0 by lia. cbn. by rewrite app_nil_r.
      * apply (Hafter j m _ ltac:(lia) Hlook).
  - intros m Hm. apply Hout. unfold complete_plans.
    rewrite <- list_fmap_compose. exact Hm.
Qed.

(** ** A run that goes through *)

(** The calls of a sequence of plans that all went through: their batches,
    in order, each fulfilled. *)
Lemma exec_plans_ok_calls (env : Env) (ps : list (Model * Plan)) :
  forall d d' evs,
    exec_plans env ps d = (None, d', evs) ->
    evs = concat (List.map
                    (fun mp => match snd mp with
                               | inl _ => []
                               | inr batches => fulfilled (fst mp) batches
                               end) ps).
Proof.
  induction ps as [|[m0 p0] ps IH]; intros d d' evs Hrun.
  - by injection Hrun as _ <-.
  - rewrite exec_plans_cons in Hrun. unfold and_then in Hrun.
    destruct (exec_plan env d m0 p0) as [[[e1|] d1] evs1] eqn:Hfirst; [done|].
    destruct (exec_plans env ps d1) as [[r2 d2] evs2] eqn:Hrest.
    injection Hrun as -> _ <-.
    destruct (exec_plan_ok env _ _ _ _ _ Hfirst) as (batches & -> & _ & ->).
    cbn [List.map concat fst snd]. f_equal. by eapply IH.
Qed.

(** X3. When [runSeeders] resolves, the database holds what the files say
    and nothing else: every table holds exactly the rows its seeder built,
    in the order of the file, whatever it held before the run; the tables
    no seeder writes to are empty; and the ORM calls of the run are the
    schema reset followed by the inserts of the fifteen seeders in their
    order, all fulfilled. *)
Theorem resolved_run_holds_the_seeded_rows (env : Env) (d : DB) :
  outcome (runSeeders env d) = Resolved tt ->
  (forall m,
      exists batches,
        plan_of env m = inr batches
        /\ db (runSeeders env d) m = concat batches)
  /\ calls (runSeeders env d)
     = EvSync Force None
         :: concat (List.map
                      (fun m => match plan_of env m with
                                | inl _ => []
                                | inr batches => fulfilled m batches
                                end) (seed_order env)).
Proof.
  intros Hres. pose proof (runSeeders_summary env d) as Hsum.
  unfold summary in Hsum. rewrite Hres in Hsum. cbn [error_of] in Hsum.
  destruct (sync_check env Force d) as [e|]; [done|].
  destruct (exec_plans env (plans env) empty_db) as [[r d'] evs] eqn:Hrun.
  injection Hsum as <- -> ->.
  destruct (exec_plans_ok_db env _ _ _ _ Hrun) as [Hin Hout].
  { rewrite plans_fst. apply seed_order_NoDup. }
  split.
  - intros m. destruct (decide (m ∈ seed_order env)) as [Hm|Hm].
    + apply list_elem_of_lookup_1 in Hm as [n Hn].
      destruct (Hin m (plan_of env m)) as (batches & Hplan & Hdb).
      { eapply list_elem_of_lookup_2. by apply plans_lookup_order. }
      exists batches. by split.
    + exists []. split.
      * destruct m; try reflexivity; exfalso; apply Hm;
          apply list_elem_of_In; cbn; tauto.
      * rewrite Hout; [done|]. by rewrite plans_fst.
  - f_equal. rewrite (exec_plans_ok_calls env _ _ _ _ Hrun). unfold plans.
    rewrite map_map. reflexivity.
Qed.

(** ** The foreign keys of the associations *)

Lemma comes_after_sound (deps : Model -> list Model) (order : list Model) :
  forall seen,
    comes_after deps seen order = true ->
    forall n E, order !! n = Some E ->
    forall D, D ∈ deps E ->
      D ∈ seen \/ exists k, k < n /\ order !! k = Some D.
Proof.
  induction order as [|E0 order IH]; intros seen Hok n E Hn D HD; [done|].
  cbn [comes_after] in Hok. apply andb_prop in Hok as [Hhere Hrest].
  destruct n as [|n]; cbn in Hn.
  - injection Hn as ->. left.
    rewrite forallb_forall in Hhere.
    apply list_elem_of_In in HD. apply Hhere in HD. by apply bool_decide_eq_true in HD.
  - destruct (IH _ Hrest n E Hn D HD) as [Hseen|(k & Hk & HkD)].
    + apply elem_of_cons in Hseen as [->|Hseen]; [|by left].
      right. exists 0. split; [lia|done].
    + right. exists (S k). split; [lia|done].
Qed.

(** X4. [runSeeders] respects the foreign keys that [applyAssociations]
    declares: a call that inserts records of an entity [E] is only made once
    every entity whose key [E] holds (a [belongsTo] of [E]) is complete. *)
Theorem inserts_wait_for_associated_models (env : Env) (d : DB) (i : nat)
    (E : Model) (rows : list obj) (result : option Err) :
  calls (runSeeders env d) !! i = Some (EvInsert E rows result) ->
  forall D, D ∈ references E ->
    completed_before env D i (calls (runSeeders env d)).
Proof.
  intros Hi D HD.
  pose proof (runSeeders_summary env d) as Hsum.
  destruct (sync_check env Force d) as [e|].
  { apply (f_equal snd) in Hsum. cbn in Hsum. rewrite Hsum in Hi.
    destruct i as [|i]; [discriminate|]. by rewrite lookup_cons, lookup_nil in Hi. }
  destruct (exec_plans env (plans env) empty_db) as [[r d'] evs] eqn:Hrun.
  apply (f_equal snd) in Hsum. cbn in Hsum. rewrite Hsum in Hi |- *.
  destruct i as [|i]; [discriminate|]. cbn in Hi.
  destruct (exec_plans_blocks env _ _ _ _ _ Hrun _ _ _ _ Hi) as (n & p & Hn & Hbefore).
  apply plans_lookup in Hn as [Hn _].
  assert (comes_after references [] (seed_order env) = true) as Hok by by vm_compute.
  destruct (comes_after_sound _ _ _ Hok n E Hn D HD) as [Hnil|(k & Hk & HkD)].
  { by apply elem_of_nil in Hnil. }
  destruct (Hbefore k D _ Hk (plans_lookup_order env _ _ HkD))
    as (batches & j & Hplan & Hj & Hblock).
  exists batches, (S j). split; [done|]. split; [lia|done].
Qed.

(** X5. [runFinalSeeder] resets the schema first and once, and then inserts
    in an order that respects both the dependencies noted in the runner and
    the foreign keys of [applyAssociations]. *)
Theorem final_seeder_resets_then_respects_keys (env : Env) (d : DB) :
  (exists result rest,
      calls (runFinalSeeder env d) = EvSync Force result :: rest
      /\ Forall (fun ev => is_insert ev = true) rest
      /\ (result <> None -> rest = []))
  /\ (forall i E rows result,
        calls (runFinalSeeder env d) !! i = Some (EvInsert E rows result) ->
        forall D, D ∈ dependsOn E \/ D ∈ references E ->
          completed_in (final_plan_of env D) D i (calls (runFinalSeeder env d))).
Proof.
  pose proof (summary_after_reset env _ _ d (summary_runFinalSeeder env d)) as Hsum.
  destruct (sync_check env Force d) as [e|].
  { destruct Hsum as (_ & _ & Hcalls). rewrite Hcalls. split.
    - exists (Some e), []. by repeat split.
    - intros [|i] E rows result Hi; [discriminate|].
      by rewrite lookup_cons, lookup_nil in Hi. }
  destruct Hsum as (r & d' & evs & Hrun & _ & _ & Hcalls). rewrite Hcalls. split.
  - exists None, evs. split; [done|]. split; [|done]. by eapply exec_plans_inserts.
  - intros [|i] E rows result Hi D HD; [discriminate|]. cbn in Hi.
    destruct (exec_plans_blocks env _ _ _ _ _ Hrun _ _ _ _ Hi) as (n & p & Hn & Hbefore).
    apply final_plans_lookup in Hn as [Hn _].
    assert (exists k, k < n /\ final_order !! k = Some D) as (k & Hk & HkD).
    { destruct HD as [HD|HD].
      - assert (comes_after dependsOn [] final_order = true) as Hok by by vm_compute.
        destruct (comes_after_sound _ _ _ Hok n E Hn D HD) as [Hnil|Hk]; [|done].
        by apply elem_of_nil in Hnil.
      - assert (comes_after references [] final_order = true) as Hok by by vm_compute.
        destruct (comes_after_sound _ _ _ Hok n E Hn D HD) as [Hnil|Hk]; [|done].
        by apply elem_of_nil in Hnil. }
    destruct (Hbefore k D (final_plan_of env D) Hk) as (batches & j & Hplan & Hj & Hblock).
    { by apply final_plans_lookup. }
    exists batches, (S j). split; [done|]. split; [lia|done].
Qed.

(** X6. [runSimpleSeeders] reads no file: once the schema is reset it
    inserts its roles, then its categories, then its users, each list in one
    batch, and stops at the first batch the database rejects. The tables of
    the batches before that one hold exactly the rows of the script, every
    other table is empty, and the run resolves exactly when the three
    batches went through. *)
Theorem simple_seeder_inserts_its_own_rows (env : Env) (d : DB) :
  sync_check env Force d = None ->
  exists k,
    (k = 3 <-> outcome (runSimpleSeeders env d) = Resolved tt)
    /\ (forall j m rows,
          [ (Role, simple_roles); (Category, simple_categories); (User, simple_users) ] !! j
          = Some (m, rows) ->
          (j < k -> db (runSimpleSeeders env d) m = rows)
          /\ (k <= j -> db (runSimpleSeeders env d) m = []))
    /\ (forall m, m ∉ [Role; Category; User] -> db (runSimpleSeeders env d) m = []).
Proof.
  intros Hsync.
  pose proof (summary_after_reset env _ _ d (summary_runSimpleSeeders env d)) as Hsum.
  rewrite Hsync in Hsum. destruct Hsum as (r & d' & evs & Hrun & Herr & Hdb & _).
  rewrite Hdb.
  destruct (exec_plans_progress env _ _ _ _ _ Hrun)
    as (k & Hbefore & Hafter & Hout & Hat).
  { refine (bool_decide_unpack _ _). by vm_compute. }
  exists k. split; [|split].
  - split.
    + intros ->. apply error_of_Resolved. rewrite Herr.
      destruct r as [e|]; [|done]. destruct Hat as (m & p & Hlook & _). done.
    + intros Hres. rewrite Hres in Herr. cbn in Herr. by subst r.
  - intros j m rows Hj.
    assert (simple_plans !! j = Some (m, inr [rows])) as Hlook.
    { destruct j as [|[|[|j]]]; cbn in Hj |- *; try done; by injection Hj as <- <-. }
    split.
    + intros Hlt. destruct (Hbefore _ _ _ Hlt Hlook) as (batches & Hplan & Hm).
      injection Hplan as <-. rewrite Hm. cbn. by rewrite app_nil_r.
    + intros Hle. destruct (decide (k = j)) as [->|Hne].
      * destruct r as [e|]; [|apply lookup_lt_Some in Hlook; cbn in Hlook, Hat; lia].
        destruct Hat as (m' & p & Hlook' & Hp).
        pose proof (eq_trans (eq_sym Hlook') Hlook) as Heq. injection Heq as -> ->.
        destruct Hp as (n & rows' & Hn & ->).
        apply lookup_lt_Some in Hn. cbn in Hn. by replace n with 0 by lia.
      * apply (Hafter j m _ ltac:(lia) Hlook).
  - intros m Hm. by apply Hout.
Qed.

(** ** One record for every line *)



Lemma parse_records_total (transform : option (obj -> obj)) (text : string) :
  FinalSeeder.parse_records transform text
  = inr (List.map
           (fun line =>
              let record := FinalSeeder.record_of_line (field_names text) line in
              match transform with
              | Some f => f record
              | None => record
              end)
           (data_lines text)).
Proof.
  unfold FinalSeeder.parse_records. rewrite first_line_cells_total.
  by rewrite drop_1_tail.
Qed.



(** ** A line feed at the end of the file *)

Lemma append_String (b : ascii) (s x : string) :
  String b s +:+ x = String b (s +:+ x).
Proof. reflexivity. Qed.

Lemma append_empty (x : string) : "" +:+ x = x.
Proof. reflexivity. Qed.

Lemma strip_prefix_app (p s rest x : string) :
  strip_prefix p s = Some rest -> strip_prefix p (s +:+ x) = Some (rest +:+ x).
Proof.
  revert s. induction p as [|a p IH]; intros s Hs.
  - cbn in Hs |- *. by injection Hs as <-.
  - destruct s as [|b s]; [done|]. rewrite append_String. cbn in Hs |- *.
    destruct (Ascii.eqb a b); [by apply IH|done].
Qed.

Lemma strip_prefix_shorter (p s rest : string) :
  p <> "" -> strip_prefix p s = Some rest -> String.length rest < String.length s.
Proof.
  intros Hp. assert (forall p s rest, strip_prefix p s = Some rest ->
                       String.length rest <= String.length s) as Hle.
  { clear. induction p as [|a p IH]; intros s rest Hs.
    - destruct s; cbn in Hs; injection Hs as <-; done.
    - destruct s as [|b s]; [done|]. cbn in Hs.
      destruct (Ascii.eqb a b); [|done]. apply IH in Hs. cbn. lia. }
  destruct p as [|a p]; [done|]. destruct s as [|b s]; [done|]. cbn.
  destruct (Ascii.eqb a b); [|done]. intros Hs. apply Hle in Hs. lia.
Qed.

(** A prefix without line feed that does not start [s] does not start
    [s] followed by a line feed either. *)
Lemma strip_prefix_line_feed (p s : string) :
  count_char newline p = 0 ->
  strip_prefix p s = None -> strip_prefix p (s +:+ line_feed) = None.
Proof.
  revert s. induction p as [|a p IH]; intros s Hp Hs.
  - by destruct s.
  - cbn [count_char] in Hp. destruct (Ascii.eqb a newline) eqn:Ha; [done|].
    destruct s as [|b s].
    + rewrite append_empty. cbn. by rewrite Ha.
    + rewrite append_String. cbn in Hs |- *.
      destruct (Ascii.eqb a b); [|done]. apply IH; [lia|done].
Qed.

Lemma strip_any_empty (ws : list string) :
  Forall (fun p => p <> "" /\ (p = line_feed \/ count_char newline p = 0)) ws ->
  strip_any ws "" = None.
Proof.
  induction 1 as [|p ws [Hp _] _ IH]; [done|]. cbn. by destruct p.
Qed.

Lemma strip_any_app (ws : list string) (s rest : string) :
  Forall (fun p => p <> "" /\ (p = line_feed \/ count_char newline p = 0)) ws ->
  strip_any ws s = Some rest ->
  strip_any ws (s +:+ line_feed) = Some (rest +:+ line_feed)
  /\ String.length rest < String.length s.
Proof.
  induction 1 as [|p ws [Hp Hfeed] Hws IH]; intros Hs; [done|]. cbn [strip_any] in Hs |- *.
  destruct (strip_prefix p s) as [rest'|] eqn:Hps.
  - injection Hs as ->. rewrite (strip_prefix_app _ _ _ _ Hps).
    split; [done|]. by eapply strip_prefix_shorter.
  - assert (strip_prefix p (s +:+ line_feed) = None) as ->; [|by apply IH].
    destruct Hfeed as [->|Hfeed]; [|by apply strip_prefix_line_feed].
    destruct s as [|b s].
    + by rewrite (strip_any_empty _ Hws) in Hs.
    + rewrite append_String. cbn in Hps |- *. by destruct (Ascii.eqb newline b).
Qed.

Lemma strip_any_none_app (ws : list string) (s : string) :
  Forall (fun p => p <> "" /\ (p = line_feed \/ count_char newline p = 0)) ws ->
  s <> "" ->
  strip_any ws s = None -> strip_any ws (s +:+ line_feed) = None.
Proof.
  intros Hws Hne. induction Hws as [|p ws [Hp Hfeed] _ IH]; intros Hs; [done|].
  cbn [strip_any] in Hs |- *.
  destruct (strip_prefix p s) as [rest'|] eqn:Hps; [done|].
  assert (strip_prefix p (s +:+ line_feed) = None) as ->; [|by apply IH].
  destruct Hfeed as [->|Hfeed]; [|by apply strip_prefix_line_feed].
  destruct s as [|b s]; [done|]. rewrite append_String. cbn in Hps |- *.
  by destruct (Ascii.eqb newline b).
Qed.

Lemma white_space_entries :
  Forall (fun p => p <> "" /\ (p = line_feed \/ count_char newline p = 0)) white_space.
Proof.
  unfold white_space. cbn [List.map seq app].
  repeat (apply Forall_cons; split; [split; [discriminate|first [by left|by right]]|]).
  constructor.
Qed.

Lemma trim_fuel_line_feed (fuel : nat) :
  forall s,
    String.length s <= fuel ->
    trim_fuel white_space (S fuel) (s +:+ line_feed)
    = match trim_fuel white_space fuel s with
      | EmptyString => EmptyString
      | t => t +:+ line_feed
      end.
Proof.
  induction fuel as [fuel IH] using lt_wf_ind. intros s Hlen.
  destruct (strip_any white_space s) as [rest|] eqn:Hs.
  - destruct (strip_any_app _ _ _ white_space_entries Hs) as [Happ Hshort].
    cbn [trim_fuel]. rewrite Happ.
    destruct fuel as [|fuel]; [lia|]. cbn [trim_fuel]. rewrite Hs.
    apply IH; lia.
  - destruct s as [|b s].
    + cbn. by destruct fuel.
    + cbn [trim_fuel].
      assert (String b s <> "") as Hne by discriminate.
      rewrite (strip_any_none_app _ _ white_space_entries Hne Hs).
      destruct fuel as [|fuel]; [cbn in Hlen; lia|]. cbn [trim_fuel]. by rewrite Hs.
Qed.

Lemma string_length_app (s t : string) :
  String.length (s +:+ t) = String.length s + String.length t.
Proof.
  induction s as [|a s IH]; [done|]. rewrite append_String. cbn. by rewrite IH.
Qed.

Lemma trimStart_line_feed (s : string) :
  trimStart (s +:+ line_feed)
  = match trimStart s with
    | EmptyString => EmptyString
    | t => t +:+ line_feed
    end.
Proof.
  unfold trimStart. rewrite string_length_app. cbn [String.length line_feed].
  rewrite Nat.add_1_r. by apply trim_fuel_line_feed.
Qed.

Lemma list_ascii_app (s t : string) :
  list_ascii_of_string (s +:+ t) = list_ascii_of_string s ++ list_ascii_of_string t.
Proof.
  induction s as [|a s IH]; [done|]. rewrite append_String. cbn. by rewrite IH.
Qed.

Lemma rev_string_line_feed (t : string) :
  rev_string (t +:+ line_feed) = String newline (rev_string t).
Proof.
  unfold rev_string. rewrite list_ascii_app, rev_app_distr. reflexivity.
Qed.

Lemma rev_string_length (t : string) : String.length (rev_string t) = String.length t.
Proof.
  unfold rev_string.
  assert (forall l, String.length (string_of_list_ascii l) = length l) as Hlen.
  { induction l as [|a l IH]; cbn; [done|by rewrite IH]. }
  assert (forall s, length (list_ascii_of_string s) = String.length s) as Hlen'.
  { induction s as [|a s IH]; cbn; [done|by rewrite IH]. }
  by rewrite Hlen, length_rev, Hlen'.
Qed.

Lemma trimEnd_line_feed (t : string) : trimEnd (t +:+ line_feed) = trimEnd t.
Proof.
  unfold trimEnd. rewrite rev_string_line_feed, string_length_app.
  cbn [String.length line_feed]. rewrite Nat.add_1_r. reflexivity.
Qed.

(** [trim] removes a line feed that ends the text. *)
Lemma trim_line_feed (text : string) : trim (text +:+ line_feed) = trim text.
Proof.
  unfold trim. rewrite trimStart_line_feed.
  destruct (trimStart text) as [|a t] eqn:Ht; [done|].
  apply trimEnd_line_feed.
Qed.

(** X8. A line feed at the end of a file adds no record: the three parsers
    read the text with and without it alike. *)
Theorem final_line_feed_adds_no_record (env : Env) (text : string) :
  (forall transform,
      FinalSeeder.parse_records transform (text +:+ line_feed)
      = FinalSeeder.parse_records transform text)
  /\ parse_addresses env (text +:+ line_feed) = parse_addresses env text
  /\ parse_orderDetails env (text +:+ line_feed) = parse_orderDetails env text.
Proof.
  split; [|split].
  - intros transform. unfold FinalSeeder.parse_records. by rewrite trim_line_feed.
  - unfold parse_addresses. by rewrite trim_line_feed.
  - unfold parse_orderDetails. by rewrite trim_line_feed.
Qed.

(** X9. The subtotal of a seeded order item is not the subtotal of the file:
    [createShoppingCart] computes it again as price times quantity, from
    the price that [seedOrderDetails] computed as subtotal by amount. The
    two roundings do not always give the subtotal back: a row with subtotal
    1 and amount 49 is stored with the subtotal [1 - 2^-53]. *)
Theorem cart_subtotal_is_computed_again (env : Env) (orderId : value) :
  (forall detail,
      order_item env orderId (cart_item env detail) !! "subtotal"
      = Some (js_mul env (js_div env (get detail "subtotal") (get detail "amount"))
                         (get detail "amount")))
  /\ (forall detail,
        get detail "subtotal" = VNum (of_Z 1) ->
        get detail "amount" = VNum (of_Z 49) ->
        order_item env orderId (cart_item env detail) !! "subtotal"
        = Some (VNum (S754_finite false 9007199254740991 (-53)))).
Proof.
  assert (forall detail,
             order_item env orderId (cart_item env detail) !! "subtotal"
             = Some (js_mul env (js_div env (get detail "subtotal") (get detail "amount"))
                                (get detail "amount"))) as Hsub.
  { intros detail. unfold order_item. lookup_through.
    unfold get at 1 2.
    rewrite (cart_item_lookup env detail "price"), (cart_item_lookup env detail "quantity").
    reflexivity. }
  split; [done|].
  intros detail Hsubtotal Hamount. rewrite Hsub, Hsubtotal, Hamount.
  unfold js_mul, js_div. cbn [to_number].
  apply (f_equal (fun x => Some (VNum x))). vm_compute. reflexivity.
Qed.

(** ** The typed columns *)



(** ** The carts of the order details *)




(** ** The order of the carts *)

Lemma insert_by_index_ascending {A : Type} (entry : string * A) (sorted : list (string * A)) :
  ascending sorted -> ascending (insert_by_index entry sorted).
Proof.
  induction sorted as [|e rest IH]; intros Hsorted; [by split|].
  destruct Hsorted as [Hrest Hsorted]. cbn [insert_by_index].
  destruct (index_or_zero (fst entry) <? index_or_zero (fst e))%N eqn:Hlt.
  - apply N.ltb_lt in Hlt. split; [|by split].
    apply Forall_cons. split; [lia|].
    eapply Forall_impl; [exact Hrest|]. cbn. intros later Hlater. lia.
  - apply N.ltb_ge in Hlt. split; [|by apply IH].
    rewrite (insert_by_index_Permutation entry rest). by apply Forall_cons.
Qed.

Lemma sort_by_index_ascending {A : Type} (entries : list (string * A)) :
  ascending (sort_by_index entries).
Proof.
  induction entries as [|entry entries IH]; [done|].
  by apply insert_by_index_ascending.
Qed.

Lemma ascending_lookup {A : Type} (entries : list (string * A)) :
  ascending entries ->
  forall i j a b,
    i < j -> entries !! i = Some a -> entries !! j = Some b ->
    (index_or_zero (fst a) <= index_or_zero (fst b))%N.
Proof.
  induction entries as [|e rest IH]; intros Hs i j a b Hij Hi Hj; [done|].
  destruct Hs as [Hrest Hsorted]. destruct j as [|j]; [lia|]. cbn in Hj. destruct i as [|i]; cbn in Hi.
  - injection Hi as ->. rewrite Forall_forall in Hrest. apply Hrest.
    by eapply list_elem_of_lookup_2.
  - apply (IH Hsorted i j); [lia|done|done].
Qed.

(** *** A key names one integer only *)

Lemma digit_of_inj (c c' : ascii) (n : N) :
  digit_of c = Some n -> digit_of c' = Some n -> c = c'.
Proof.
  unfold digit_of. intros Hc Hc'.
  destruct ((48 <=? N_of_ascii c)%N && (N_of_ascii c <=? 57)%N) eqn:H1; [|done].
  destruct ((48 <=? N_of_ascii c')%N && (N_of_ascii c' <=? 57)%N) eqn:H2; [|done].
  apply andb_prop in H1 as [H1 _]. apply andb_prop in H2 as [H2 _].
  apply N.leb_le in H1, H2. injection Hc as Hc. injection Hc' as Hc'.
  rewrite <- (ascii_N_embedding c), <- (ascii_N_embedding c'). f_equal. lia.
Qed.

Lemma digit_of_bound (c : ascii) (n : N) : digit_of c = Some n -> (n < 10)%N.
Proof.
  unfold digit_of.
  destruct ((48 <=? N_of_ascii c)%N && (N_of_ascii c <=? 57)%N) eqn:H1; [|done].
  apply andb_prop in H1 as [H1 H2]. apply N.leb_le in H1, H2.
  intros [= <-]. lia.
Qed.

(** The value of a numeral read after [acc]. *)
Lemma digits_value_bounds (s : string) :
  forall acc n,
    digits_value s acc = Some n ->
    (acc * 10 ^ N.of_nat (String.length s) <= n
     < (acc + 1) * 10 ^ N.of_nat (String.length s))%N.
Proof.
  induction s as [|c s IH]; intros acc n Hn.
  - cbn in Hn. injection Hn as <-. cbn. lia.
  - cbn [digits_value] in Hn. destruct (digit_of c) as [dc|] eqn:Hc; [|done].
    apply digit_of_bound in Hc. apply IH in Hn.
    cbn [String.length]. rewrite Nat2N.inj_succ, N.pow_succ_r'.
    destruct Hn as [Hlow Hhigh]. split.
    + eapply N.le_trans; [|exact Hlow]. nia.
    + eapply N.lt_le_trans; [exact Hhigh|]. nia.
Qed.

Lemma digits_value_inj (s : string) :
  forall s' acc acc' n,
    String.length s = String.length s' ->
    digits_value s acc = Some n -> digits_value s' acc' = Some n ->
    s = s' /\ acc = acc'.
Proof.
  induction s as [|c s IH]; intros [|c' s'] acc acc' n Hlen Hs Hs'; try done.
  - cbn in Hs, Hs'. by injection Hs as <-; injection Hs' as <-.
  - cbn [digits_value] in Hs, Hs'.
    destruct (digit_of c) as [dc|] eqn:Hc; [|done].
    destruct (digit_of c') as [dc'|] eqn:Hc'; [|done].
    cbn in Hlen. injection Hlen as Hlen.
    destruct (IH _ _ _ _ Hlen Hs Hs') as [-> Hacc].
    pose proof (digit_of_bound _ _ Hc). pose proof (digit_of_bound _ _ Hc').
    assert (dc = dc' /\ acc = acc') as [-> ->] by lia.
    split; [|done]. f_equal. by eapply digit_of_inj.
Qed.

Lemma pow10_mono (a b : nat) : a < b -> (10 * 10 ^ N.of_nat a <= 10 ^ N.of_nat b)%N.
Proof.
  intros Hab. rewrite <- N.pow_succ_r', <- Nat2N.inj_succ.
  apply N.pow_le_mono_r; lia.
Qed.

Lemma array_index_inj (s s' : string) (n : N) :
  array_index s = Some n -> array_index s' = Some n -> s = s'.
Proof.
  assert (forall s n, array_index s = Some n ->
            digits_value s 0 = Some n
            /\ exists c rest, s = String c rest
                 /\ (rest = "" \/ exists d, digit_of c = Some d /\ (0 < d)%N)) as Hshape.
  { clear. intros s n Hs. unfold array_index in Hs.
    destruct s as [|c rest]; [done|].
    assert (digits_value (String c rest) 0 = Some n) as Hv.
    { destruct (digits_value (String c rest) 0) as [v|] eqn:Hv.
      - destruct c as [[] [] [] [] [] [] [] []]; destruct rest;
          try done; by destruct (v <? 4294967295)%N; [injection Hs as ->|].
      - by destruct c as [[] [] [] [] [] [] [] []]; destruct rest. }
    split; [done|]. exists c, rest. split; [done|].
    destruct rest as [|c' rest']; [by left|]. right.
    cbn [digits_value] in Hv. destruct (digit_of c) as [d|] eqn:Hd; [|done].
    exists d. split; [done|].
    destruct (decide (d = 0%N)) as [->|]; [|lia]. exfalso.
    assert (c = "0"%char) as ->.
    { apply (digit_of_inj _ _ 0%N Hd). reflexivity. }
    done. }
  intros Hs Hs'.
  destruct (Hshape _ _ Hs) as (Hv & c & rest & -> & Hlead).
  destruct (Hshape _ _ Hs') as (Hv' & c' & rest' & -> & Hlead').
  assert (String.length (String c rest) = String.length (String c' rest')) as Hlen.
  { assert (forall c rest n,
               digits_value (String c rest) 0 = Some n ->
               (rest = "" \/ exists d, digit_of c = Some d /\ (0 < d)%N) ->
               (n < 10 ^ N.of_nat (S (String.length rest))
                /\ (rest <> "" -> 10 ^ N.of_nat (String.length rest) <= n))%N) as Hrange.
    { clear. intros c rest n Hv Hlead.
      pose proof (digits_value_bounds _ _ _ Hv) as [_ Hhigh]. cbn [String.length] in Hhigh.
      split; [lia|]. intros Hrest. destruct Hlead as [->|(d & Hd & Hpos)]; [done|].
      cbn [digits_value] in Hv. rewrite Hd in Hv.
      apply digits_value_bounds in Hv as [Hlow _]. nia. }
    destruct (Hrange _ _ _ Hv Hlead) as [Hhigh Hlow].
    destruct (Hrange _ _ _ Hv' Hlead') as [Hhigh' Hlow'].
    cbn [String.length]. f_equal.
    destruct (decide (String.length rest = String.length rest')) as [|Hne]; [done|].
    exfalso.
    assert (String.length rest < String.length rest'
            \/ String.length rest' < String.length rest) as [Hlt|Hlt] by lia.
    - pose proof (pow10_mono _ _ Hlt) as Hpow.
      rewrite Nat2N.inj_succ, N.pow_succ_r' in Hhigh.
      assert (rest' <> "") as Hrest' by (intros ->; cbn in Hlt; lia).
      specialize (Hlow' Hrest'). lia.
    - pose proof (pow10_mono _ _ Hlt) as Hpow.
      rewrite Nat2N.inj_succ, N.pow_succ_r' in Hhigh'.
      assert (rest <> "") as Hrest by (intros ->; cbn in Hlt; lia).
      specialize (Hlow Hrest). lia. }
  by destruct (digits_value_inj _ _ _ _ _ Hlen Hv Hv').
Qed.

Lemma is_index_Some {A : Type} (entry : string * A) :
  is_index entry = true <-> exists n, array_index (fst entry) = Some n.
Proof.
  unfold is_index. destruct (array_index (fst entry)) as [n|]; split; try done; eauto.
  by intros [n Hn].
Qed.

(** In [Object.entries] the keys that are array indices come first, in
    ascending order. *)
Lemma object_entries_ascending {A : Type} (o : list (string * A)) :
  forall i j a b n,
    i < j ->
    object_entries o !! i = Some a -> object_entries o !! j = Some b ->
    array_index (fst b) = Some n ->
    exists n', array_index (fst a) = Some n' /\ (n' <= n)%N.
Proof.
  intros i j a b n Hij Hi Hj Hb. unfold object_entries in Hi, Hj.
  set (indexed := sort_by_index (List.filter is_index o)) in *.
  assert (Forall (fun e => is_index e = true) indexed) as Hindexed.
  { unfold indexed. rewrite sort_by_index_Permutation.
    apply Forall_forall. intros e He. apply list_elem_of_In in He.
    by apply filter_In in He as [_ He]. }
  assert (j < length indexed) as Hjlen.
  { destruct (decide (j < length indexed)) as [|Hge]; [done|]. exfalso.
    rewrite lookup_app_r in Hj by lia.
    apply list_elem_of_lookup_2, list_elem_of_In, filter_In in Hj as [_ Hj].
    assert (is_index b = true) as Hb' by (apply is_index_Some; eauto).
    by rewrite Hb' in Hj. }
  rewrite lookup_app_l in Hi by lia. rewrite lookup_app_l in Hj by lia.
  pose proof (Forall_lookup_1 _ _ _ _ Hindexed Hi) as Ha.
  apply is_index_Some in Ha as [n' Hn']. exists n'. split; [done|].
  pose proof (ascending_lookup _ (sort_by_index_ascending _) i j a b Hij Hi Hj) as Hle.
  unfold index_or_zero in Hle. by rewrite Hn', Hb in Hle.
Qed.

(** X12. [seedOrderDetails] creates the carts in the order of
    [Object.entries], not in the order of the file: a cart whose key is an
    array index (the decimal numeral of an integer from 0 to 2^32 - 2) is
    created after every cart with a smaller such key and before every cart
    with another kind of key, wherever its rows stand in the file. *)
Theorem carts_are_created_in_ascending_order (env : Env) (orderDetails : list obj)
    (i j : nat) (key key' : string) (products products' : list obj) (n : N) :
  i < j ->
  object_entries (group_by_order env orderDetails) !! i = Some (key, products) ->
  object_entries (group_by_order env orderDetails) !! j = Some (key', products') ->
  array_index key' = Some n ->
  exists n', array_index key = Some n' /\ (n' < n)%N.
Proof.
  intros Hij Hi Hj Hn.
  destruct (object_entries_ascending _ _ _ _ _ _ Hij Hi Hj Hn) as (n' & Hn' & Hle).
  exists n'. split; [done|].
  destruct (decide (n' = n)) as [->|Hne]; [|lia]. exfalso.
  cbn in Hn'. pose proof (array_index_inj _ _ _ Hn' Hn) as ->.
  pose proof (group_by_order_NoDup env orderDetails) as Hnodup.
  rewrite <- (object_entries_Permutation (group_by_order env orderDetails)) in Hnodup.
  assert (i = j); [|lia].
  eapply NoDup_lookup; [exact Hnodup| |].
  - change (List.map fst ?l !! i) with ((fst <$> l) !! i).
    by rewrite list_lookup_fmap, Hi.
  - change (List.map fst ?l !! j) with ((fst <$> l) !! j).
    by rewrite list_lookup_fmap, Hj.
Qed.

(** ** The rows that reach the ORM *)

Section Rows.

Variable env : Env.

(** Every insert call of a sequence of plans hands over a batch of the
    plan of its model. *)
Lemma exec_plans_rows (ps : list (Model * Plan)) :
  forall d r d' evs,
    exec_plans env ps d = (r, d', evs) ->
    forall m rows result,
      EvInsert m rows result ∈ evs ->
      exists batches, (m, inr batches) ∈ ps /\ rows ∈ batches.
Proof.
  induction ps as [|[m0 p0] ps IH]; intros d r d' evs Hrun m rows result Hev.
  - injection Hrun as _ _ <-. by apply elem_of_nil in Hev.
  - rewrite exec_plans_cons in Hrun. unfold and_then in Hrun.
    destruct (exec_plan env d m0 p0) as [[r1 d1] evs1] eqn:Hfirst.
    assert (EvInsert m rows result ∈ evs1 ->
            exists batches, (m, inr batches) ∈ (m0, p0) :: ps /\ rows ∈ batches) as Hhere.
    { intros Hin. destruct p0 as [e|batches]; cbn [exec_plan] in Hfirst.
      - injection Hfirst as _ _ <-. by apply elem_of_nil in Hin.
      - destruct (insert_all_rows _ _ _ _ _ _ _ Hfirst _ _ _ Hin) as [-> Hrows].
        exists batches. split; [apply list_elem_of_here|done]. }
    destruct r1 as [e|].
    + injection Hrun as _ _ <-. by apply Hhere.
    + destruct (exec_plans env ps d1) as [[r2 d2] evs2] eqn:Hrest.
      injection Hrun as _ _ <-. apply elem_of_app in Hev as [Hev|Hev]; [by apply Hhere|].
      destruct (IH _ _ _ _ Hrest _ _ _ Hev) as (batches & Hin & Hrows).
      exists batches. split; [by apply list_elem_of_further|done].
Qed.

(** The rows [runSeeders] hands to the ORM are those of the plans. *)
Lemma runSeeders_rows (d : DB) (m : Model) (rows : list obj) (result : option Err) :
  EvInsert m rows result ∈ calls (runSeeders env d) ->
  exists batches, plan_of env m = inr batches /\ rows ∈ batches.
Proof.
  intros Hev. pose proof (runSeeders_summary env d) as Hsum.
  destruct (sync_check env Force d) as [e|].
  { apply summary_eq in Hsum as (_ & _ & Hcalls). rewrite Hcalls in Hev.
    apply list_elem_of_singleton in Hev. done. }
  destruct (exec_plans env (plans env) empty_db) as [[r d'] evs] eqn:Hrun.
  apply summary_eq in Hsum as (_ & _ & Hcalls). rewrite Hcalls in Hev.
  apply elem_of_cons in Hev as [Hev|Hev]; [done|].
  destruct (exec_plans_rows _ _ _ _ _ Hrun _ _ _ Hev) as (batches & Hin & Hrows).
  exists batches. split; [|done].
  apply list_elem_of_lookup_1 in Hin as [n Hn]. by apply plans_lookup in Hn as [_ <-].
Qed.

Lemma stream_plan_rows (csvPath : string) (prepare : obj -> obj)
    (batches : list (list obj)) (rows : list obj) (row : obj) :
  stream_plan env csvPath prepare = inr batches -> rows ∈ batches -> row ∈ rows ->
  exists sources source,
    csv_stream env csvPath = inr sources /\ source ∈ sources /\ row = prepare source.
Proof.
  unfold stream_plan. destruct (csv_stream env csvPath) as [e|sources]; [done|].
  intros [= <-] Hrows Hrow. unfold singletons in Hrows.
  apply list_elem_of_fmap in Hrows as (record & -> & Hrecord).
  apply list_elem_of_singleton in Hrow as ->.
  apply list_elem_of_fmap in Hrecord as (source & -> & Hsource).
  by exists sources, source.
Qed.

End Rows.

Lemma name_and_active_fields (data : obj) (name : string) :
  name_and_active data !! name
  = if String.eqb name "name" then Some (get data "name")
    else if String.eqb name "is_active"
    then Some (nullish (get data "is_active") (VBool true))
    else None.
Proof.
  unfold name_and_active.
  destruct (String.eqb name "name") eqn:Hname.
  - apply String.eqb_eq in Hname as ->. by rewrite lookup_insert_eq.
  - apply String.eqb_neq in Hname. rewrite lookup_insert_ne by done.
    destruct (String.eqb name "is_active") eqn:Hactive.
    + apply String.eqb_eq in Hactive as ->. by rewrite lookup_insert_eq.
    + apply String.eqb_neq in Hactive. by rewrite lookup_insert_ne.
Qed.

Lemma name_and_active_flag (data : obj) :
  name_and_active data !! "is_active"
  = Some (nullish (get data "is_active") (VBool true)).
Proof. by rewrite name_and_active_fields. Qed.

Lemma nullish_not_null (v : value) :
  nullish v (VBool true) <> VUndefined /\ nullish v (VBool true) <> VNull.
Proof. by destruct v. Qed.

Lemma coerce_is_active_lookup (row : obj) :
  coerce_is_active row !! "is_active"
  = Some (VBool (strict_eq_str (get row "is_active") "true")).
Proof. unfold coerce_is_active, set. cbn. by rewrite lookup_insert_eq. Qed.

(** X13. No seeded flag is null. Every row that [runSeeders] hands to the ORM
    for roles, genders, categories, payment methods, banks and accesses has
    a boolean [is_active], whatever the file holds; every row for countries,
    departments and cities has an [is_active] that is neither [undefined]
    nor [null]; and the rows for roles, banks, countries, departments and
    cities have no other field than [name] and [is_active]. *)
Theorem seeded_flags_are_never_null (env : Env) (d : DB) (m : Model)
    (rows : list obj) (result : option Err) (row : obj) :
  EvInsert m rows result ∈ calls (runSeeders env d) ->
  row ∈ rows ->
  (m ∈ [Role; Gender; Category; PaymentMethod; Bank; Access] ->
   exists b, row !! "is_active" = Some (VBool b))
  /\ (m ∈ [Country; Department; City] ->
      exists v, row !! "is_active" = Some v /\ v <> VUndefined /\ v <> VNull)
  /\ (m ∈ [Role; Bank; Country; Department; City] ->
      forall name, is_Some (row !! name) <-> name = "name" \/ name = "is_active").
Proof.
  intros Hev Hrow.
  destruct (runSeeders_rows env _ _ _ _ Hev) as (batches & Hplan & Hrows).
  assert (forall data name,
            is_Some (name_and_active data !! name) <-> name = "name" \/ name = "is_active")
    as Hdom.
  { intros data name. rewrite name_and_active_fields.
    destruct (String.eqb name "name") eqn:Hname.
    - apply String.eqb_eq in Hname. split; [by left|by eexists].
    - apply String.eqb_neq in Hname.
      destruct (String.eqb name "is_active") eqn:Hactive.
      + apply String.eqb_eq in Hactive. split; [by right|by eexists].
      + apply String.eqb_neq in Hactive. split; [by intros []|by intros [|]]. }
  split; [|split]; intros Hm; apply list_elem_of_In in Hm; cbn in Hm;
    repeat (destruct Hm as [<-|Hm]); try done;
    cbn [plan_of] in Hplan;
    destruct (stream_plan_rows env _ _ _ _ _ Hplan Hrows Hrow) as (srcs & src & _ & _ & ->);
    try apply Hdom.
  - rewrite name_and_active_flag, coerce_is_active_boolean. cbn [nullish]. eauto.
  - rewrite coerce_is_active_lookup. eauto.
  - rewrite coerce_is_active_lookup. eauto.
  - rewrite coerce_is_active_lookup. eauto.
  - rewrite name_and_active_flag, coerce_is_active_boolean. cbn [nullish]. eauto.
  - unfold access_row, set. cbn [String.eqb Ascii.eqb Bool.eqb].
    rewrite lookup_insert_ne by done. rewrite coerce_is_active_lookup. eauto.
  - rewrite name_and_active_flag. eexists. split; [done|]. apply nullish_not_null.
  - rewrite name_and_active_flag. eexists. split; [done|]. apply nullish_not_null.
  - rewrite name_and_active_flag. eexists. split; [done|]. apply nullish_not_null.
Qed.


(** ** The fields of a product *)

Lemma product_row_get (env : Env) (source : obj) (name : string) :
  name <> "price" -> name <> "stock" -> name <> "category_id" -> name <> "categoryId" ->
  get (product_row env source) name = get source name.
Proof.
  intros. unfold product_row, set, remove, get. cbn [String.eqb Ascii.eqb Bool.eqb].
  by lookup_through.
Qed.

(** X14. A product row reaches the ORM with exactly the six fields that
    [createProduct] copies: the category is read from the column
    [categoryId] of the file (a column named [category_id] is ignored), the
    price and the stock are the integers [parseInt] reads, an absent
    [is_active] becomes [true], and every other column is dropped. *)
Theorem seeded_products_have_six_fields (env : Env) (d : DB) (rows : list obj)
    (result : option Err) (row : obj) :
  EvInsert Product rows result ∈ calls (runSeeders env d) ->
  row ∈ rows ->
  exists sources source,
    csv_stream env "src/docs/data/products.csv" = inr sources
    /\ source ∈ sources
    /\ (forall name,
          is_Some (row !! name)
          <-> name ∈ ["category_id"; "name"; "price"; "description"; "stock"; "is_active"])
    /\ row !! "category_id" = Some (parseInt env (get source "categoryId"))
    /\ row !! "price" = Some (parseInt env (get source "price"))
    /\ row !! "stock" = Some (parseInt env (get source "stock"))
    /\ row !! "name" = Some (get source "name")
    /\ row !! "description" = Some (get source "description")
    /\ row !! "is_active" = Some (nullish (get source "is_active") (VBool true)).
Proof.
  intros Hev Hrow.
  destruct (runSeeders_rows env _ _ _ _ Hev) as (batches & Hplan & Hrows).
  cbn [plan_of] in Hplan.
  destruct (stream_plan_rows env _ _ _ _ _ Hplan Hrows Hrow)
    as (sources & source & Hstream & Hsource & ->).
  exists sources, source. split; [done|]. split; [done|].
  split; [|repeat split].
  - intros name. unfold product_fields. split.
    + intros Hsome.
      destruct (decide (name = "category_id")) as [->|]; [set_solver|].
      destruct (decide (name = "name")) as [->|]; [set_solver|].
      destruct (decide (name = "price")) as [->|]; [set_solver|].
      destruct (decide (name = "description")) as [->|]; [set_solver|].
      destruct (decide (name = "stock")) as [->|]; [set_solver|].
      destruct (decide (name = "is_active")) as [->|]; [set_solver|].
      revert Hsome. lookup_through. by intros [].
    + intros Hname. apply list_elem_of_In in Hname. cbn in Hname.
      repeat (destruct Hname as [<-|Hname]); try done; lookup_through; by eexists.
  - unfold product_fields. lookup_through. f_equal.
    unfold product_row, set, remove, get. cbn [String.eqb Ascii.eqb Bool.eqb].
    by lookup_through.
  - unfold product_fields. lookup_through. f_equal.
    unfold product_row, set, remove, get. cbn [String.eqb Ascii.eqb Bool.eqb].
    by lookup_through.
  - unfold product_fields. lookup_through. f_equal.
    unfold product_row, set, remove, get. cbn [String.eqb Ascii.eqb Bool.eqb].
    by lookup_through.
  - unfold product_fields. lookup_through. f_equal. by apply product_row_get.
  - unfold product_fields. lookup_through. f_equal. by apply product_row_get.
  - unfold product_fields. lookup_through. f_equal. f_equal. by apply product_row_get.
Qed.

(** ** Files that cannot be read *)

(** The three parts of a run of two tasks in sequence, and of a task
    whose error is logged and thrown again. *)
Lemma outcome_bind {A B : Type} (first : Task A) (next : A -> Task B) (d : DB) :
  outcome ((a ← first; next a) d)
  = match outcome (first d) with
    | Resolved a => outcome (next a (db (first d)))
    | Rejected e => Rejected e
    end.
Proof. unfold mbind, Task_bind. by destruct (outcome (first d)). Qed.

Lemma calls_bind {A B : Type} (first : Task A) (next : A -> Task B) (d : DB) :
  calls ((a ← first; next a) d)
  = calls (first d)
    ++ match outcome (first d) with
       | Resolved a => calls (next a (db (first d)))
       | Rejected _ => []
       end.
Proof.
  unfold mbind, Task_bind. destruct (outcome (first d)); cbn; by rewrite ?app_nil_r.
Qed.

Lemma console_bind {A B : Type} (first : Task A) (next : A -> Task B) (d : DB) :
  console ((a ← first; next a) d)
  = console (first d)
    ++ match outcome (first d) with
       | Resolved a => console (next a (db (first d)))
       | Rejected _ => []
       end.
Proof.
  unfold mbind, Task_bind. destruct (outcome (first d)); cbn; by rewrite ?app_nil_r.
Qed.

Lemma outcome_rethrow (body : Task unit) (text : string) (d : DB) :
  outcome (try_catch body (fun error => console_log (LogError text error);; throw error) d)
  = outcome (body d).
Proof. unfold try_catch. by destruct (outcome (body d)) as [[]|e] eqn:Hbody. Qed.

Lemma calls_rethrow (body : Task unit) (text : string) (d : DB) :
  calls (try_catch body (fun error => console_log (LogError text error);; throw error) d)
  = calls (body d).
Proof.
  unfold try_catch. destruct (outcome (body d)) as [[]|e]; [done|]. cbn.
  by rewrite app_nil_r.
Qed.

Lemma console_rethrow (body : Task unit) (text : string) (d : DB) :
  console (try_catch body (fun error => console_log (LogError text error);; throw error) d)
  = console (body d)
    ++ match outcome (body d) with
       | Resolved _ => []
       | Rejected e => [LogError text e]
       end.
Proof.
  unfold try_catch. destruct (outcome (body d)) as [[]|e]; [by rewrite app_nil_r|done].
Qed.


(** ** The columns [runFinalSeeder] keeps *)

Lemma runFinalSeeder_rows (env : Env) (d : DB) (m : Model) (rows : list obj)
    (result : option Err) :
  EvInsert m rows result ∈ calls (runFinalSeeder env d) ->
  exists batches, final_plan_of env m = inr batches /\ rows ∈ batches.
Proof.
  intros Hev.
  pose proof (summary_after_reset env _ _ d (summary_runFinalSeeder env d)) as Hsum.
  destruct (sync_check env Force d) as [e|].
  { destruct Hsum as (_ & _ & Hcalls). rewrite Hcalls in Hev.
    by apply list_elem_of_singleton in Hev. }
  destruct Hsum as (r & d' & evs & Hrun & _ & _ & Hcalls). rewrite Hcalls in Hev.
  apply elem_of_cons in Hev as [Hev|Hev]; [done|].
  destruct (exec_plans_rows _ _ _ _ _ _ Hrun _ _ _ Hev) as (batches & Hin & Hrows).
  exists batches. split; [|done].
  apply list_elem_of_lookup_1 in Hin as [n Hn].
  by apply final_plans_lookup in Hn as [_ <-].
Qed.

Lemma bulk_plan_rows (env : Env) (path : string) (f : obj -> obj)
    (batches : list (list obj)) (rows : list obj) (row : obj) :
  bulk_plan env path (Some f) = inr batches -> rows ∈ batches -> row ∈ rows ->
  exists text line,
    readFileSync env path = inr text
    /\ line ∈ data_lines text
    /\ row = f (FinalSeeder.record_of_line (field_names text) line).
Proof.
  unfold bulk_plan, file_plan. destruct (readFileSync env path) as [e|text]; [done|].
  rewrite parse_records_total. intros [= <-] Hrows Hrow.
  apply list_elem_of_singleton in Hrows as ->.
  apply list_elem_of_fmap in Hrow as (line & -> & Hline). by exists text, line.
Qed.

Lemma last_position_None (name : string) (names : list string) :
  name ∉ names -> last_position name names = None.
Proof.
  intros Hname. unfold last_position.
  assert (last_where (fun header => String.eqb header name) names 0 = None) as ->; [|done].
  apply last_where_None. intros h Hh. apply String.eqb_neq. by intros ->.
Qed.

Lemma last_position_Some (name : string) (names : list string) :
  name ∈ names -> is_Some (last_position name names).
Proof.
  intros Hname. unfold last_position.
  destruct (last_where (fun header => String.eqb header name) names 0) as [found|] eqn:Hlast;
    [by eexists|].
  exfalso. rewrite last_where_None in Hlast. specialize (Hlast _ Hname).
  by rewrite String.eqb_refl in Hlast.
Qed.

(** X16. [runFinalSeeder] does not rename the columns of the files. An
    address row reaches the ORM with the key [departament_id] of the file,
    and without [department_id] unless the file has a column of that name,
    so that the not-null rule on [Address.department_id] refuses it. A
    product row gets its [category_id] from the column [categoryId], which
    it keeps; without such a column every product gets [parseInt(undefined)]
    as its category. *)
Theorem final_seeder_keeps_the_file_columns (env : Env) (d : DB) (m : Model)
    (rows : list obj) (result : option Err) (row : obj) :
  EvInsert m rows result ∈ calls (runFinalSeeder env d) ->
  row ∈ rows ->
  (m = Address ->
   exists text,
     readFileSync env "src/docs/data/addresses.csv" = inr text
     /\ is_Some (row !! "departament_id")
     /\ ("department_id" ∉ field_names text ->
         row !! "department_id" = None
         /\ address_not_null row = Some (NotNullViolation "Address.department_id")))
  /\ (m = Product ->
      exists text,
        readFileSync env "src/docs/data/products.csv" = inr text
        /\ ("categoryId" ∈ field_names text -> is_Some (row !! "categoryId"))
        /\ ("categoryId" ∉ field_names text ->
            row !! "category_id" = Some (parseInt env VUndefined))).
Proof.
  intros Hev Hrow.
  destruct (runFinalSeeder_rows env _ _ _ _ Hev) as (batches & Hplan & Hrows).
  split; intros ->; cbn [final_plan_of] in Hplan;
    destruct (bulk_plan_rows env _ _ _ _ _ Hplan Hrows Hrow)
      as (text & line & Hread & Hline & ->);
    exists text; (split; [done|]).
  - split.
    + unfold final_address_row. lookup_through. by eexists.
    + intros Hnone.
      assert (final_address_row env
                (FinalSeeder.record_of_line (field_names text) line) !! "department_id"
              = None) as Hlook.
      { unfold final_address_row. lookup_through.
        rewrite record_of_line_lookup. cbn [String.eqb Ascii.eqb Bool.eqb].
        by rewrite last_position_None. }
      split; [done|]. unfold address_not_null, get. by rewrite Hlook.
  - split.
    + intros Hsome. unfold final_product_row. lookup_through.
      rewrite record_of_line_lookup. cbn [String.eqb Ascii.eqb Bool.eqb].
      destruct (last_position_Some _ _ Hsome) as [i ->]. by eexists.
    + intros Hnone. unfold final_product_row. lookup_through. do 2 f_equal.
      unfold get. rewrite record_of_line_lookup. cbn [String.eqb Ascii.eqb Bool.eqb].
      by rewrite last_position_None.
Qed.

(** ** The counts on the console *)

Lemma concat_singletons (records : list obj) : concat (singletons records) = records.
Proof.
  induction records as [|r records IH]; [done|].
  change (concat (singletons (r :: records))) with (r :: concat (singletons records)).
  by rewrite IH.
Qed.

Lemma counted_plans_insert_row_by_row (env : Env) (m : Model) (what : string)
    (batches : list (list obj)) :
  count_label m = Some what -> plan_of env m = inr batches ->
  exists records, batches = singletons records.
Proof.
  intros Hlabel Hplan.
  assert (forall path prepare,
             stream_plan env path prepare = inr batches ->
             exists records, batches = singletons records) as Hstream.
  { intros path prepare. unfold stream_plan.
    destruct (csv_stream env path) as [e|rows]; [done|]. intros [= <-]. eauto. }
  destruct m; cbn [count_label] in Hlabel; try done; cbn [plan_of] in Hplan;
    try exact (Hstream _ _ Hplan).
  exists sample_orders. congruence.
Qed.

(** X17. The count a seeder logs is the number of rows it inserted. When one
    of the thirteen seeders that log a count resolves, the number on its
    line of success is the number of its insert calls, each of one row, and
    the number of rows its table gained. When [seedFromCSV] resolves, the
    only line it writes gives the number of records of its single batch,
    by which its table grew. *)
Theorem logged_count_is_the_number_of_rows (env : Env) (d : DB) :
  (forall m task what,
      (m, task) ∈ seeders env ->
      count_label m = Some what ->
      outcome (task d) = Resolved tt ->
      exists n,
        LogCount n what ∈ console (task d)
        /\ length (calls (task d)) = n
        /\ Forall (fun call => exists row, call = EvInsert m [row] None) (calls (task d))
        /\ length (db (task d) m) = length (d m) + n)
  /\ (forall model filename transform,
        outcome (FinalSeeder.seedFromCSV env model filename transform d) = Resolved tt ->
        exists records,
          console (FinalSeeder.seedFromCSV env model filename transform d)
          = [LogCount (length records) (FinalSeeder.model_name model +:+ " records created")]
          /\ calls (FinalSeeder.seedFromCSV env model filename transform d)
             = [EvInsert model records None]
          /\ db (FinalSeeder.seedFromCSV env model filename transform d) model
             = d model ++ records).
Proof.
  split.
  - intros m task what Hin Hlabel Hres.
    pose proof (seeders_follow_plans env) as Hplans. rewrite Forall_forall in Hplans.
    pose proof (Hplans _ Hin d) as Hsum. cbn in Hsum.
    pose proof (seeders_write_success_line env) as Hlines. rewrite Forall_forall in Hlines.
    destruct (Hlines _ Hin d Hres) as (msg & Hline & Hmsg).
    unfold summary in Hsum. rewrite Hres in Hsum. cbn [error_of] in Hsum. symmetry in Hsum.
    destruct (exec_plan_ok env _ _ _ _ _ Hsum) as (batches & Hplan & Hdb & Hcalls).
    destruct (counted_plans_insert_row_by_row env m what batches Hlabel Hplan)
      as [records ->].
    assert (msg = LogCount (length (singletons records)) what) as ->.
    { destruct m; cbn [count_label] in Hlabel; try done;
        unfold success_line in Hline; rewrite Hplan in Hline;
        cbn [count_label] in Hline; congruence. }
    exists (length (singletons records)). split; [done|]. split; [|split].
    + rewrite Hcalls. unfold fulfilled. by rewrite length_map.
    + rewrite Hcalls. unfold fulfilled, singletons. apply Forall_forall.
      intros call Hcall. apply list_elem_of_fmap in Hcall as (rows & -> & Hrows).
      apply list_elem_of_fmap in Hrows as (row & -> & _). by exists row.
    + rewrite Hdb, length_app, concat_singletons. unfold singletons. by rewrite length_map.
  - intros model filename transform.
    unfold FinalSeeder.seedFromCSV, mbind, Task_bind, lift.
    destruct (readFileSync env ("src/docs/data/" +:+ filename)) as [e|text]; [done|].
    cbn. rewrite parse_records_total. cbn. unfold bulkCreate.
    destruct (insert_check env d model _) as [e|] eqn:Hcheck; [done|].
    cbn. intros _. eexists. split; [reflexivity|]. split; [reflexivity|].
    unfold db_append. by rewrite decide_True.
Qed.

(** ** What a script run on its own writes last *)






(** ** What the address seeder writes to the console *)

Lemma address_loop_console (env : Env) (addresses : list obj) :
  forall d,
    console (for_of addresses (log_and_create env) d)
    = List.map (LogData "Creating address with data:")
        (take (length (calls (for_of addresses (log_and_create env) d))) addresses)
    /\ Forall2 (fun addressData call => exists result,
                  call = EvInsert Address [addressData] result)
               (take (length (calls (for_of addresses (log_and_create env) d))) addresses)
               (calls (for_of addresses (log_and_create env) d))
    /\ (forall e,
          outcome (for_of addresses (log_and_create env) d) = Rejected e ->
          exists rejected,
            last (take (length (calls (for_of addresses (log_and_create env) d)))
                    addresses) = Some rejected
            /\ last (calls (for_of addresses (log_and_create env) d))
               = Some (EvInsert Address [rejected] (Some e)))
    /\ (outcome (for_of addresses (log_and_create env) d) = Resolved tt ->
        length (calls (for_of addresses (log_and_create env) d)) = length addresses).
Proof.
  induction addresses as [|a addresses IH]; intros d.
  - cbn. repeat split; first [done|constructor].
  - cbn [for_of].
    set (first := log_and_create env a d).
    assert (console first = [LogData "Creating address with data:" a]
            /\ exists result,
                 calls first = [EvInsert Address [a] result]
                 /\ outcome first = match result with
                                    | None => Resolved tt
                                    | Some e => Rejected e
                                    end) as (Hconsole & result & Hcalls & Hout).
    { unfold first, log_and_create, createAddress, create, bulkCreate, mbind, Task_bind,
        console_log.
      cbn. destruct (insert_check env d Address [a]) as [e|]; cbn; eauto. }
    set (rest := for_of addresses (log_and_create env) (db first)).
    assert ((log_and_create env a;; for_of addresses (log_and_create env)) d
            = match outcome first with
              | Resolved _ =>
                  {| outcome := outcome rest; db := db rest;
                     calls := calls first ++ calls rest;
                     console := console first ++ console rest |}
              | Rejected e =>
                  {| outcome := Rejected e; db := db first;
                     calls := calls first; console := console first |}
              end) as ->.
    { unfold mbind at 1, Task_bind at 1. fold first. by destruct (outcome first) as [[]|]. }
    destruct result as [e|]; rewrite Hout; cbn [console calls outcome];
      rewrite Hcalls, Hconsole.
    + cbn. split; [done|]. split; [repeat constructor; eauto|]. split; [|done].
      intros e' [= <-]. eauto.
    + destruct (IH (db first)) as (IHconsole & IHcalls & IHrejected & IHresolved).
      fold rest in IHconsole, IHcalls, IHrejected, IHresolved.
      cbn [app length take List.map].
      split; [by rewrite IHconsole|]. split; [constructor; eauto|]. split.
      * intros e Hrej. destruct (IHrejected e Hrej) as (rejected & Hlast & Hcall).
        exists rejected. split.
        -- apply last_Some in Hlast as [pre ->]. by rewrite app_comm_cons, last_snoc.
        -- apply last_Some in Hcall as [pre ->]. by rewrite app_comm_cons, last_snoc.
      * intros Hres. by rewrite IHresolved.
Qed.

(** X19. [seedAddresses] logs every record before it inserts it: after the
    opening line, the console has one line "Creating address with data:"
    per insert call, with the record of that call, in order, and then the
    line of success or the error. When an insert is rejected, the last data
    line shows the rejected record. *)
Theorem address_seeder_logs_each_record (env : Env) (d : DB) (csvData : string)
    (addresses : list obj) :
  readFileSync env "src/docs/data/addresses.csv" = inr csvData ->
  parse_addresses env csvData = inr addresses ->
  let logged := take (length (calls (seedAddresses env d))) addresses in
  Forall2 (fun addressData call => exists result,
             call = EvInsert Address [addressData] result)
          logged (calls (seedAddresses env d))
  /\ match outcome (seedAddresses env d) with
     | Resolved _ =>
         logged = addresses
         /\ console (seedAddresses env d)
            = Log "Seeding addresses..."
                :: List.map (LogData "Creating address with data:") logged
                ++ [Log "Addresses seeded successfully"]
     | Rejected e =>
         (exists rejected,
             last logged = Some rejected
             /\ last (calls (seedAddresses env d))
                = Some (EvInsert Address [rejected] (Some e)))
         /\ console (seedAddresses env d)
            = Log "Seeding addresses..."
                :: List.map (LogData "Creating address with data:") logged
                ++ [LogError "Error seeding addresses:" e]
     end.
Proof.
  intros Hread Hparse.
  destruct (address_loop_console env addresses d)
    as (Hconsole & Hcalls & Hrejected & Hresolved).
  set (loop := for_of addresses (log_and_create env) d) in *.
  assert (outcome (seedAddresses env d)
          = match outcome loop with
            | Resolved _ => Resolved tt
            | Rejected e => Rejected e
            end
          /\ calls (seedAddresses env d) = calls loop
          /\ console (seedAddresses env d)
             = Log "Seeding addresses..." :: console loop
               ++ [match outcome loop with
                   | Resolved _ => Log "Addresses seeded successfully"
                   | Rejected e => LogError "Error seeding addresses:" e
                   end]) as (Hout & Hsame & Hlines).
  { unfold seedAddresses.
    rewrite outcome_rethrow, calls_rethrow, console_rethrow.
    rewrite ?outcome_bind, ?calls_bind, ?console_bind, Hread.
    cbn [lift mret Task_ret console_log outcome db calls console app].
    rewrite ?outcome_bind, ?calls_bind, ?console_bind, Hparse.
    cbn [lift mret Task_ret console_log outcome db calls console app].
    rewrite ?outcome_bind, ?calls_bind, ?console_bind.
    cbn [lift mret Task_ret console_log outcome db calls console app].
    rewrite ?outcome_bind, ?calls_bind, ?console_bind.
    change (for_of addresses _ d) with loop.
    destruct (outcome loop) as [[]|e];
      cbn [console_log outcome db calls console app]; by rewrite ?app_nil_r. }
  cbn zeta. rewrite Hout, Hsame, Hlines.
  destruct (outcome loop) as [[]|e] eqn:Hloop.
  - split; [done|]. rewrite Hconsole. split; [|done].
    rewrite Hresolved by done. apply firstn_all.
  - split; [done|]. rewrite Hconsole. split; [|done]. by apply Hrejected.
Qed.

(** ** The further properties on the sample environment *)


(** With a database that accepts every insert [runSimpleSeeders] goes
    through. *)
Lemma simple_seeder_inserts_its_own_rows_witness :
  sync_check open_env Force empty_db = None
  /\ db (runSimpleSeeders open_env empty_db) Role = simple_roles
  /\ db (runSimpleSeeders open_env empty_db) Category = simple_categories
  /\ db (runSimpleSeeders open_env empty_db) User = simple_users
  /\ db (runSimpleSeeders open_env empty_db) Product = [].
Proof.
  assert (sync_check open_env Force empty_db = None) as Hsync by reflexivity.
  destruct (simple_seeder_inserts_its_own_rows open_env empty_db Hsync)
    as (k & Hk & Hrows & Hothers).
  assert (k = 3) as ->.
  { apply Hk. vm_compute. reflexivity. }
  split; [exact Hsync|].
  split; [exact (proj1 (Hrows 0 Role simple_roles eq_refl) ltac:(lia))|].
  split; [exact (proj1 (Hrows 1 Category simple_categories eq_refl) ltac:(lia))|].
  split; [exact (proj1 (Hrows 2 User simple_users eq_refl) ltac:(lia))|].
  apply Hothers. intros Hin. apply list_elem_of_In in Hin. cbn in Hin.
  intuition discriminate.
Defined.

(** In the sample run the call at position 18 inserts the order; by then
    the two accesses, whose key the order holds as [customer_id], are in. *)
Lemma inserts_wait_for_associated_models_witness :
  (exists rows result,
      calls (runSeeders guide_env empty_db) !! 18 = Some (EvInsert Order rows result))
  /\ Access ∈ references Order
  /\ completed_before guide_env Access 18 (calls (runSeeders guide_env empty_db)).
Proof.
  assert (exists rows result,
             calls (runSeeders guide_env empty_db) !! 18
             = Some (EvInsert Order rows result)) as Hcall.
  { eexists _, _. vm_compute. reflexivity. }
  assert (Access ∈ references Order) as Hdep by (vm_compute; apply list_elem_of_here).
  split; [exact Hcall|]. split; [exact Hdep|].
  destruct Hcall as (rows & result & Hcall).
  exact (inserts_wait_for_associated_models guide_env empty_db 18 Order rows result Hcall
           Access Hdep).
Defined.

(** The rows of order 2 stand first in the list and the cart of order 1 is
    created first. *)
Lemma carts_are_created_in_ascending_order_witness :
  exists products products',
    0 < 1
    /\ object_entries
         (group_by_order guide_env [free_item; <["order_id" := VNum (of_Z 1)]> free_item])
       !! 0 = Some ("1", products)
    /\ object_entries
         (group_by_order guide_env [free_item; <["order_id" := VNum (of_Z 1)]> free_item])
       !! 1 = Some ("2", products')
    /\ array_index "2" = Some 2%N
    /\ exists n', array_index "1" = Some n' /\ (n' < 2)%N.
Proof.
  assert (exists products,
             object_entries
               (group_by_order guide_env
                  [free_item; <["order_id" := VNum (of_Z 1)]> free_item])
             !! 0 = Some ("1", products)) as [products Hfirst].
  { eexists. vm_compute. reflexivity. }
  assert (exists products',
             object_entries
               (group_by_order guide_env
                  [free_item; <["order_id" := VNum (of_Z 1)]> free_item])
             !! 1 = Some ("2", products')) as [products' Hsecond].
  { eexists. vm_compute. reflexivity. }
  assert (array_index "2" = Some 2%N) as Hindex by reflexivity.
  exists products, products'.
  split; [lia|]. split; [exact Hfirst|]. split; [exact Hsecond|]. split; [exact Hindex|].
  exact (carts_are_created_in_ascending_order guide_env _ 0 1 "1" "2" products products'
           2%N ltac:(lia) Hfirst Hsecond Hindex).
Defined.

(** The third role of the sample file has no flag in the file and an
    [is_active] of [false] in the row that reaches the ORM. *)
Lemma seeded_flags_are_never_null_witness :
  EvInsert Role [role_record "Guest" false] None ∈ calls (runSeeders guide_env empty_db)
  /\ role_record "Guest" false ∈ [role_record "Guest" false]
  /\ exists b, role_record "Guest" false !! "is_active" = Some (VBool b).
Proof.
  assert (EvInsert Role [role_record "Guest" false] None
          ∈ calls (runSeeders guide_env empty_db)) as Hcall.
  { apply (list_elem_of_lookup_2 _ 3). vm_compute. reflexivity. }
  assert (role_record "Guest" false ∈ [role_record "Guest" false]) as Hrow
    by apply list_elem_of_here.
  split; [exact Hcall|]. split; [exact Hrow|].
  apply (seeded_flags_are_never_null guide_env empty_db Role _ _ _ Hcall Hrow).
  apply list_elem_of_here.
Defined.

(** The product of the sample file: the column [categoryId] is gone and
    [category_id] is there. *)
Lemma seeded_products_have_six_fields_witness :
  exists row,
    EvInsert Product [row] None ∈ calls (runSeeders guide_env empty_db)
    /\ row ∈ [row]
    /\ is_Some (row !! "category_id")
    /\ ~ is_Some (row !! "categoryId").
Proof.
  assert (exists row,
             calls (runSeeders guide_env empty_db) !! 17
             = Some (EvInsert Product [row] None)) as [row Hcall].
  { eexists. vm_compute. reflexivity. }
  apply list_elem_of_lookup_2 in Hcall.
  assert (row ∈ [row]) as Hrow by apply list_elem_of_here.
  exists row. split; [exact Hcall|]. split; [exact Hrow|].
  destruct (seeded_products_have_six_fields guide_env empty_db _ _ _ Hcall Hrow)
    as (sources & source & _ & _ & Hfields & _).
  split.
  - apply Hfields. apply list_elem_of_here.
  - intros Hsome. apply Hfields in Hsome. apply list_elem_of_In in Hsome. cbn in Hsome.
    intuition discriminate.
Defined.

(** On the sample files [runFinalSeeder] stops at the addresses: the row
    has the key of the file and the database refuses it. *)
Lemma final_seeder_keeps_the_file_columns_witness :
  exists row,
    EvInsert Address [row] (Some (NotNullViolation "Address.department_id"))
    ∈ calls (runFinalSeeder guide_env empty_db)
    /\ row ∈ [row]
    /\ is_Some (row !! "departament_id")
    /\ row !! "department_id" = None.
Proof.
  assert (exists row,
             calls (runFinalSeeder guide_env empty_db) !! 14
             = Some (EvInsert Address [row]
                       (Some (NotNullViolation "Address.department_id")))) as [row Hcall].
  { eexists. vm_compute. reflexivity. }
  apply list_elem_of_lookup_2 in Hcall.
  assert (row ∈ [row]) as Hrow by apply list_elem_of_here.
  exists row. split; [exact Hcall|]. split; [exact Hrow|].
  destruct (final_seeder_keeps_the_file_columns guide_env empty_db _ _ _ _ Hcall Hrow)
    as [Haddress _].
  destruct (Haddress eq_refl) as (text & Hread & Hkept & Hmissing).
  split; [exact Hkept|]. apply Hmissing.
  assert (readFileSync guide_env "src/docs/data/addresses.csv"
          = inr (lines ["user_id,city_id,departament_id,country_id,street,number,postal_code,is_active";
                        "1,1,1,1,Calle 10,42,050001,true"])) as Hfile
    by (vm_compute; reflexivity).
  rewrite Hfile in Hread. injection Hread as <-.
  intros Hin. apply list_elem_of_In in Hin. vm_compute in Hin. intuition discriminate.
Defined.



(** With a database that accepts every insert the sample run resolves,
    and the order items are those of the two carts. *)
Lemma resolved_run_holds_the_seeded_rows_witness :
  outcome (runSeeders open_env empty_db) = Resolved tt
  /\ exists batches,
       plan_of open_env OrderItem = inr batches
       /\ db (runSeeders open_env empty_db) OrderItem = concat batches.
Proof.
  assert (outcome (runSeeders open_env empty_db) = Resolved tt) as Hres
    by (vm_compute; reflexivity).
  split; [exact Hres|].
  exact (proj1 (resolved_run_holds_the_seeded_rows open_env empty_db Hres) OrderItem).
Defined.

(** The one address of the sample file: three lines on the console. *)
Lemma address_seeder_logs_each_record_witness :
  exists csvData address,
    readFileSync guide_env "src/docs/data/addresses.csv" = inr csvData
    /\ parse_addresses guide_env csvData = inr [address]
    /\ console (seedAddresses guide_env empty_db)
       = [ Log "Seeding addresses...";
           LogData "Creating address with data:" address;
           Log "Addresses seeded successfully" ].
Proof.
  assert (exists csvData,
             readFileSync guide_env "src/docs/data/addresses.csv" = inr csvData)
    as [csvData Hread].
  { eexists. vm_compute. reflexivity. }
  assert (exists address, parse_addresses guide_env csvData = inr [address])
    as [address Hparse].
  { vm_compute in Hread. injection Hread as <-. eexists. vm_compute. reflexivity. }
  exists csvData, address. split; [exact Hread|]. split; [exact Hparse|].
  pose proof (address_seeder_logs_each_record guide_env empty_db csvData [address]
                Hread Hparse) as [_ Hconsole].
  assert (outcome (seedAddresses guide_env empty_db) = Resolved tt) as Hres
    by (vm_compute; reflexivity).
  rewrite Hres in Hconsole. destruct Hconsole as [Hlogged ->].
  rewrite Hlogged. reflexivity.
Defined.
